(** * A shallow embedding of the Telegram dry-run bot [tgigbotspn.py]

    The bot keeps one global dictionary [STATE], walks its owner through a
    five-step wizard and then runs a counting loop as an asyncio task.  The
    embedding keeps the shape of the source:

    - Python [str] values are lists of Unicode code points;
    - the library calls the source relies on ([str.strip], [str.lower],
      [str.isdigit], [int], [str.replace], [re.split], [open]/[read] with
      [encoding="utf-8", errors="ignore"]) are written out as functions;
    - [STATE] is a record, the handlers are programs of a small state and
      exception monad over the bot's world (the dictionary, the asyncio
      tasks, the temporary files and the chat the replies go to);
    - the coroutine [dry_run_engine] is a resumable program: one step runs
      it from one suspension point to the next.

    The transport library is not part of the program.  An inbound update is
    taken as it reaches the handlers: one of the five commands or any other
    message, with the id of its sender; sending a reply is taken to
    succeed.  The system clock, the outcome of the network and file
    operations on an upload and the interpreter's Unicode tables are
    inputs of the model. *)

From Stdlib Require Import ZArith NArith List Bool Lia String Ascii.
From stdpp Require Import base option list gmap.

Import ListNotations.
Local Open Scope N_scope.

(** ** Python strings *)

(** A code point ([ord] of a one-character string). *)
Definition char : Type := N.

(** A Python [str]. *)
Definition str : Type := list char.

(** The code points of an ASCII literal. *)
Definition py (s : string) : str :=
  List.map N_of_ascii (list_ascii_of_string s).

(** [not s] / [if s] on a sequence: empty sequences are falsy. *)
Definition truthy {A : Type} (l : list A) : bool :=
  match l with [] => false | _ :: _ => true end.

(** Equality of strings, [==]. *)
Fixpoint str_eqb (a b : str) : bool :=
  match a, b with
  | [], [] => true
  | x :: a', y :: b' => (x =? y) && str_eqb a' b'
  | _, _ => false
  end.

(** *** The interpreter's Unicode database

    On ASCII the character classes are fixed below.  Outside ASCII they are
    whatever the interpreter's Unicode tables say; those tables are not part
    of the program and are taken as a parameter. *)
Record Unicode : Type := {
  (** [str.isalnum] of a code point above U+007F (it decides [\w], [\b]) *)
  uc_isalnum : char -> bool;
  (** [str.isdigit] of a code point above U+007F *)
  uc_isdigit : char -> bool;
  (** the decimal digit value [int] reads from a code point above U+007F,
      [None] when it has none *)
  uc_decimal : char -> option Z;
  (** [str.lower] of a string that has a code point above U+007F *)
  uc_lower : str -> str
}.

Definition is_ascii (c : char) : bool := c <? 0x80.

Definition in_range (lo hi c : char) : bool := (lo <=? c) && (c <=? hi).

(** [str.isspace] of one code point, which is also the regular expression
    class [\s] on a [str] pattern.  The set has not changed since
    Unicode 6.3 (CPython 3.4). *)
Definition isspace (c : char) : bool :=
  in_range 0x09 0x0D c || in_range 0x1C 0x20 c
  || (c =? 0x85) || (c =? 0xA0) || (c =? 0x1680)
  || in_range 0x2000 0x200A c
  || (c =? 0x2028) || (c =? 0x2029) || (c =? 0x202F)
  || (c =? 0x205F) || (c =? 0x3000).

Definition ascii_isdigit (c : char) : bool := in_range 0x30 0x39 c.

Definition ascii_isalnum (c : char) : bool :=
  ascii_isdigit c || in_range 0x41 0x5A c || in_range 0x61 0x7A c.

Definition ascii_lower (c : char) : char :=
  if in_range 0x41 0x5A c then c + 0x20 else c.

Section Strings.

Variable U : Unicode.

Definition isalnum_char (c : char) : bool :=
  if is_ascii c then ascii_isalnum c else uc_isalnum U c.

Definition isdigit_char (c : char) : bool :=
  if is_ascii c then ascii_isdigit c else uc_isdigit U c.

Definition decimal_value (c : char) : option Z :=
  if is_ascii c
  then (if ascii_isdigit c then Some (Z.of_N (c - 0x30)) else None)
  else uc_decimal U c.

(** [s.lower()] *)
Definition lower (s : str) : str :=
  if forallb is_ascii s then List.map ascii_lower s else uc_lower U s.

(** [s.isdigit()]: at least one character and all of them digits. *)
Definition isdigit (s : str) : bool :=
  truthy s && forallb isdigit_char s.

(** [int(s)] on a string that passed [isdigit]: every character must carry
    a decimal value, otherwise [int] raises [ValueError] ([None] here).
    The digits are read in base ten, most significant first. *)
Fixpoint int_digits (acc : Z) (s : str) : option Z :=
  match s with
  | [] => Some acc
  | c :: s' =>
      match decimal_value c with
      | Some d => int_digits (10 * acc + d)%Z s'
      | None => None
      end
  end.

(** [sys.int_info.default_max_str_digits]: CPython's [int] raises
    [ValueError] on a string of more digits than this. *)
Definition max_str_digits : Z := 4300.

Definition int (s : str) : option Z :=
  if truthy s && (Z.of_nat (length s) <=? max_str_digits)%Z
  then int_digits 0%Z s
  else None.

End Strings.

(** [s.lstrip()], [s.rstrip()] and [s.strip()] *)
Fixpoint lstrip (s : str) : str :=
  match s with
  | c :: s' => if isspace c then lstrip s' else s
  | [] => []
  end.

Definition rstrip (s : str) : str := rev (lstrip (rev s)).

Definition strip (s : str) : str := rstrip (lstrip s).

(** [s.replace(old, new)] for one-character [old] and [new]. *)
Definition replace (old new : char) (s : str) : str :=
  List.map (fun c => if c =? old then new else c) s.

(** ** [split_messages]

    [re.split(r"\s*(?:&|\band\b)\s*", raw, flags=re.I)] scans [raw] from the
    left; at each position it tries the pattern, and a match cuts the piece
    collected so far and resumes after the match. *)

Section Split.

Variable U : Unicode.

(** [\w] on a [str] pattern: alphanumeric or underscore. *)
Definition is_word (c : char) : bool := isalnum_char U c || (c =? 0x5F).

(** [\b] where one neighbour is a word character: it holds when the other
    neighbour is missing (start or end of the string) or is not one. *)
Definition boundary (other : option char) : bool :=
  match other with
  | Some c => negb (is_word c)
  | None => true
  end.

(** A literal letter under [re.I].  No code point other than the two ASCII
    cases of [a], [n] and [d] maps to them by case. *)
Definition ci_eq (c letter : char) : bool := ascii_lower c =? letter.

(** The length of the leading run of [\s]. *)
Fixpoint ws_span (s : str) : nat :=
  match s with
  | c :: s' => if isspace c then S (ws_span s') else O
  | [] => O
  end.

(** [(?:&|\band\b)] at the head of [s], [prev] being the character before
    it: the number of characters matched. *)
Definition match_core (prev : option char) (s : str) : option nat :=
  match s with
  | c :: _ =>
      if c =? 0x26 then Some 1%nat
      else
        match s with
        | a :: n :: d :: s3 =>
            if ci_eq a 0x61 && ci_eq n 0x6E && ci_eq d 0x64
               && boundary prev && boundary (head s3)
            then Some 3%nat else None
        | _ => None
        end
  | [] => None
  end.

(** The whole pattern at the head of [s].  Both [\s*] are greedy; giving
    whitespace back never helps, since the core starts with [&] or a
    letter. *)
Definition match_delim (prev : option char) (s : str) : option nat :=
  let k := ws_span s in
  let before := match k with O => prev | S j => s !! j end in
  match match_core before (drop k s) with
  | Some m => Some (k + m + ws_span (drop (k + m) s))%nat
  | None => None
  end.

(** [split_go prev s skip cur]: [s] is what is left of the input, [prev]
    the character before it, [skip] the number of characters of [s] that
    still belong to the match in progress, [cur] the current piece,
    reversed. *)
Fixpoint split_go (prev : option char) (s : str) (skip : nat) (cur : str)
  : list str :=
  match s with
  | [] => [rev cur]
  | c :: s' =>
      match skip with
      | S k => split_go (Some c) s' k cur
      | O =>
          match match_delim prev s with
          | Some (S k) => rev cur :: split_go (Some c) s' k []
          | _ => split_go (Some c) s' O (c :: cur)
          end
      end
  end.

Definition re_split (s : str) : list str := split_go None s O [].

(** The three [replace] calls. *)
Definition normalize (raw : str) : str :=
  replace 0x214B 0x26 (replace 0xFF06 0x26 (replace 0xFE60 0x26 raw)).

(** [[p.strip() for p in parts if p.strip()]] *)
Definition stripped_parts (parts : list str) : list str :=
  List.map strip (List.filter (fun p => truthy (strip p)) parts).

Definition split_messages (raw : str) : list str :=
  stripped_parts (re_split (normalize raw)).

End Split.

(** ** Reading a staged file

    [open(tmp, "r", encoding="utf-8", errors="ignore")] followed by
    [fh.read()] decodes the bytes as UTF-8, drops what does not decode, and,
    the file being opened in text mode with the default [newline=None],
    turns every ["\r\n"] and every lone ["\r"] into ["\n"]. *)

(** A byte, [0 <= b < 256]. *)
Definition byte : Type := N.

Definition is_cont (b : byte) : bool := in_range 0x80 0xBF b.

(** The second byte allowed after the lead byte [b0] of a three-byte
    sequence (no overlong forms, no surrogates). *)
Definition second_of_3 (b0 b1 : byte) : bool :=
  if b0 =? 0xE0 then in_range 0xA0 0xBF b1
  else if b0 =? 0xED then in_range 0x80 0x9F b1
  else is_cont b1.

(** The second byte allowed after the lead byte [b0] of a four-byte
    sequence (no overlong forms, nothing above U+10FFFF). *)
Definition second_of_4 (b0 b1 : byte) : bool :=
  if b0 =? 0xF0 then in_range 0x90 0xBF b1
  else if b0 =? 0xF4 then in_range 0x80 0x8F b1
  else is_cont b1.

(** [bytes.decode("utf-8", errors="ignore")]: a byte that cannot start or
    continue a sequence ends the attempt; the bytes of the attempt are
    dropped and decoding resumes at the offending byte. *)
Fixpoint utf8_decode_ignore (bs : list byte) : str :=
  match bs with
  | [] => []
  | b0 :: r0 =>
      if b0 <? 0x80 then b0 :: utf8_decode_ignore r0
      else if in_range 0xC2 0xDF b0 then
        match r0 with
        | [] => []
        | b1 :: r1 =>
            if is_cont b1
            then ((b0 - 0xC0) * 0x40 + (b1 - 0x80)) :: utf8_decode_ignore r1
            else utf8_decode_ignore r0
        end
      else if in_range 0xE0 0xEF b0 then
        match r0 with
        | [] => []
        | b1 :: r1 =>
            if second_of_3 b0 b1 then
              match r1 with
              | [] => []
              | b2 :: r2 =>
                  if is_cont b2
                  then ((b0 - 0xE0) * 0x1000 + (b1 - 0x80) * 0x40
                        + (b2 - 0x80)) :: utf8_decode_ignore r2
                  else utf8_decode_ignore r1
              end
            else utf8_decode_ignore r0
        end
      else if in_range 0xF0 0xF4 b0 then
        match r0 with
        | [] => []
        | b1 :: r1 =>
            if second_of_4 b0 b1 then
              match r1 with
              | [] => []
              | b2 :: r2 =>
                  if is_cont b2 then
                    match r2 with
                    | [] => []
                    | b3 :: r3 =>
                        if is_cont b3
                        then ((b0 - 0xF0) * 0x40000 + (b1 - 0x80) * 0x1000
                              + (b2 - 0x80) * 0x40 + (b3 - 0x80))
                             :: utf8_decode_ignore r3
                        else utf8_decode_ignore r2
                    end
                  else utf8_decode_ignore r1
              end
            else utf8_decode_ignore r0
        end
      else utf8_decode_ignore r0
  end.

(** Universal newlines, as applied by a text-mode [read()]. *)
Fixpoint universal_newlines (s : str) : str :=
  match s with
  | [] => []
  | c :: s' =>
      if c =? 0x0D then
        0x0A :: match s' with
                | d :: s'' =>
                    if d =? 0x0A then universal_newlines s''
                    else universal_newlines s'
                | [] => []
                end
      else c :: universal_newlines s'
  end.

(** What [fh.read()] returns for a file holding [bs]. *)
Definition read_text (bs : list byte) : str :=
  universal_newlines (utf8_decode_ignore bs).

(** The UTF-8 bytes of a string, to speak of "a file with contents [s]".
    It is defined on Unicode scalar values, the code points that have a
    UTF-8 form. *)
Definition is_scalar (c : char) : bool :=
  (c <? 0xD800) || in_range 0xE000 0x10FFFF c.

Definition utf8_encode_char (c : char) : list byte :=
  if c <? 0x80 then [c]
  else if c <? 0x800 then [0xC0 + c / 0x40; 0x80 + c mod 0x40]
  else if c <? 0x10000 then
    [0xE0 + c / 0x1000; 0x80 + (c / 0x40) mod 0x40; 0x80 + c mod 0x40]
  else
    [0xF0 + c / 0x40000; 0x80 + (c / 0x1000) mod 0x40;
     0x80 + (c / 0x40) mod 0x40; 0x80 + c mod 0x40].

Definition utf8_encode (s : str) : list byte :=
  flat_map utf8_encode_char s.

(** ** The global state *)

Local Open Scope Z_scope.

(** [OWNER_TG_ID] *)
Definition OWNER_TG_ID : Z := 7510461579.

(** The values [STATE["step"]] takes besides [None]: ["session"], ["mode"],
    ["gc_pick"], ["payload"] and ["count"]. *)
Inductive Step : Type := Session | Mode | GcPick | Payload | Count.

Definition step_eqb (a : option Step) (b : Step) : bool :=
  match a, b with
  | Some Session, Session | Some Mode, Mode | Some GcPick, GcPick
  | Some Payload, Payload | Some Count, Count => true
  | _, _ => false
  end.

(** The dictionary [STATE], one field per key.  [task] holds the handle of
    an asyncio task, its index in the world's task table. *)
Record State : Type := mkState {
  logged_in : bool;
  session_label : option str;
  step : option Step;
  mode : option str;
  targets : list str;
  messages : list str;
  send_count : Z;
  running : bool;
  sent : Z;
  started_at : option Z;
  task : option nat;
  mock_groups : list str
}.

(** The literal the module binds [STATE] to. *)
Definition STATE0 : State := {|
  logged_in := false; session_label := None;
  step := None; mode := None; targets := []; messages := [];
  send_count := 0; running := false;
  sent := 0; started_at := None; task := None;
  mock_groups := []
|}.

(** [STATE[key] = v], key by key. *)
Definition set_logged_in (v : bool) (s : State) : State :=
  mkState v (session_label s) (step s) (mode s) (targets s) (messages s)
    (send_count s) (running s) (sent s) (started_at s) (task s)
    (mock_groups s).
Definition set_session_label (v : option str) (s : State) : State :=
  mkState (logged_in s) v (step s) (mode s) (targets s) (messages s)
    (send_count s) (running s) (sent s) (started_at s) (task s)
    (mock_groups s).
Definition set_step (v : option Step) (s : State) : State :=
  mkState (logged_in s) (session_label s) v (mode s) (targets s) (messages s)
    (send_count s) (running s) (sent s) (started_at s) (task s)
    (mock_groups s).
Definition set_mode (v : option str) (s : State) : State :=
  mkState (logged_in s) (session_label s) (step s) v (targets s) (messages s)
    (send_count s) (running s) (sent s) (started_at s) (task s)
    (mock_groups s).
Definition set_targets (v : list str) (s : State) : State :=
  mkState (logged_in s) (session_label s) (step s) (mode s) v (messages s)
    (send_count s) (running s) (sent s) (started_at s) (task s)
    (mock_groups s).
Definition set_messages (v : list str) (s : State) : State :=
  mkState (logged_in s) (session_label s) (step s) (mode s) (targets s) v
    (send_count s) (running s) (sent s) (started_at s) (task s)
    (mock_groups s).
Definition set_send_count (v : Z) (s : State) : State :=
  mkState (logged_in s) (session_label s) (step s) (mode s) (targets s)
    (messages s) v (running s) (sent s) (started_at s) (task s)
    (mock_groups s).
Definition set_running (v : bool) (s : State) : State :=
  mkState (logged_in s) (session_label s) (step s) (mode s) (targets s)
    (messages s) (send_count s) v (sent s) (started_at s) (task s)
    (mock_groups s).
Definition set_sent (v : Z) (s : State) : State :=
  mkState (logged_in s) (session_label s) (step s) (mode s) (targets s)
    (messages s) (send_count s) (running s) v (started_at s) (task s)
    (mock_groups s).
Definition set_started_at (v : option Z) (s : State) : State :=
  mkState (logged_in s) (session_label s) (step s) (mode s) (targets s)
    (messages s) (send_count s) (running s) (sent s) v (task s)
    (mock_groups s).
Definition set_task (v : option nat) (s : State) : State :=
  mkState (logged_in s) (session_label s) (step s) (mode s) (targets s)
    (messages s) (send_count s) (running s) (sent s) (started_at s) v
    (mock_groups s).
Definition set_mock_groups (v : list str) (s : State) : State :=
  mkState (logged_in s) (session_label s) (step s) (mode s) (targets s)
    (messages s) (send_count s) (running s) (sent s) (started_at s) (task s)
    v.

(** ** The world the handlers run in *)

(** An asyncio task running [dry_run_engine]: created and not yet run,
    suspended in [asyncio.sleep(0)] with its locals [i], [msgs] and
    [total], returned, or cancelled.  A cancelled task never runs its
    coroutine again: the engine does not catch [CancelledError]. *)
Inductive Task : Type :=
| Pending
| Asleep (i : nat) (msgs : list str) (total : Z)
| Finished
| Cancelled.

(** What the bot sends back; the constructors name the reply texts of the
    source and carry the values the texts interpolate. *)
Inductive Reply : Type :=
| DemoBotOnline
| LoginFirst
| SendEngineSetup
| EngineHalted
| EngineDashboard (logged : bool) (md : option str) (ntargets nmessages : nat)
    (cnt snt up : Z) (run : bool)
| CommandCenter
| LoggedIn (label : str)
| AvailableGroupChats (names : list (Z * str))
| InvalidSelection
| MessageInput
| NoMessagesFound
| SendCountPrompt
| EngineLive (cnt : Z) (infinite : bool).

(** A path in the temporary directory. *)
Definition path : Type := nat.

Record World : Type := mkWorld {
  STATE : State;
  (** the tasks created so far, by handle *)
  tasks : list Task;
  (** the temporary directory *)
  files : gmap nat (list byte);
  (** the replies sent to the chat, oldest first *)
  chat : list Reply;
  (** the system clock, [time.time()] in whole seconds *)
  clock : Z
}.

Definition with_STATE (f : State -> State) (w : World) : World :=
  mkWorld (f (STATE w)) (tasks w) (files w) (chat w) (clock w).
Definition with_tasks (f : list Task -> list Task) (w : World) : World :=
  mkWorld (STATE w) (f (tasks w)) (files w) (chat w) (clock w).
Definition with_files (f : gmap nat (list byte) -> gmap nat (list byte))
  (w : World) : World :=
  mkWorld (STATE w) (tasks w) (f (files w)) (chat w) (clock w).
Definition with_chat (f : list Reply -> list Reply) (w : World) : World :=
  mkWorld (STATE w) (tasks w) (files w) (f (chat w)) (clock w).

(** *** Handler programs: state and exceptions *)

Inductive Exn : Type := ValueError | OSError | NetworkError.

Inductive Outcome (A : Type) : Type :=
| Returned (a : A) (w : World)
| Raised (e : Exn) (w : World).
Arguments Returned {A} a w.
Arguments Raised {A} e w.

Definition Handler (A : Type) : Type := World -> Outcome A.

Definition ret {A : Type} (a : A) : Handler A := fun w => Returned a w.

Definition raise {A : Type} (e : Exn) : Handler A := fun w => Raised e w.

Definition bind {A B : Type} (m : Handler A) (k : A -> Handler B) : Handler B :=
  fun w =>
    match m w with
    | Returned a w' => k a w'
    | Raised e w' => Raised e w'
    end.

Declare Scope handler_scope.
Delimit Scope handler_scope with H.
Notation "x <- m ;; k" := (bind m (fun x => k))
  (at level 100, m at next level, k at level 200, right associativity)
  : handler_scope.
Notation "m ;; k" := (bind m (fun _ => k))
  (at level 100, k at level 200, right associativity) : handler_scope.

(** The world a handler leaves behind, whether it returned or raised. *)
Definition world_after {A : Type} (o : Outcome A) : World :=
  match o with
  | Returned _ w => w
  | Raised _ w => w
  end.

(** Read the dictionary. *)
Definition get {A : Type} (f : State -> A) : Handler A :=
  fun w => Returned (f (STATE w)) w.

(** Write one key of the dictionary. *)
Definition put (f : State -> State) : Handler unit :=
  fun w => Returned tt (with_STATE f w).

(** [await update.message.reply_text(...)] *)
Definition reply_text (r : Reply) : Handler unit :=
  fun w => Returned tt (with_chat (fun c => c ++ [r]) w).

(** [now_ts()] *)
Definition now_ts : Handler Z := fun w => Returned (clock w) w.

(** [uptime()] *)
Definition uptime : Handler Z :=
  (started <- get started_at ;;
   match started with
   | None => ret 0
   | Some t => if t =? 0 then ret 0 else (now <- now_ts ;; ret (now - t))
   end)%H.

(** [task.cancel()]: a task that has not ended is cancelled. *)
Definition cancel_task (t : Task) : Task :=
  match t with
  | Pending | Asleep _ _ _ => Cancelled
  | Finished | Cancelled => t
  end.

Definition cancel (h : nat) : Handler unit :=
  fun w => Returned tt (with_tasks (alter cancel_task h) w).

(** [asyncio.create_task(dry_run_engine())]: the new task's handle. *)
Definition create_task : Handler nat :=
  fun w =>
    Returned (length (tasks w)) (with_tasks (fun ts => ts ++ [Pending]) w).

(** ** Inbound updates *)

(** What the environment does to the network and file operations on one
    upload: nothing, a failing [get_file]/[download_to_drive], or a failing
    [open]/[read] of the staged file. *)
Inductive Fault : Type := NoFault | FetchFails | ReadFails.

(** [update.message.document]: the bytes of the uploaded file. *)
Record Document : Type := {
  doc_bytes : list byte;
  doc_io : Fault
}.

(** An update that carries a message from a user: the sender's id,
    [update.message.text] and [update.message.document]. *)
Record Update : Type := {
  effective_user_id : Z;
  message_text : option str;
  message_document : option Document
}.

(** [update.message.text or ""] *)
Definition text_or_empty (u : Update) : str :=
  match message_text u with
  | Some t => if truthy t then t else []
  | None => []
  end.

(** ** Utilities *)

Definition is_owner (uid : Z) : bool := uid =? OWNER_TG_ID.

Local Open Scope handler_scope.

(** [tempfile.mktemp(".txt")]: a name no file has. *)
Definition mktemp : Handler path :=
  fun w => Returned (fresh (dom (files w))) w.

(** [await update.message.document.get_file()] *)
Definition get_file (d : Document) : Handler (list byte) :=
  match doc_io d with
  | FetchFails => raise NetworkError
  | _ => ret (doc_bytes d)
  end.

(** [await f.download_to_drive(tmp)] *)
Definition download_to_drive (f : list byte) (tmp : path) : Handler unit :=
  fun w => Returned tt (with_files (insert tmp f) w).

(** [with open(tmp, "r", encoding="utf-8", errors="ignore") as fh:
    raw = fh.read()] *)
Definition open_read (d : Document) (tmp : path) : Handler str :=
  fun w =>
    match files w !! tmp with
    | Some bs =>
        match doc_io d with
        | ReadFails => Raised OSError w
        | _ => Returned (read_text bs) w
        end
    | None => Raised OSError w
    end.

(** [os.remove(tmp)] *)
Definition os_remove (tmp : path) : Handler unit :=
  fun w =>
    match files w !! tmp with
    | Some _ => Returned tt (with_files (delete tmp) w)
    | None => Raised OSError w
    end.

(** ** Demo data *)

Definition build_mock_groups : list str := [
  [0x41; 0x41; 0x4B; 0x41; 0x53; 0x48; 0x20; 0x4B; 0x55; 0x54; 0x49; 0x59;
   0x41; 0x3018; 0x42; 0x45; 0x54; 0x49; 0x43; 0x48; 0x4F; 0x44; 0x3019;
   0x269A; 0x20; 0x1F4A2]%N;
  py "Cudai Lounge " ++ [0x1F525]%N;
  py "Market Signals " ++ [0x1F4C8]%N;
  py "Crypto Talk " ++ [0x1F48E]%N;
  py "Gaming Squad " ++ [0x1F3AE]%N;
  py "Misfits Boxing " ++ [0x1F94A]%N;
  py "Design Critique " ++ [0x270D; 0xFE0F]%N;
  py "Music Drops " ++ [0x1F3B5]%N;
  py "Startup Founders " ++ [0x1F680]%N;
  py "Late-Night Chat " ++ [0x1F319]%N
].

(** [enumerate(l, start)] *)
Fixpoint enumerate {A : Type} (start : Z) (l : list A) : list (Z * A) :=
  match l with
  | [] => []
  | x :: l' => (start, x) :: enumerate (start + 1) l'
  end.

(** ** The dry-run engine *)

(** One trip round [while STATE["running"]], entered at its test: it ends
    the coroutine or reaches [await asyncio.sleep(0)]. *)
Definition engine_loop (i : nat) (msgs : list str) (total : Z) : Handler Task :=
  r <- get running ;;
  if r then
    n <- get sent ;;
    put (set_sent (n + 1)) ;;
    let i := ((i + 1) mod length msgs)%nat in
    n <- get sent ;;
    if (total >? 0) && (n >=? total) then
      put (set_running false) ;;
      ret Finished
    else ret (Asleep i msgs total)
  else ret Finished.

(** [dry_run_engine()], from its start to its first suspension.
    [int(STATE["send_count"] or 0)] is [STATE["send_count"]] itself, the
    key holding an integer. *)
Definition dry_run_engine : Handler Task :=
  now <- now_ts ;;
  put (set_started_at (Some now)) ;;
  put (set_sent 0) ;;
  msgs <- get messages ;;
  total <- get send_count ;;
  if negb (truthy msgs) then
    put (set_running false) ;;
    ret Finished
  else engine_loop 0 msgs total.

(** The event loop gives the task [h] its turn. *)
Definition resume (h : nat) : Handler unit :=
  fun w =>
    match tasks w !! h with
    | Some Pending =>
        (t <- dry_run_engine ;;
         fun w' => Returned tt (with_tasks (<[h := t]>) w')) w
    | Some (Asleep i msgs total) =>
        (t <- engine_loop i msgs total ;;
         fun w' => Returned tt (with_tasks (<[h := t]>) w')) w
    | _ => Returned tt w
    end.

(** The task [h] gets [n] turns in a row, nothing else happening. *)
Fixpoint run_alone (h : nat) (n : nat) (w : World) : World :=
  match n with
  | O => w
  | S n' => run_alone h n' (world_after (resume h w))
  end.

(** ** Commands *)

Definition start_cmd (u : Update) : Handler unit :=
  if negb (is_owner (effective_user_id u)) then ret tt else
  put (set_logged_in false) ;;
  put (set_session_label None) ;;
  put (set_step (Some Session)) ;;
  reply_text DemoBotOnline.

Definition attack_cmd (u : Update) : Handler unit :=
  if negb (is_owner (effective_user_id u)) then ret tt else
  li <- get logged_in ;;
  if negb li then reply_text LoginFirst else
  put (set_step (Some Mode)) ;;
  reply_text SendEngineSetup.

Definition stop_cmd (u : Update) : Handler unit :=
  if negb (is_owner (effective_user_id u)) then ret tt else
  put (set_running false) ;;
  t <- get task ;;
  match t with
  | Some h => cancel h ;; put (set_task None)
  | None => ret tt
  end ;;
  reply_text EngineHalted.

Definition status_cmd (u : Update) : Handler unit :=
  if negb (is_owner (effective_user_id u)) then ret tt else
  s <- get id ;;
  up <- uptime ;;
  reply_text (EngineDashboard (logged_in s) (mode s) (length (targets s))
                (length (messages s)) (send_count s) (sent s) up (running s)).

Definition help_cmd (u : Update) : Handler unit :=
  if negb (is_owner (effective_user_id u)) then ret tt else
  reply_text CommandCenter.

(** ** The text router *)

Section Router.

Variable U : Unicode.

(** [int(text)], raising [ValueError] where [int] does. *)
Definition int_or_raise (text : str) : Handler Z :=
  match int U text with
  | Some v => ret v
  | None => raise ValueError
  end.

Definition read_messages (u : Update) : Handler (list str) :=
  match message_document u with
  | Some d =>
      f <- get_file d ;;
      tmp <- mktemp ;;
      download_to_drive f tmp ;;
      raw <- open_read d tmp ;;
      os_remove tmp ;;
      ret (split_messages U raw)
  | None => ret (split_messages U (text_or_empty u))
  end.

Definition text_router (u : Update) : Handler unit :=
  if negb (is_owner (effective_user_id u)) then ret tt else
  let text := strip (text_or_empty u) in
  step <- get step ;;
  (* ---- LOGIN (SIMULATED) ---- *)
  if step_eqb step Session then
    put (set_logged_in true) ;;
    put (set_session_label
           (Some (if truthy text then text else py "demo-session"))) ;;
    put (set_step None) ;;
    label <- get session_label ;;
    reply_text (LoggedIn (default [] label))
  (* ---- MODE ---- *)
  else if step_eqb step Mode && str_eqb (lower U text) (py "gc") then
    put (set_mode (Some (py "GC"))) ;;
    put (set_mock_groups build_mock_groups) ;;
    groups <- get mock_groups ;;
    put (set_step (Some GcPick)) ;;
    reply_text (AvailableGroupChats (enumerate 1 groups))
  (* ---- GC PICK ---- *)
  else if step_eqb step GcPick && isdigit U text then
    n <- int_or_raise text ;;
    let idx := n - 1 in
    groups <- get mock_groups ;;
    if (idx <? 0) || (idx >=? Z.of_nat (length groups)) then
      reply_text InvalidSelection
    else
      put (set_targets (option_list (groups !! Z.to_nat idx))) ;;
      put (set_step (Some Payload)) ;;
      reply_text MessageInput
  (* ---- PAYLOAD ---- *)
  else if step_eqb step Payload then
    msgs <- read_messages u ;;
    if negb (truthy msgs) then reply_text NoMessagesFound else
    put (set_messages msgs) ;;
    put (set_step (Some Count)) ;;
    reply_text SendCountPrompt
  (* ---- COUNT ---- *)
  else if step_eqb step Count && isdigit U text then
    n <- int_or_raise text ;;
    put (set_send_count n) ;;
    put (set_running true) ;;
    put (set_step None) ;;
    t <- get task ;;
    match t with
    | Some h => cancel h
    | None => ret tt
    end ;;
    h <- create_task ;;
    put (set_task (Some h)) ;;
    cnt <- get send_count ;;
    reply_text (EngineLive cnt (cnt =? 0))
  else ret tt.

(** ** Dispatch, as [main] registers the handlers *)

Inductive Command : Type := start | attack | stop | status | help.

(** An inbound update is one of the five commands or anything else. *)
Inductive Event : Type :=
| Cmd (c : Command) (u : Update)
| Msg (u : Update).

Definition handle (e : Event) : Handler unit :=
  match e with
  | Cmd start u => start_cmd u
  | Cmd attack u => attack_cmd u
  | Cmd stop u => stop_cmd u
  | Cmd status u => status_cmd u
  | Cmd help u => help_cmd u
  | Msg u => text_router u
  end.

Definition sender (e : Event) : Z :=
  match e with
  | Cmd _ u => effective_user_id u
  | Msg u => effective_user_id u
  end.

End Router.

(** ** Worlds and updates used in the closed examples *)

(** A database that classifies nothing outside ASCII.  The closed examples
    below use ASCII text only, where the database is never consulted. *)
Definition ascii_tables : Unicode := {|
  uc_isalnum := fun _ => false;
  uc_isdigit := fun _ => false;
  uc_decimal := fun _ => None;
  uc_lower := fun s => s
|}.

(** The world at import time. *)
Definition world0 : World :=
  {| STATE := STATE0; tasks := []; files := ∅; chat := []; clock := 0 |}.

(** A text message from the user [uid]. *)
Definition says (uid : Z) (s : str) : Update :=
  {| effective_user_id := uid; message_text := Some s;
     message_document := None |}.

(** A file upload from the user [uid]. *)
Definition uploads (uid : Z) (bs : list byte) (io : Fault) : Update :=
  {| effective_user_id := uid; message_text := None;
     message_document := Some {| doc_bytes := bs; doc_io := io |} |}.

(** The events are handled one after the other. *)
Definition handle_all (U : Unicode) (es : list Event) (w : World) : World :=
  fold_left (fun w e => world_after (handle U e w)) es w.

(** The owner has logged in and asked for the setup: the wizard waits for
    the mode. *)
Definition world_at_mode : World :=
  handle_all ascii_tables
    [Cmd start (says OWNER_TG_ID (py "/start"));
     Msg (says OWNER_TG_ID (py "demo"));
     Cmd attack (says OWNER_TG_ID (py "/attack"))] world0.

(** ... has chosen the mode: the wizard waits for a group number. *)
Definition world_at_gc_pick : World :=
  handle_all ascii_tables [Msg (says OWNER_TG_ID (py "GC"))] world_at_mode.

(** ... has picked the second group: the wizard waits for the payload. *)
Definition world_at_payload : World :=
  handle_all ascii_tables [Msg (says OWNER_TG_ID (py "2"))] world_at_gc_pick.

(** ... has typed two messages: the wizard waits for the count. *)
Definition world_at_count : World :=
  handle_all ascii_tables [Msg (says OWNER_TG_ID (py "x & y"))]
    world_at_payload.

(** ... has asked for three sends, and the engine has run to its end. *)
Definition world_after_run : World :=
  run_alone 0 3
    (handle_all ascii_tables [Msg (says OWNER_TG_ID (py "3"))] world_at_count).

(** ** Vocabulary of the properties *)

(** The name [mktemp] hands out in the world [w]. *)
Definition staged (w : World) : path := fresh (dom (files w)).

(** The world [w] with one more reply in the chat. *)
Definition replied (r : Reply) (w : World) : World :=
  with_chat (fun c => c ++ [r]) w.

(** The start command as the specification describes it (claim C4): after
    it every key of [STATE] has the value of the module's literal, except
    [step], which is ["session"]. *)
Definition resets_every_field (u : Update) (w : World) : Prop :=
  STATE (world_after (start_cmd u w)) = set_step (Some Session) STATE0.





(** The string [read_messages] splits, when the network and the file
    system do not fail: the text of the message, or what is read back from
    the staged upload. *)
Definition raw_input (u : Update) : option str :=
  match message_document u with
  | None => Some (text_or_empty u)
  | Some d =>
      match doc_io d with
      | NoFault => Some (read_text (doc_bytes d))
      | _ => None
      end
  end.

(** How the router turns an input down: without a word, or with a reply. *)
Inductive Verdict : Type :=
| Ignored
| Refused (r : Reply).

(** The inputs that are unrecognized or malformed for the step the wizard
    is at, and what becomes of them: text other than "gc" at the mode step,
    text that is not a digit string at the group and count steps, a group
    number outside the catalogue, a payload with no message in it.  A digit
    string that [int] does not read is not classified here: the router
    raises on it. *)
Definition turned_down (U : Unicode) (u : Update) (w : World)
  : option Verdict :=
  let text := strip (text_or_empty u) in
  match step (STATE w) with
  | Some Mode =>
      if str_eqb (lower U text) (py "gc") then None else Some Ignored
  | Some GcPick =>
      if isdigit U text then
        match int U text with
        | Some v =>
            if (1 <=? v) && (v <=? Z.of_nat (length (mock_groups (STATE w))))
            then None else Some (Refused InvalidSelection)
        | None => None
        end
      else Some Ignored
  | Some Payload =>
      match raw_input u with
      | Some raw =>
          if truthy (split_messages U raw) then None
          else Some (Refused NoMessagesFound)
      | None => None
      end
  | Some Count => if isdigit U text then None else Some Ignored
  | Some Session | None => None
  end.

Definition is_error_reply (r : Reply) : bool :=
  match r with
  | LoginFirst | InvalidSelection | NoMessagesFound => true
  | _ => false
  end.

(** Rejection as the specification describes it (claim C5): the input is
    answered with an error reply and nothing else changes. *)
Definition answered_with_error (U : Unicode) (u : Update) (w : World)
  : Prop :=
  exists r, is_error_reply r = true
            /\ text_router U u w = Returned tt (replied r w).

(** The world after a verdict. *)
Definition after_verdict (v : Verdict) (w : World) : World :=
  match v with
  | Ignored => w
  | Refused r => replied r w
  end.

(** The world after the owner picked the group [name]. *)
Definition picked (name : str) (w : World) : World :=
  replied MessageInput
    (with_STATE (fun s => set_step (Some Payload) (set_targets [name] s)) w).

(** The world while the engine counts: [k] sends done, the task asleep. *)
Definition counting (w1 : World) (h : nat) (k : Z) (i : nat) : World :=
  mkWorld (set_sent k (set_started_at (Some (clock w1)) (STATE w1)))
    (<[h := Asleep i (messages (STATE w1)) (send_count (STATE w1))]> (tasks w1))
    (files w1) (chat w1) (clock w1).

(** The world when the engine has returned after [k] sends. *)
Definition counted (w1 : World) (h : nat) (k : Z) : World :=
  mkWorld (set_running false
             (set_sent k (set_started_at (Some (clock w1)) (STATE w1))))
    (<[h := Finished]> (tasks w1))
    (files w1) (chat w1) (clock w1).

(** The strings a text-mode read returns unchanged. *)
Definition no_carriage_return (s : str) : bool :=
  forallb (fun c => negb (c =? 0x0D)%N) s.

(** Upload and typed text as the specification relates them (claim C8):
    at the payload step, the pool stored from an upload whose contents are
    [s] is the pool stored from the typed text [s]. *)
Definition same_pool (U : Unicode) (w : World) (s : str) : Prop :=
  messages (STATE (world_after
     (text_router U (uploads OWNER_TG_ID (utf8_encode s) NoFault) w)))
  = messages (STATE (world_after (text_router U (says OWNER_TG_ID s) w))).

Local Open Scope N_scope.

(** The three code points [split_messages] reads as [&]. *)
Definition is_ampersand_variant (c : char) : bool :=
  (c =? 0xFE60) || (c =? 0xFF06) || (c =? 0x214B).

(** The pieces with the delimiters put back between them. *)
Fixpoint interleave (ps ds : list str) : str :=
  match ps with
  | [] => []
  | p :: ps' =>
      match ds with
      | [] => p
      | d :: ds' => p ++ d ++ interleave ps' ds'
      end
  end.

(** A delimiter: whitespace, then [&] or the letters of "and" in either
    case, then whitespace. *)
Definition is_delimiter (d : str) : bool :=
  match lstrip d with
  | c :: r =>
      if c =? 0x26 then forallb isspace r
      else
        match r with
        | n :: e :: r' =>
            ci_eq c 0x61 && ci_eq n 0x6E && ci_eq e 0x64
            && forallb isspace r'
        | _ => false
        end
  | [] => false
  end.

(** A piece is trimmed: it has a first and a last character and neither is
    whitespace. *)
Definition trimmed (p : str) : bool :=
  match head p, last p with
  | Some c, Some d => negb (isspace c) && negb (isspace d)
  | _, _ => false
  end.

(** The core of a delimiter: [&], or "and" in either case. *)
Definition is_core (core : str) : bool :=
  match core with
  | [c] => c =? 0x26
  | [a; n; d] => ci_eq a 0x61 && ci_eq n 0x6E && ci_eq d 0x64
  | _ => false
  end.

(** The character before the rest, once [d] has been passed. *)
Definition passed (prev : option char) (d : str) : option char :=
  match last d with
  | Some c => Some c
  | None => prev
  end.

(** A word character, as in "the whole word": a letter, a digit or the
    underscore. *)
Definition word_char (U : Unicode) (c : char) : bool :=
  isalnum_char U c || (c =? 0x5F).

(** The three letters of "and", each in either case. *)
Definition spells_and (a n d : char) : bool :=
  ((a =? 0x61) || (a =? 0x41))
  && ((n =? 0x6E) || (n =? 0x4E))
  && ((d =? 0x64) || (d =? 0x44)).

(** A word can begin or end next to [c]: there is no character there, or
    one that is not a word character. *)
Definition word_edge (U : Unicode) (c : option char) : Prop :=
  forall x, c = Some x -> word_char U x = false.

(** [s], the character before it being [prev], begins with a delimiter of
    [n] characters: whitespace, then [&] or the whole word "and" in either
    case, then all the whitespace that follows. *)
Definition delimiter_at (U : Unicode) (prev : option char) (s : str)
  (n : nat) : Prop :=
  exists ws core ws' rest,
    s = ws ++ core ++ ws' ++ rest
    /\ n = length (ws ++ core ++ ws')
    /\ forallb isspace ws = true
    /\ forallb isspace ws' = true
    /\ (forall x, head rest = Some x -> isspace x = false)
    /\ (core = [0x26]
        \/ exists a b c,
             core = [a; b; c] /\ spells_and a b c = true
             /\ word_edge U (passed prev ws)
             /\ word_edge U (head (ws' ++ rest))).

(** No delimiter begins inside the piece [p], which comes after [prev] and
    before [after]. *)
Definition delimiter_free (U : Unicode) (prev : option char) (p after : str)
  : Prop :=
  forall x y n,
    p = x ++ y -> y <> [] -> ~ delimiter_at U (passed prev x) (y ++ after) n.

(** [s], the character before it being [prev], is cut at its delimiters,
    from the left: the pieces are what lies between them. *)
Inductive cut_at_delimiters (U : Unicode)
  : option char -> str -> list str -> Prop :=
| cut_last (prev : option char) (p : str) :
    delimiter_free U prev p [] ->
    cut_at_delimiters U prev p [p]
| cut_next (prev : option char) (p d rest : str) (pieces : list str) :
    delimiter_free U prev p (d ++ rest) ->
    delimiter_at U (passed prev p) (d ++ rest) (length d) ->
    cut_at_delimiters U (passed (passed prev p) d) rest pieces ->
    cut_at_delimiters U prev (p ++ d ++ rest) (p :: pieces).

Local Close Scope N_scope.

(** The environment moves the clock. *)
Definition at_time (t : Z) (w : World) : World :=
  mkWorld (STATE w) (tasks w) (files w) (chat w) t.

(** The worlds the bot can be in: it starts in [world0]; then updates are
    handled, tasks get their turns and time passes. *)
Inductive reachable (U : Unicode) : World -> Prop :=
| reach_world0 : reachable U world0
| reach_handle (e : Event) (w : World) :
    reachable U w -> reachable U (world_after (handle U e w))
| reach_resume (h : nat) (w : World) :
    reachable U w -> reachable U (world_after (resume h w))
| reach_time (t : Z) (w : World) :
    reachable U w -> reachable U (at_time t w).

(** What holds of [STATE] in every reachable world: at the group step the
    catalogue is the demo catalogue; at the count step there is at least
    one message; the targets are empty or one group of the demo
    catalogue. *)
Definition wizard_invariant (s : State) : Prop :=
  (step s = Some GcPick -> mock_groups s = build_mock_groups)
  /\ (step s = Some Count -> messages s <> [])
  /\ (targets s = []
      \/ exists name, In name build_mock_groups /\ targets s = [name]).

(** ** Vocabulary of the invariants *)

(** A task that can still get a turn. *)
Definition live (t : Task) : bool :=
  match t with
  | Pending | Asleep _ _ _ => true
  | Finished | Cancelled => false
  end.

(** The task table once the task [STATE["task"]] refers to, if any, has
    been cancelled. *)
Definition cancel_referenced (s : State) (ts : list Task) : list Task :=
  match task s with
  | Some h => alter cancel_task h ts
  | None => ts
  end.

(** A message as [split_messages] returns it: trimmed, so not empty, and
    free of ampersands of any kind. *)
Definition clean_message (p : str) : Prop :=
  trimmed p = true
  /\ Forall (fun c => c <> 0x26%N /\ is_ampersand_variant c = false) p.

(** What one inbound event can do to [STATE] and to the task table: the
    writes of the handlers, branch by branch. *)
Inductive wizard_step : State -> list Task -> State -> list Task -> Prop :=
| ws_nothing (s : State) (ts : list Task) :
    wizard_step s ts s ts
| ws_start (s : State) (ts : list Task) :
    wizard_step s ts
      (set_step (Some Session)
         (set_session_label None (set_logged_in false s))) ts
| ws_attack (s : State) (ts : list Task) :
    logged_in s = true ->
    wizard_step s ts (set_step (Some Mode) s) ts
| ws_stop (s : State) (ts : list Task) :
    wizard_step s ts
      (match task s with
       | Some _ => set_task None (set_running false s)
       | None => set_running false s
       end)
      (cancel_referenced s ts)
| ws_login (s : State) (ts : list Task) (label : str) :
    step s = Some Session -> label <> [] ->
    wizard_step s ts
      (set_step None
         (set_session_label (Some label) (set_logged_in true s))) ts
| ws_mode (s : State) (ts : list Task) :
    step s = Some Mode ->
    wizard_step s ts
      (set_step (Some GcPick)
         (set_mock_groups build_mock_groups (set_mode (Some (py "GC")) s)))
      ts
| ws_pick (s : State) (ts : list Task) (k : nat) (name : str) :
    step s = Some GcPick -> mock_groups s !! k = Some name ->
    wizard_step s ts (set_step (Some Payload) (set_targets [name] s)) ts
| ws_payload (s : State) (ts : list Task) (msgs : list str) :
    step s = Some Payload -> msgs <> [] -> Forall clean_message msgs ->
    wizard_step s ts (set_step (Some Count) (set_messages msgs s)) ts
| ws_count (s : State) (ts : list Task) (n : Z) :
    step s = Some Count ->
    wizard_step s ts
      (set_task (Some (length ts))
         (set_step None (set_running true (set_send_count n s))))
      (cancel_referenced s ts ++ [Pending]).

(** The steps after the login: the wizard proper. *)
Definition in_wizard (a : option Step) : bool :=
  match a with
  | Some Mode | Some GcPick | Some Payload | Some Count => true
  | Some Session | None => false
  end.

(** The steps after the choice of the mode. *)
Definition past_mode (a : option Step) : bool :=
  match a with
  | Some GcPick | Some Payload | Some Count => true
  | _ => false
  end.

(** The steps after the choice of the group. *)
Definition past_pick (a : option Step) : bool :=
  match a with
  | Some Payload | Some Count => true
  | _ => false
  end.

(** What the handlers and the engine keep true of [STATE]. *)
Definition state_invariant (s : State) : Prop :=
  (step s = Some Session -> logged_in s = false)
  /\ (in_wizard (step s) = true -> logged_in s = true)
  /\ (if logged_in s
      then exists label, session_label s = Some label /\ label <> []
      else session_label s = None)
  /\ (mode s = None /\ mock_groups s = []
      \/ mode s = Some (py "GC") /\ mock_groups s = build_mock_groups)
  /\ (past_mode (step s) = true -> mode s = Some (py "GC"))
  /\ (targets s = []
      \/ exists name, In name build_mock_groups /\ targets s = [name])
  /\ (past_pick (step s) = true -> targets s <> [])
  /\ (step s = Some Count -> messages s <> [])
  /\ Forall clean_message (messages s)
  /\ (running s = true ->
      mode s = Some (py "GC") /\ targets s <> [] /\ messages s <> [])
  /\ 0 <= sent s.

(** What they keep true of the task table: a live task is the one
    [STATE["task"]] refers to; the cursor of a sleeping engine is inside
    its pool; there is no task before there is a message. *)
Definition task_invariant (s : State) (ts : list Task) : Prop :=
  (forall h t, ts !! h = Some t -> live t = true -> task s = Some h)
  /\ (forall h i msgs total,
        ts !! h = Some (Asleep i msgs total) -> (i < length msgs)%nat)
  /\ (ts <> [] -> messages s <> []).

(** ** Worlds and vocabulary of the further properties *)

(** The label the login step stores for the text [text]. *)
Definition label_of (text : str) : str :=
  if truthy (strip text) then strip text else py "demo-session".

(** The world after the owner has logged in with the label [label]. *)
Definition logged_in_as (label : str) (w : World) : World :=
  replied (LoggedIn label)
    (with_STATE
       (fun s => set_step None
                   (set_session_label (Some label) (set_logged_in true s)))
       w).

(** The world after the owner has chosen the mode. *)
Definition mode_chosen (w : World) : World :=
  replied (AvailableGroupChats (enumerate 1 build_mock_groups))
    (with_STATE
       (fun s => set_step (Some GcPick)
                   (set_mock_groups build_mock_groups
                      (set_mode (Some (py "GC")) s)))
       w).

(** The world after [stop_cmd]. *)
Definition halted (w : World) : World :=
  replied EngineHalted
    (mkWorld (set_task None (set_running false (STATE w)))
       (cancel_referenced (STATE w) (tasks w)) (files w) (chat w) (clock w)).

(** The number [uptime()] returns in the world [w]. *)
Definition uptime_of (w : World) : Z :=
  match started_at (STATE w) with
  | Some t => if t =? 0 then 0 else clock w - t
  | None => 0
  end.

(** The tasks [hs] get one turn each, in that order. *)
Definition run_tasks (hs : list nat) (w : World) : World :=
  fold_left (fun w h => world_after (resume h w)) hs w.

(** A database in which U+00B2, superscript two, is a digit without a
    decimal value, as in the Unicode tables. *)
Definition superscript_tables : Unicode := {|
  uc_isalnum := fun c => (c =? 0xB2)%N;
  uc_isdigit := fun c => (c =? 0xB2)%N;
  uc_decimal := fun _ => None;
  uc_lower := fun s => s
|}.

(** The chat of [w'] is the chat of [w] with at most one more reply. *)
Definition at_most_one_reply (w w' : World) : Prop :=
  chat w' = chat w \/ exists r, chat w' = chat w ++ [r].

(** The event is an upload by the owner at the payload step whose read
    fails. *)
Definition failed_upload (e : Event) (w : World) : Prop :=
  exists u d,
    e = Msg u /\ effective_user_id u = OWNER_TG_ID
    /\ step (STATE w) = Some Payload
    /\ message_document u = Some d /\ doc_io d = ReadFails.

(** The engine task [STATE["task"]] refers to can still get a turn. *)
Definition engine_alive (s : State) (ts : list Task) : Prop :=
  exists h t, task s = Some h /\ ts !! h = Some t /\ live t = true.

(** What holds of every engine asleep at [await asyncio.sleep(0)]: its
    limit is [STATE["send_count"]], it has counted at least one send, and
    with a limit it is still below it. *)
Definition sleeping_below_limit (s : State) (ts : list Task) : Prop :=
  forall h i msgs total,
    ts !! h = Some (Asleep i msgs total) ->
    total = send_count s /\ 0 < sent s /\ (0 < total -> sent s < total).

(** The owner has asked for three sends; the engine has not had a turn. *)
Definition world_launched : World :=
  handle_all ascii_tables [Msg (says OWNER_TG_ID (py "3"))] world_at_count.

(** With the engine of [world_launched] still pending, the owner has gone
    through the wizard again, up to the count. *)
Definition world_at_second_count : World :=
  handle_all ascii_tables
    [Cmd attack (says OWNER_TG_ID (py "/attack"));
     Msg (says OWNER_TG_ID (py "GC"));
     Msg (says OWNER_TG_ID (py "1"));
     Msg (says OWNER_TG_ID (py "a"))] world_launched.

(** ... and has asked for five sends: a second engine is pending. *)
Definition world_relaunched : World :=
  handle_all ascii_tables [Msg (says OWNER_TG_ID (py "5"))]
    world_at_second_count.

Local Open Scope N_scope.

(** The letters of "and" follow one another somewhere in [s], in either
    case. *)
Fixpoint has_and (s : str) : bool :=
  match s with
  | a :: s' =>
      match s' with
      | n :: d :: _ => ci_eq a 0x61 && ci_eq n 0x6E && ci_eq d 0x64
      | _ => false
      end
      || has_and s'
  | [] => false
  end.

(** A message that holds nothing [split_messages] could cut at: it is
    trimmed, has no ampersand of any kind and nowhere the letters of
    "and". *)
Definition plain_message (p : str) : bool :=
  trimmed p
  && forallb (fun c => negb (c =? 0x26) && negb (is_ampersand_variant c)) p
  && negb (has_and p).

(** [sep.join(msgs)] *)
Fixpoint join (sep : str) (msgs : list str) : str :=
  match msgs with
  | [] => []
  | p :: ps =>
      match ps with
      | [] => p
      | _ :: _ => p ++ sep ++ join sep ps
      end
  end.

Local Close Scope N_scope.

(** * Properties *)

(** ** Proof support *)

Lemma bind_get {A B : Type} (f : State -> A) (k : A -> Handler B) (w : World) :
  (x <- get f ;; k x) w = k (f (STATE w)) w.
Proof. reflexivity. Qed.

Lemma bind_put {B : Type} (f : State -> State) (k : Handler B) (w : World) :
  (put f ;; k) w = k (with_STATE f w).
Proof. reflexivity. Qed.

Lemma bind_reply {B : Type} (r : Reply) (k : Handler B) (w : World) :
  (reply_text r ;; k) w = k (replied r w).
Proof. reflexivity. Qed.

Lemma bind_ret {A B : Type} (a : A) (k : A -> Handler B) (w : World) :
  (x <- ret a ;; k x) w = k a w.
Proof. reflexivity. Qed.

Lemma bind_raise {A B : Type} (e : Exn) (k : A -> Handler B) (w : World) :
  (x <- raise e ;; k x) w = Raised e w.
Proof. reflexivity. Qed.

Lemma world_eta (w : World) :
  mkWorld (STATE w) (tasks w) (files w) (chat w) (clock w) = w.
Proof. destruct w; reflexivity. Qed.

Lemma is_owner_true (uid : Z) : uid = OWNER_TG_ID -> is_owner uid = true.
Proof. intros ->. reflexivity. Qed.

Lemma is_owner_false (uid : Z) : uid <> OWNER_TG_ID -> is_owner uid = false.
Proof. intros Hne. unfold is_owner. now apply Z.eqb_neq. Qed.

Lemma staged_is_free (w : World) : files w !! staged w = None.
Proof. apply not_elem_of_dom_1. unfold staged. apply is_fresh. Qed.

(** *** What [read_messages] does, case by case *)

Lemma read_messages_text (U : Unicode) (u : Update) (w : World) :
  message_document u = None ->
  read_messages U u w = Returned (split_messages U (text_or_empty u)) w.
Proof. intros E. unfold read_messages. rewrite E. reflexivity. Qed.

Lemma read_messages_file (U : Unicode) (u : Update) (d : Document)
  (w : World) :
  message_document u = Some d ->
  read_messages U u w =
  match doc_io d with
  | NoFault => Returned (split_messages U (read_text (doc_bytes d))) w
  | FetchFails => Raised NetworkError w
  | ReadFails =>
      Raised OSError (with_files (insert (staged w) (doc_bytes d)) w)
  end.
Proof.
  intros E. unfold read_messages. rewrite E.
  unfold get_file, bind, mktemp, download_to_drive, open_read, os_remove, ret,
    raise.
  destruct (doc_io d); cbn; try reflexivity;
    fold (staged w); rewrite lookup_insert_eq; [|reflexivity].
  cbn. rewrite lookup_insert_eq. unfold with_files. cbn.
  rewrite delete_insert_eq, (delete_id _ _ (staged_is_free w)).
  now rewrite world_eta.
Qed.

Lemma read_messages_frame (U : Unicode) (u : Update) (w : World) :
  let w' := world_after (read_messages U u w) in
  STATE w' = STATE w /\ tasks w' = tasks w /\ chat w' = chat w.
Proof.
  destruct (message_document u) as [d|] eqn:E.
  - rewrite (read_messages_file U u d w E). destruct (doc_io d); cbn; auto.
  - rewrite (read_messages_text U u w E). cbn; auto.
Qed.

(** ** The authorization gate *)

(** C3. Whatever the inbound event (one of the five commands or any text or
    file message) and whatever the world (so whatever the step and every
    other field), an event whose sender is not the owner makes its handler
    return at once: nothing is replied and nothing in the world changes. *)
Theorem non_owner_is_ignored (U : Unicode) (e : Event) (w : World) :
  sender e <> OWNER_TG_ID -> handle U e w = Returned tt w.
Proof.
  intros Hne. apply is_owner_false in Hne.
  destruct e as [[] u | u]; simpl in Hne |- *;
    unfold start_cmd, attack_cmd, stop_cmd, status_cmd, help_cmd,
      text_router; rewrite Hne; reflexivity.
Qed.

Lemma non_owner_is_ignored_witness :
  handle ascii_tables (Msg (says 42 (py "3"))) world_at_count
  = Returned tt world_at_count
  /\ handle ascii_tables (Cmd stop (says 42 (py "/stop"))) world_at_count
     = Returned tt world_at_count.
Proof.
  split; apply (non_owner_is_ignored ascii_tables); simpl; discriminate.
Defined.

(** ** The start command *)

(** C4, as stated, fails: after a completed run the start command leaves
    the mode, the target, the messages, the count, the sent counter and the
    task handle as they were. *)
Lemma start_cmd_keeps_the_configuration :
  ~ resets_every_field (says OWNER_TG_ID (py "/start")) world_after_run
  /\ let s := STATE (world_after
                (start_cmd (says OWNER_TG_ID (py "/start")) world_after_run)) in
     mode s = Some (py "GC") /\ messages s = [py "x"; py "y"]
     /\ send_count s = 3 /\ sent s = 3 /\ length (targets s) = 1%nat.
Proof.
  split.
  - unfold resets_every_field. vm_compute. discriminate.
  - vm_compute. repeat split.
Qed.

(** C4, amended. The owner's start command writes three keys of [STATE]:
    [logged_in] becomes [False], [session_label] becomes [None] and [step]
    becomes ["session"]; it replies once; every other key (mode, targets,
    messages, send_count, running, sent, started_at, task, mock_groups) and
    every task and file is left as it was. *)
Theorem start_cmd_resets_login_only (u : Update) (w : World) :
  effective_user_id u = OWNER_TG_ID ->
  exists w',
    start_cmd u w = Returned tt w'
    /\ logged_in (STATE w') = false
    /\ session_label (STATE w') = None
    /\ step (STATE w') = Some Session
    /\ mode (STATE w') = mode (STATE w)
    /\ targets (STATE w') = targets (STATE w)
    /\ messages (STATE w') = messages (STATE w)
    /\ send_count (STATE w') = send_count (STATE w)
    /\ running (STATE w') = running (STATE w)
    /\ sent (STATE w') = sent (STATE w)
    /\ started_at (STATE w') = started_at (STATE w)
    /\ task (STATE w') = task (STATE w)
    /\ mock_groups (STATE w') = mock_groups (STATE w)
    /\ tasks w' = tasks w /\ files w' = files w
    /\ chat w' = chat w ++ [DemoBotOnline].
Proof.
  intros Hu. apply is_owner_true in Hu.
  unfold start_cmd. rewrite Hu. simpl.
  eexists. split; [reflexivity|]. simpl. repeat split.
Qed.

Lemma start_cmd_resets_login_only_witness :
  exists w',
    start_cmd (says OWNER_TG_ID (py "/start")) world_after_run
    = Returned tt w'
    /\ logged_in (STATE w') = false
    /\ session_label (STATE w') = None
    /\ step (STATE w') = Some Session
    /\ mode (STATE w') = mode (STATE world_after_run)
    /\ targets (STATE w') = targets (STATE world_after_run)
    /\ messages (STATE w') = messages (STATE world_after_run)
    /\ send_count (STATE w') = send_count (STATE world_after_run)
    /\ running (STATE w') = running (STATE world_after_run)
    /\ sent (STATE w') = sent (STATE world_after_run)
    /\ started_at (STATE w') = started_at (STATE world_after_run)
    /\ task (STATE w') = task (STATE world_after_run)
    /\ mock_groups (STATE w') = mock_groups (STATE world_after_run)
    /\ tasks w' = tasks world_after_run /\ files w' = files world_after_run
    /\ chat w' = chat world_after_run ++ [DemoBotOnline].
Proof.
  apply (start_cmd_resets_login_only (says OWNER_TG_ID (py "/start"))).
  reflexivity.
Defined.

(** ** The order of the wizard steps *)



(** ** The router, step by step *)

Ltac enter_router Hu Es :=
  unfold text_router; rewrite Hu; cbn [negb];
  rewrite bind_get, Es; cbn [step_eqb andb].

(** ** Reachable worlds *)

Ltac vacuous :=
  cbn; intros E; first [discriminate E | reflexivity | discriminate].

Lemma resume_frame (h : nat) (w : World) :
  let s' := STATE (world_after (resume h w)) in
  step s' = step (STATE w) /\ messages s' = messages (STATE w)
  /\ mock_groups s' = mock_groups (STATE w)
  /\ targets s' = targets (STATE w).
Proof.
  unfold resume.
  destruct (tasks w !! h) as [[| i msgs total | |]|]; cbn; auto;
    unfold dry_run_engine, engine_loop, now_ts, bind, get, put, ret; cbn;
    repeat match goal with
           | |- context [match ?l with [] => _ | _ :: _ => _ end] =>
               destruct l; cbn
           | |- context [if ?b then _ else _] => destruct b; cbn
           end; auto.
Qed.

Lemma handle_keeps_invariant (U : Unicode) (e : Event) (w : World) :
  wizard_invariant (STATE w) ->
  wizard_invariant (STATE (world_after (handle U e w))).
Proof.
  intros (I1 & I2 & I3).
  remember (STATE (world_after (handle U e w))) as s' eqn:Hs'.
  assert (Hsame : s' = STATE w -> wizard_invariant s')
    by (intros ->; now repeat split).
  destruct e as [[] u | u]; cbn [handle] in Hs'.
  - unfold start_cmd in Hs'. destruct (is_owner _); cbn in Hs'; auto.
    subst s'. split; [vacuous|split; [vacuous|exact I3]].
  - unfold attack_cmd in Hs'. destruct (is_owner _); cbn in Hs'; auto.
    unfold bind, get in Hs'. destruct (logged_in (STATE w)); cbn in Hs';
      auto.
    subst s'. split; [vacuous|split; [vacuous|exact I3]].
  - unfold stop_cmd in Hs'. destruct (is_owner _); cbn in Hs'; auto.
    unfold bind, get, put in Hs'. cbn in Hs'.
    destruct (task (STATE w)); cbn in Hs'; subst s'; now repeat split.
  - unfold status_cmd in Hs'. destruct (is_owner _); cbn in Hs'; auto.
    unfold bind, get, uptime, bind, get in Hs'. cbn in Hs'.
    destruct (started_at (STATE w)) as [t|]; [destruct (t =? 0)|];
      cbn in Hs'; auto.
  - unfold help_cmd in Hs'. destruct (is_owner _); cbn in Hs'; auto.
  - unfold text_router in Hs'.
    destruct (is_owner _); cbn [negb] in Hs'; auto.
    rewrite bind_get in Hs'.
    destruct (step (STATE w)) as [[]|] eqn:Es; cbn [step_eqb andb] in Hs'.
    + cbn in Hs'. subst s'. split; [vacuous|split; [vacuous|exact I3]].
    + destruct (str_eqb _ _); cbn in Hs'; auto.
      subst s'. split; [vacuous|split; [vacuous|exact I3]].
    + destruct (isdigit U _); auto.
      unfold int_or_raise in Hs'.
      destruct (int U _) as [n|]; auto.
      rewrite bind_ret, bind_get in Hs'.
      destruct (Z.ltb_spec (n - 1) 0),
        (Z.geb_spec (n - 1) (Z.of_nat (length (mock_groups (STATE w)))));
        cbn [orb] in Hs'; cbn in Hs'; auto.
      subst s'. split; [vacuous|split; [vacuous|]].
      cbn [targets set_targets set_step].
      destruct (lookup_lt_is_Some_2 (mock_groups (STATE w))
                  (Z.to_nat (n - 1))) as [name Hn]; [lia|].
      rewrite Hn. right. exists name. split; [|reflexivity].
      rewrite <- (I1 eq_refl). apply list_elem_of_In.
      eapply list_elem_of_lookup_2, Hn.
    + pose proof (read_messages_frame U u w) as (Hs & _).
      unfold bind at 1 in Hs'.
      destruct (read_messages U u w) as [msgs w'|ex w']; cbn in Hs, Hs';
        [|apply Hsame; congruence].
      destruct msgs as [|m msgs]; cbn in Hs'; [apply Hsame; congruence|].
      subst s'. rewrite Hs.
      split; [vacuous|split; [vacuous|exact I3]].
    + destruct (isdigit U _); auto.
      unfold int_or_raise in Hs'.
      destruct (int U _) as [n|]; auto.
      rewrite bind_ret in Hs'. do 3 rewrite bind_put in Hs'.
      rewrite bind_get in Hs'.
      destruct (task _); cbn in Hs'; subst s';
        (split; [vacuous|split; [vacuous|exact I3]]).
    + cbn in Hs'. auto.
Qed.

Lemma reachable_invariant (U : Unicode) (w : World) :
  reachable U w -> wizard_invariant (STATE w).
Proof.
  induction 1 as [| e w _ IH | h w _ IH | t w _ IH].
  - repeat split; cbn; try discriminate. now left.
  - now apply handle_keeps_invariant.
  - destruct (resume_frame h w) as (E1 & E2 & E3 & E4).
    unfold wizard_invariant. rewrite E1, E2, E3, E4. exact IH.
  - exact IH.
Qed.

(** At the group step of a reachable world the catalogue has ten
    entries. *)
Lemma catalogue_at_gc_pick (U : Unicode) (w : World) :
  reachable U w -> step (STATE w) = Some GcPick ->
  length (mock_groups (STATE w)) = 10%nat.
Proof.
  intros Hr Es. destruct (reachable_invariant U w Hr) as (I1 & _).
  now rewrite (I1 Es).
Qed.

(** At the count step of a reachable world the message pool is not
    empty. *)
Lemma pool_at_count (U : Unicode) (w : World) :
  reachable U w -> step (STATE w) = Some Count -> messages (STATE w) <> [].
Proof.
  intros Hr Es. destruct (reachable_invariant U w Hr) as (_ & I2 & _).
  exact (I2 Es).
Qed.

(** ** Choosing the group *)

Lemma Returned_world {A : Type} (a b : A) (w w' : World) :
  Returned a w = Returned b w' -> w = w'.
Proof. intros E. now injection E. Qed.

Lemma replied_length (r : Reply) (w : World) : replied r w <> w.
Proof.
  intros E. apply (f_equal (fun x => length (chat x))) in E.
  cbn in E. rewrite length_app in E. cbn in E. lia.
Qed.

(** The group step on a digit string, by the value [int] reads. *)
Lemma gc_pick_number (U : Unicode) (u : Update) (w : World) (v : Z) :
  effective_user_id u = OWNER_TG_ID ->
  step (STATE w) = Some GcPick ->
  isdigit U (strip (text_or_empty u)) = true ->
  int U (strip (text_or_empty u)) = Some v ->
  text_router U u w =
  if (1 <=? v) && (v <=? Z.of_nat (length (mock_groups (STATE w))))
  then Returned tt
         (replied MessageInput
            (with_STATE
               (fun s => set_step (Some Payload)
                  (set_targets
                     (option_list (mock_groups s !! Z.to_nat (v - 1))) s)) w))
  else Returned tt (replied InvalidSelection w).
Proof.
  intros Hu Es Hd Hi. apply is_owner_true in Hu.
  enter_router Hu Es. rewrite Hd. unfold int_or_raise. rewrite Hi.
  rewrite bind_ret, bind_get.
  destruct (Z.leb_spec 1 v),
    (Z.leb_spec v (Z.of_nat (length (mock_groups (STATE w)))));
    cbn [andb];
    destruct (Z.ltb_spec (v - 1) 0),
      (Z.geb_spec (v - 1) (Z.of_nat (length (mock_groups (STATE w)))));
    cbn [orb]; try lia; reflexivity.
Qed.

(** C7. At the group step, an owner's digit string whose value is above the
    size of the catalogue in [STATE["mock_groups"]] is answered with
    "Invalid selection", and the world is otherwise as before: [step] and
    every other key of [STATE] keep their values.  In every world the bot
    can reach the catalogue at that step has ten entries, so that every
    value above ten is turned down in this way. *)
Theorem pick_above_catalogue (U : Unicode) (u : Update) (w : World) (v : Z) :
  effective_user_id u = OWNER_TG_ID ->
  step (STATE w) = Some GcPick ->
  isdigit U (strip (text_or_empty u)) = true ->
  int U (strip (text_or_empty u)) = Some v ->
  (Z.of_nat (length (mock_groups (STATE w))) < v ->
   text_router U u w = Returned tt (replied InvalidSelection w)
   /\ STATE (world_after (text_router U u w)) = STATE w)
  /\ (reachable U w -> 10 < v ->
      length (mock_groups (STATE w)) = 10%nat
      /\ text_router U u w = Returned tt (replied InvalidSelection w)
      /\ STATE (world_after (text_router U u w)) = STATE w).
Proof.
  intros Hu Es Hd Hi.
  assert (H : Z.of_nat (length (mock_groups (STATE w))) < v ->
              text_router U u w = Returned tt (replied InvalidSelection w)
              /\ STATE (world_after (text_router U u w)) = STATE w).
  { intros Hv. rewrite (gc_pick_number U u w v Hu Es Hd Hi).
    destruct (Z.leb_spec v (Z.of_nat (length (mock_groups (STATE w)))));
      [lia|].
    rewrite andb_false_r. split; reflexivity. }
  split; [exact H|].
  intros Hr Hv. pose proof (catalogue_at_gc_pick U w Hr Es) as Hl.
  split; [exact Hl|]. apply H. rewrite Hl. exact Hv.
Qed.

(** The example worlds are reachable. *)
Lemma handle_all_reachable (U : Unicode) (es : list Event) (w : World) :
  reachable U w -> reachable U (handle_all U es w).
Proof.
  revert w. induction es as [|e es IH]; intros w Hw; [exact Hw|].
  apply IH. now constructor.
Qed.

Lemma world_at_gc_pick_reachable : reachable ascii_tables world_at_gc_pick.
Proof.
  unfold world_at_gc_pick, world_at_mode.
  do 2 apply handle_all_reachable. constructor.
Qed.

Lemma pick_above_catalogue_witness :
  length (mock_groups (STATE world_at_gc_pick)) = 10%nat
  /\ text_router ascii_tables (says OWNER_TG_ID (py "11")) world_at_gc_pick
     = Returned tt (replied InvalidSelection world_at_gc_pick)
  /\ STATE (world_after
       (text_router ascii_tables (says OWNER_TG_ID (py "11"))
          world_at_gc_pick)) = STATE world_at_gc_pick.
Proof.
  destruct (pick_above_catalogue ascii_tables (says OWNER_TG_ID (py "11"))
              world_at_gc_pick 11 eq_refl eq_refl eq_refl eq_refl)
    as [_ H].
  exact (H world_at_gc_pick_reachable eq_refl).
Defined.

(** C10. Group numbers start at one.  At the group step the owner's ["0"],
    a digit string that [int] reads as 0 (index -1), is answered with
    "Invalid selection" and changes nothing else.  A digit string selects a
    target exactly when its value lies between 1 and the size of the
    catalogue: then the target is the group of that number and [step]
    becomes ["payload"]; with any other value the answer is "Invalid
    selection"; text that is not a digit string is ignored; a digit string
    [int] rejects raises before anything is written. *)
Theorem group_numbers_start_at_one (U : Unicode) (u : Update) (w : World) :
  effective_user_id u = OWNER_TG_ID ->
  step (STATE w) = Some GcPick ->
  let text := strip (text_or_empty u) in
  let groups := mock_groups (STATE w) in
  (text = py "0" ->
     int U text = Some 0
     /\ text_router U u w = Returned tt (replied InvalidSelection w))
  /\ (forall v, isdigit U text = true -> int U text = Some v ->
        1 <= v <= Z.of_nat (length groups) ->
        exists name, groups !! Z.to_nat (v - 1) = Some name
                     /\ text_router U u w = Returned tt (picked name w))
  /\ (forall v, isdigit U text = true -> int U text = Some v ->
        ~ 1 <= v <= Z.of_nat (length groups) ->
        text_router U u w = Returned tt (replied InvalidSelection w))
  /\ (isdigit U text = false -> text_router U u w = Returned tt w)
  /\ (isdigit U text = true -> int U text = None ->
        text_router U u w = Raised ValueError w).
Proof.
  intros Hu Es text groups. subst text groups.
  split; [|split; [|split; [|split]]].
  - intros E. split; [rewrite E; reflexivity|].
    rewrite (gc_pick_number U u w 0 Hu Es);
      [reflexivity | rewrite E; reflexivity ..].
  - intros v Hd Hi [H1 H2].
    destruct (lookup_lt_is_Some_2 (mock_groups (STATE w)) (Z.to_nat (v - 1)))
      as [name Hn]; [lia|].
    exists name. split; [exact Hn|].
    rewrite (gc_pick_number U u w v Hu Es Hd Hi).
    destruct (Z.leb_spec 1 v); [|lia].
    destruct (Z.leb_spec v (Z.of_nat (length (mock_groups (STATE w)))));
      [|lia].
    cbn [andb]. unfold picked, with_STATE. cbn. rewrite Hn. reflexivity.
  - intros v Hd Hi Hv.
    rewrite (gc_pick_number U u w v Hu Es Hd Hi).
    destruct (Z.leb_spec 1 v),
      (Z.leb_spec v (Z.of_nat (length (mock_groups (STATE w)))));
      cbn [andb]; try reflexivity; lia.
  - intros Hd. apply is_owner_true in Hu. enter_router Hu Es.
    rewrite Hd. reflexivity.
  - intros Hd Hi. apply is_owner_true in Hu. enter_router Hu Es.
    rewrite Hd. unfold int_or_raise. rewrite Hi. reflexivity.
Qed.

Lemma group_numbers_start_at_one_witness :
  text_router ascii_tables (says OWNER_TG_ID (py "0")) world_at_gc_pick
  = Returned tt (replied InvalidSelection world_at_gc_pick)
  /\ (exists name,
        mock_groups (STATE world_at_gc_pick) !! Z.to_nat (10 - 1) = Some name
        /\ text_router ascii_tables (says OWNER_TG_ID (py "10"))
             world_at_gc_pick
           = Returned tt (picked name world_at_gc_pick))
  /\ text_router ascii_tables (says OWNER_TG_ID (py "12")) world_at_gc_pick
     = Returned tt (replied InvalidSelection world_at_gc_pick)
  /\ text_router ascii_tables (says OWNER_TG_ID (py "one")) world_at_gc_pick
     = Returned tt world_at_gc_pick.
Proof.
  split; [|split; [|split]].
  - apply (group_numbers_start_at_one ascii_tables
             (says OWNER_TG_ID (py "0")) world_at_gc_pick);
      reflexivity.
  - apply (group_numbers_start_at_one ascii_tables
             (says OWNER_TG_ID (py "10")) world_at_gc_pick);
      try reflexivity.
    vm_compute. split; intros E; discriminate E.
  - apply (group_numbers_start_at_one ascii_tables
             (says OWNER_TG_ID (py "12")) world_at_gc_pick) with (v := 12);
      try reflexivity.
    vm_compute. intros [_ E]. apply E. reflexivity.
  - apply (group_numbers_start_at_one ascii_tables
             (says OWNER_TG_ID (py "one")) world_at_gc_pick);
      reflexivity.
Defined.

(** ** Input the wizard turns down *)

(** C5, as stated, fails: at the mode step text other than "GC", and at the
    group and count steps text that is not a number, get no reply at
    all. *)
Lemma unrecognized_input_gets_no_reply :
  (text_router ascii_tables (says OWNER_TG_ID (py "hello")) world_at_mode
   = Returned tt world_at_mode
   /\ ~ answered_with_error ascii_tables (says OWNER_TG_ID (py "hello"))
          world_at_mode)
  /\ (text_router ascii_tables (says OWNER_TG_ID (py "two")) world_at_gc_pick
      = Returned tt world_at_gc_pick
      /\ ~ answered_with_error ascii_tables (says OWNER_TG_ID (py "two"))
             world_at_gc_pick)
  /\ (text_router ascii_tables (says OWNER_TG_ID (py "many")) world_at_count
      = Returned tt world_at_count
      /\ ~ answered_with_error ascii_tables (says OWNER_TG_ID (py "many"))
             world_at_count).
Proof.
  assert (E1 : text_router ascii_tables (says OWNER_TG_ID (py "hello"))
                 world_at_mode = Returned tt world_at_mode)
    by reflexivity.
  assert (E2 : text_router ascii_tables (says OWNER_TG_ID (py "two"))
                 world_at_gc_pick = Returned tt world_at_gc_pick)
    by reflexivity.
  assert (E3 : text_router ascii_tables (says OWNER_TG_ID (py "many"))
                 world_at_count = Returned tt world_at_count)
    by reflexivity.
  repeat split; trivial; intros (r & _ & E);
    [rewrite E1 in E | rewrite E2 in E | rewrite E3 in E];
    apply Returned_world in E; symmetry in E; exact (replied_length _ _ E).
Qed.

(** C5, amended. An owner's input that is unrecognized or malformed for the
    step the wizard is at leaves [step] and the rest of the world as they
    were.  An error reply is sent for a group number outside the catalogue
    and for a payload with no message in it; text other than "GC" at the
    mode step and text that is not a digit string at the group and count
    steps are ignored without a reply. *)
Theorem turned_down_input_keeps_state (U : Unicode) (u : Update) (w : World)
  (v : Verdict) :
  effective_user_id u = OWNER_TG_ID ->
  turned_down U u w = Some v ->
  text_router U u w = Returned tt (after_verdict v w)
  /\ STATE (after_verdict v w) = STATE w
  /\ match v with
     | Ignored => True
     | Refused r => is_error_reply r = true
     end.
Proof.
  intros Hu Hv. unfold turned_down in Hv.
  destruct (step (STATE w)) as [[]|] eqn:Es; try discriminate Hv.
  - (* mode *)
    destruct (str_eqb _ _) eqn:Eg; [discriminate Hv|].
    injection Hv as <-. apply is_owner_true in Hu. enter_router Hu Es.
    rewrite Eg. repeat split.
  - (* gc_pick *)
    destruct (isdigit U _) eqn:Ed.
    + destruct (int U _) as [n|] eqn:Ei; [|discriminate Hv].
      rewrite (gc_pick_number U u w n Hu Es Ed Ei).
      destruct (_ && _); [discriminate Hv|].
      injection Hv as <-. repeat split.
    + injection Hv as <-. apply is_owner_true in Hu. enter_router Hu Es.
      rewrite Ed. repeat split.
  - (* payload *)
    unfold raw_input in Hv. apply is_owner_true in Hu. enter_router Hu Es.
    unfold bind at 1.
    destruct (message_document u) as [d|] eqn:Em.
    + rewrite (read_messages_file U u d w Em).
      destruct (doc_io d); try discriminate Hv.
      destruct (truthy _); [discriminate Hv|].
      injection Hv as <-. repeat split.
    + rewrite (read_messages_text U u w Em).
      destruct (truthy _); [discriminate Hv|].
      injection Hv as <-. repeat split.
  - (* count *)
    destruct (isdigit U _) eqn:Ed; [discriminate Hv|].
    injection Hv as <-. apply is_owner_true in Hu. enter_router Hu Es.
    rewrite Ed. repeat split.
Qed.

Lemma turned_down_input_keeps_state_witness :
  text_router ascii_tables (says OWNER_TG_ID (py "hello")) world_at_mode
  = Returned tt world_at_mode
  /\ text_router ascii_tables (says OWNER_TG_ID (py "11")) world_at_gc_pick
     = Returned tt (replied InvalidSelection world_at_gc_pick)
  /\ text_router ascii_tables (uploads OWNER_TG_ID [0x20; 0x0A]%N NoFault)
       world_at_payload
     = Returned tt (replied NoMessagesFound world_at_payload)
  /\ text_router ascii_tables (says OWNER_TG_ID (py "many")) world_at_count
     = Returned tt world_at_count.
Proof.
  split; [|split; [|split]].
  - apply (turned_down_input_keeps_state ascii_tables
             (says OWNER_TG_ID (py "hello")) world_at_mode Ignored);
      reflexivity.
  - apply (turned_down_input_keeps_state ascii_tables
             (says OWNER_TG_ID (py "11")) world_at_gc_pick
             (Refused InvalidSelection));
      reflexivity.
  - apply (turned_down_input_keeps_state ascii_tables
             (uploads OWNER_TG_ID [0x20; 0x0A]%N NoFault) world_at_payload
             (Refused NoMessagesFound));
      reflexivity.
  - apply (turned_down_input_keeps_state ascii_tables
             (says OWNER_TG_ID (py "many")) world_at_count Ignored);
      reflexivity.
Defined.

(** ** The dry-run engine *)

Lemma run_alone_S (h : nat) (k : nat) (w : World) :
  run_alone h (S k) w = world_after (resume h (run_alone h k w)).
Proof.
  revert w. induction k as [|k IH]; intros w; [reflexivity|].
  change (run_alone h (S (S k)) w)
    with (run_alone h (S k) (world_after (resume h w))).
  rewrite IH. reflexivity.
Qed.

Section Engine.

Variables (w1 : World) (h : nat).
Hypothesis Hpending : tasks w1 !! h = Some Pending.
Hypothesis Hrunning : running (STATE w1) = true.
Hypothesis Hmsgs : messages (STATE w1) <> [].

Let n := send_count (STATE w1).

Lemma first_turn :
  world_after (resume h w1) =
  if (n >? 0) && (1 >=? n) then counted w1 h 1
  else counting w1 h 1 (1 mod length (messages (STATE w1))).
Proof.
  unfold resume. rewrite Hpending.
  unfold dry_run_engine, engine_loop, now_ts, bind, get, put, ret.
  destruct (messages (STATE w1)) as [|m ms] eqn:Em; [congruence|].
  cbn -[Nat.modulo Z.add Z.gtb Z.geb length]. rewrite Em.
  cbn -[Nat.modulo Z.add Z.gtb Z.geb length].
  rewrite Hrunning. cbn -[Nat.modulo Z.gtb Z.geb Z.add length]. fold n.
  change (0 + 1) with 1.
  destruct ((n >? 0) && (1 >=? n)); unfold counted, counting; rewrite ?Em;
    reflexivity.
Qed.

Lemma next_turn (k : Z) (i : nat) :
  world_after (resume h (counting w1 h k i)) =
  if (n >? 0) && (k + 1 >=? n) then counted w1 h (k + 1)
  else counting w1 h (k + 1) ((i + 1) mod length (messages (STATE w1))).
Proof.
  unfold resume, counting at 1. cbn [tasks].
  rewrite list_lookup_insert_eq by (apply lookup_lt_is_Some; eauto).
  unfold engine_loop, bind, get, put, ret.
  cbn -[Nat.modulo Z.add Z.gtb Z.geb length].
  rewrite Hrunning. cbn -[Nat.modulo Z.add Z.gtb Z.geb length]. fold n.
  destruct ((n >? 0) && (k + 1 >=? n)); unfold counted, counting;
    unfold with_tasks, with_STATE; cbn [tasks STATE files chat clock];
    rewrite list_insert_insert_eq; reflexivity.
Qed.

Lemma turn_after_return (k : Z) :
  world_after (resume h (counted w1 h k)) = counted w1 h k.
Proof.
  unfold resume, counted at 1. cbn [tasks].
  rewrite list_lookup_insert_eq by (apply lookup_lt_is_Some; eauto).
  reflexivity.
Qed.

(** While the limit is not reached, every turn is one more send. *)
Lemma turns_below_limit (k : nat) :
  (0 < k)%nat -> (n = 0 \/ Z.of_nat k < n) ->
  exists i, run_alone h k w1 = counting w1 h (Z.of_nat k) i.
Proof.
  induction k as [|k IH]; [lia|]. intros _ Hk.
  rewrite run_alone_S.
  destruct k as [|k].
  - cbn [run_alone]. rewrite first_turn.
    destruct (Z.gtb_spec n 0), (Z.geb_spec 1 n); cbn [andb]; eauto; lia.
  - destruct IH as [i ->]; [lia|lia|]. rewrite next_turn.
    replace (Z.of_nat (S k) + 1) with (Z.of_nat (S (S k))) by lia.
    destruct (Z.gtb_spec n 0), (Z.geb_spec (Z.of_nat (S (S k))) n);
      cbn [andb]; eauto; lia.
Qed.

(** With a positive limit, the turn that reaches it is the last one. *)
Lemma turns_to_limit :
  0 < n -> run_alone h (Z.to_nat n) w1 = counted w1 h n.
Proof.
  intros Hn. destruct (Z.to_nat n) as [|k] eqn:Ek; [lia|].
  rewrite run_alone_S. destruct k as [|k].
  - cbn [run_alone]. rewrite first_turn.
    destruct (Z.gtb_spec n 0), (Z.geb_spec 1 n); cbn [andb]; try lia.
    f_equal. lia.
  - destruct (turns_below_limit (S k)) as [i ->]; [lia|lia|].
    rewrite next_turn.
    replace (Z.of_nat (S k) + 1) with n by lia.
    destruct (Z.gtb_spec n 0), (Z.geb_spec n n); cbn [andb]; try lia.
    reflexivity.
Qed.

(** A task that has ended or was cancelled is never run again. *)
Lemma turns_of_ended_task (w : World) (j : nat) :
  tasks w !! h = Some Finished \/ tasks w !! h = Some Cancelled ->
  run_alone h j w = w.
Proof.
  intros Hw. induction j as [|j IH]; [reflexivity|].
  cbn [run_alone]. unfold resume at 1.
  destruct Hw as [-> | ->]; exact IH.
Qed.

(** The loop sees a cleared [running] flag at its next test. *)
Lemma turn_after_flag_cleared (k : Z) (i : nat) :
  world_after (resume h (with_STATE (set_running false) (counting w1 h k i)))
  = counted w1 h k.
Proof.
  unfold resume, counting. cbn [tasks with_STATE].
  rewrite list_lookup_insert_eq by (apply lookup_lt_is_Some; eauto).
  unfold engine_loop, bind, get, put, ret. cbn.
  unfold counted, with_tasks. cbn.
  rewrite list_insert_insert_eq. reflexivity.
Qed.

(** The stop command while the engine counts. *)
Lemma stop_while_counting (u : Update) (k : Z) (i : nat) :
  effective_user_id u = OWNER_TG_ID ->
  task (STATE w1) = Some h ->
  let ws := world_after (stop_cmd u (counting w1 h k i)) in
  running (STATE ws) = false /\ sent (STATE ws) = k
  /\ tasks ws !! h = Some Cancelled.
Proof.
  intros Hu Ht. apply is_owner_true in Hu.
  unfold stop_cmd. rewrite Hu. cbn [negb].
  rewrite bind_put. unfold bind at 1. rewrite bind_get.
  cbn [counting with_STATE STATE task set_running set_sent set_started_at].
  unfold counting, cancel, bind, put, reply_text. cbn. rewrite Ht. cbn.
  repeat split.
  rewrite list_lookup_alter_eq, list_lookup_insert_eq
    by (apply lookup_lt_is_Some; eauto).
  reflexivity.
Qed.

End Engine.

Lemma count_step (U : Unicode) (u : Update) (w : World) (n : Z) :
  effective_user_id u = OWNER_TG_ID ->
  step (STATE w) = Some Count ->
  isdigit U (strip (text_or_empty u)) = true ->
  int U (strip (text_or_empty u)) = Some n ->
  exists ts,
    length ts = length (tasks w)
    /\ text_router U u w =
       Returned tt
         (mkWorld
            (set_task (Some (length (tasks w)))
               (set_step None
                  (set_running true (set_send_count n (STATE w)))))
            (ts ++ [Pending]) (files w)
            (chat w ++ [EngineLive n (n =? 0)]) (clock w)).
Proof.
  intros Hu Es Hd Hi. apply is_owner_true in Hu.
  enter_router Hu Es. rewrite Hd. unfold int_or_raise. rewrite Hi.
  rewrite bind_ret, !bind_put. rewrite bind_get.
  cbn [STATE with_STATE task set_step set_running set_send_count].
  destruct (task (STATE w)) as [h0|].
  - exists (alter cancel_task h0 (tasks w)). split; [apply length_alter|].
    unfold cancel, create_task, bind, put, get, reply_text. cbn.
    rewrite length_alter. reflexivity.
  - exists (tasks w). split; [reflexivity|]. reflexivity.
Qed.


Lemma run_alone_add (h : nat) (a b : nat) (w : World) :
  run_alone h (a + b) w = run_alone h b (run_alone h a w).
Proof.
  revert w. induction a as [|a IH]; intros w; [reflexivity|].
  cbn [run_alone Nat.add]. apply IH.
Qed.

(** C1. When the owner completes the wizard with a digit string read as
    [n], the message pool being non-empty, the router sets [running], stores
    [n] and creates the engine task.  Left to itself the task behaves as
    follows.  If [n > 0] every turn before the [n]-th leaves it asleep with
    [sent] equal to the number of turns, and the [n]-th turn ends it with
    [sent = n] and [running] cleared; further turns change nothing.  If
    [n = 0] it never ends on its own: after any number [k > 0] of turns it
    is asleep with [running] set and [sent = k]; once the stop command has
    cleared [running] (and cancelled the task) [sent] stays at [k], and a
    cleared flag alone makes the loop leave at its next test, [sent] still
    at [k]. *)
Theorem engine_counts_to_the_limit (U : Unicode) (u : Update) (w : World)
  (n : Z) :
  effective_user_id u = OWNER_TG_ID ->
  step (STATE w) = Some Count ->
  messages (STATE w) <> [] ->
  isdigit U (strip (text_or_empty u)) = true ->
  int U (strip (text_or_empty u)) = Some n ->
  let h := length (tasks w) in
  let w1 := world_after (text_router U u w) in
  (running (STATE w1) = true /\ send_count (STATE w1) = n
   /\ step (STATE w1) = None /\ task (STATE w1) = Some h
   /\ tasks w1 !! h = Some Pending)
  /\ (0 < n ->
      (forall k, (0 < k)%nat -> Z.of_nat k < n ->
         let wk := run_alone h k w1 in
         sent (STATE wk) = Z.of_nat k /\ running (STATE wk) = true
         /\ exists i, tasks wk !! h = Some (Asleep i (messages (STATE w)) n))
      /\ (forall j,
            let wn := run_alone h (Z.to_nat n + j) w1 in
            sent (STATE wn) = n /\ running (STATE wn) = false
            /\ tasks wn !! h = Some Finished))
  /\ (n = 0 ->
      forall k, (0 < k)%nat ->
        let wk := run_alone h k w1 in
        (sent (STATE wk) = Z.of_nat k /\ running (STATE wk) = true
         /\ exists i, tasks wk !! h = Some (Asleep i (messages (STATE w)) 0))
        /\ (forall u', effective_user_id u' = OWNER_TG_ID ->
              let ws := world_after (stop_cmd u' wk) in
              running (STATE ws) = false
              /\ tasks ws !! h = Some Cancelled
              /\ forall j, sent (STATE (run_alone h j ws)) = Z.of_nat k)
        /\ (forall j,
              let we := run_alone h (S j)
                          (with_STATE (set_running false) wk) in
              sent (STATE we) = Z.of_nat k
              /\ tasks we !! h = Some Finished)).
Proof.
  intros Hu Es Hm Hd Hi h w1.
  destruct (count_step U u w n Hu Es Hd Hi) as (ts & Hts & Er).
  assert (Hp : tasks w1 !! h = Some Pending).
  { subst w1 h. rewrite Er. cbn [world_after tasks].
    now apply list_lookup_middle. }
  assert (Hr : running (STATE w1) = true) by (subst w1; now rewrite Er).
  assert (Hn : send_count (STATE w1) = n) by (subst w1; now rewrite Er).
  assert (Hms : messages (STATE w1) = messages (STATE w))
    by (subst w1; now rewrite Er).
  assert (Hm1 : messages (STATE w1) <> []) by now rewrite Hms.
  assert (Hlen : (h < length (tasks w1))%nat)
    by (apply lookup_lt_is_Some; eauto).
  split; [|split].
  - repeat split; trivial; subst w1; now rewrite Er.
  - intros Hpos. split.
    + intros k Hk Hkn wk.
      destruct (turns_below_limit w1 h Hp Hr Hm1 k Hk (or_intror
                  (eq_ind_r (fun x => Z.of_nat k < x) Hkn Hn))) as [i Ek].

      subst wk. rewrite Ek. cbn. repeat split; [exact Hr|].
      exists i. rewrite Hms, Hn. now apply list_lookup_insert_eq.
    + intros j wn. subst wn. rewrite run_alone_add.
      assert (En : run_alone h (Z.to_nat n) w1 = counted w1 h n).
      { rewrite <- Hn. apply turns_to_limit; trivial. now rewrite Hn. }
      rewrite En.
      rewrite turns_of_ended_task
        by (left; cbn; now apply list_lookup_insert_eq).
      cbn. repeat split. now apply list_lookup_insert_eq.
  - intros Hz k Hk wk.
    destruct (turns_below_limit w1 h Hp Hr Hm1 k Hk
                (or_introl (eq_trans Hn Hz))) as [i Ek].
    subst wk. rewrite Ek. split; [|split].
    + cbn. repeat split; [exact Hr|].
      exists i. rewrite Hms, Hn, Hz. now apply list_lookup_insert_eq.
    + intros u' Hu' ws.
      assert (Ht : task (STATE w1) = Some h) by (subst w1; now rewrite Er).
      destruct (stop_while_counting w1 h Hp u' (Z.of_nat k) i Hu' Ht)
        as (H1 & H2 & H3).
      fold ws in H1, H2, H3. repeat split; trivial.
      intros j. rewrite turns_of_ended_task by now right. exact H2.
    + intros j we. subst we. cbn [run_alone].
      rewrite (turn_after_flag_cleared w1 h Hp).
      rewrite turns_of_ended_task
        by (left; cbn; now apply list_lookup_insert_eq).
      cbn. split; [reflexivity|]. now apply list_lookup_insert_eq.
Qed.

Lemma engine_counts_to_the_limit_witness :
  (let w1 := world_after
               (text_router ascii_tables (says OWNER_TG_ID (py "3"))
                  world_at_count) in
   sent (STATE (run_alone 0 3 w1)) = 3
   /\ running (STATE (run_alone 0 3 w1)) = false
   /\ tasks (run_alone 0 3 w1) !! 0%nat = Some Finished)
  /\ (let w1 := world_after
                  (text_router ascii_tables (says OWNER_TG_ID (py "0"))
                     world_at_count) in
      sent (STATE (run_alone 0 7 w1)) = 7
      /\ running (STATE (run_alone 0 7 w1)) = true).
Proof.
  split.
  - pose proof (engine_counts_to_the_limit ascii_tables
                  (says OWNER_TG_ID (py "3")) world_at_count 3
                  eq_refl eq_refl ltac:(discriminate) eq_refl eq_refl)
      as (_ & H & _).
    destruct (H eq_refl) as [_ H3]. exact (H3 0%nat).
  - pose proof (engine_counts_to_the_limit ascii_tables
                  (says OWNER_TG_ID (py "0")) world_at_count 0
                  eq_refl eq_refl ltac:(discriminate) eq_refl eq_refl)
      as (_ & _ & H).
    destruct (H eq_refl 7%nat ltac:(lia)) as [(H1 & H2 & _) _].
    exact (conj H1 H2).
Defined.

(** ** Uploads *)

Section Utf8.

Local Open Scope N_scope.

Lemma in_range_true (lo hi c : N) : lo <= c <= hi -> in_range lo hi c = true.
Proof.
  intros [H1 H2]. unfold in_range.
  now rewrite (proj2 (N.leb_le lo c) H1), (proj2 (N.leb_le c hi) H2).
Qed.

Lemma in_range_false (lo hi c : N) :
  c < lo \/ hi < c -> in_range lo hi c = false.
Proof.
  intros H. unfold in_range.
  destruct (N.leb_spec lo c), (N.leb_spec c hi); trivial; lia.
Qed.

Lemma ltb_false (a b : N) : b <= a -> (a <? b) = false.
Proof. apply N.ltb_ge. Qed.

Lemma decode_1 (b : byte) (r : list byte) :
  b < 0x80 -> utf8_decode_ignore (b :: r) = b :: utf8_decode_ignore r.
Proof.
  intros Hb. cbn [utf8_decode_ignore].
  now rewrite (proj2 (N.ltb_lt b 0x80) Hb).
Qed.

Lemma decode_2 (b0 b1 : byte) (r : list byte) :
  0xC2 <= b0 <= 0xDF -> is_cont b1 = true ->
  utf8_decode_ignore (b0 :: b1 :: r)
  = ((b0 - 0xC0) * 0x40 + (b1 - 0x80)) :: utf8_decode_ignore r.
Proof.
  intros H0 H1. remember (b1 :: r) as r0 eqn:E0.
  cbn [utf8_decode_ignore].
  rewrite ltb_false by lia. rewrite in_range_true by lia.
  subst r0. now rewrite H1.
Qed.

Lemma decode_3 (b0 b1 b2 : byte) (r : list byte) :
  0xE0 <= b0 <= 0xEF -> second_of_3 b0 b1 = true -> is_cont b2 = true ->
  utf8_decode_ignore (b0 :: b1 :: b2 :: r)
  = ((b0 - 0xE0) * 0x1000 + (b1 - 0x80) * 0x40 + (b2 - 0x80))
    :: utf8_decode_ignore r.
Proof.
  intros H0 H1 H2. remember (b1 :: b2 :: r) as r0 eqn:E0.
  cbn [utf8_decode_ignore].
  rewrite ltb_false by lia. rewrite in_range_false by lia.
  rewrite in_range_true by lia.
  subst r0. rewrite H1. now rewrite H2.
Qed.

Lemma decode_4 (b0 b1 b2 b3 : byte) (r : list byte) :
  0xF0 <= b0 <= 0xF4 -> second_of_4 b0 b1 = true ->
  is_cont b2 = true -> is_cont b3 = true ->
  utf8_decode_ignore (b0 :: b1 :: b2 :: b3 :: r)
  = ((b0 - 0xF0) * 0x40000 + (b1 - 0x80) * 0x1000 + (b2 - 0x80) * 0x40
     + (b3 - 0x80)) :: utf8_decode_ignore r.
Proof.
  intros H0 H1 H2 H3. remember (b1 :: b2 :: b3 :: r) as r0 eqn:E0.
  cbn [utf8_decode_ignore].
  rewrite ltb_false by lia. rewrite in_range_false by lia.
  rewrite in_range_false by lia. rewrite in_range_true by lia.
  subst r0. rewrite H1, H2. now rewrite H3.
Qed.

Lemma cont_of_mod (x : N) : is_cont (0x80 + x mod 0x40) = true.
Proof.
  assert (H : x mod 0x40 < 0x40) by (apply N.mod_lt; discriminate).
  unfold is_cont. apply in_range_true.
  generalize dependent (x mod 0x40). intros; lia.
Qed.

Lemma encoded_char_decodes (c : char) (rest : list byte) :
  is_scalar c = true ->
  utf8_decode_ignore (utf8_encode_char c ++ rest)
  = c :: utf8_decode_ignore rest.
Proof.
  unfold is_scalar, in_range. intros Hc.
  rewrite orb_true_iff, andb_true_iff, N.ltb_lt, !N.leb_le in Hc.
  unfold utf8_encode_char.
  replace (c / 0x40000) with (c / 0x40 / 0x40 / 0x40)
    by (now rewrite !N.Div0.div_div).
  replace (c / 0x1000) with (c / 0x40 / 0x40)
    by (now rewrite !N.Div0.div_div).
  pose proof (N.div_mod' c 0x40) as E1.
  assert (L1 : c mod 0x40 < 0x40) by (apply N.mod_lt; discriminate).
  pose proof (N.div_mod' (c / 0x40) 0x40) as E2.
  assert (L2 : (c / 0x40) mod 0x40 < 0x40)
    by (apply N.mod_lt; discriminate).
  pose proof (N.div_mod' (c / 0x40 / 0x40) 0x40) as E3.
  assert (L3 : (c / 0x40 / 0x40) mod 0x40 < 0x40)
    by (apply N.mod_lt; discriminate).
  set (r3 := (c / 0x40 / 0x40) mod 0x40) in *.
  set (q3 := c / 0x40 / 0x40 / 0x40) in *.
  set (r2 := (c / 0x40) mod 0x40) in *.
  set (q2 := c / 0x40 / 0x40) in *.
  set (r1 := c mod 0x40) in *.
  set (q1 := c / 0x40) in *.
  assert (C1 : is_cont (0x80 + r1) = true) by apply cont_of_mod.
  assert (C2 : is_cont (0x80 + r2) = true) by apply cont_of_mod.
  clearbody r3 q3 r2 q2 r1 q1.
  destruct (N.ltb_spec c 0x80); [|destruct (N.ltb_spec c 0x800);
    [|destruct (N.ltb_spec c 0x10000)]]; cbn [app].
  - now apply decode_1.
  - rewrite decode_2; [f_equal; lia | lia | exact C1].
  - rewrite decode_3; [f_equal; lia | lia | | exact C1].
    unfold second_of_3.
    destruct (N.eqb_spec (0xE0 + q2) 0xE0); [apply in_range_true; lia|].
    destruct (N.eqb_spec (0xE0 + q2) 0xED);
      [apply in_range_true; lia | exact C2].
  - rewrite decode_4; [f_equal; lia | lia | | exact C2 | exact C1].
    unfold second_of_4.
    destruct (N.eqb_spec (0xF0 + q3) 0xF0); [apply in_range_true; lia|].
    destruct (N.eqb_spec (0xF0 + q3) 0xF4); [apply in_range_true; lia|].
    unfold is_cont. apply in_range_true. lia.
Qed.

Lemma encoded_decodes (s : str) :
  forallb is_scalar s = true -> utf8_decode_ignore (utf8_encode s) = s.
Proof.
  induction s as [|c s IH]; [reflexivity|].
  cbn [forallb utf8_encode flat_map]. intros H.
  apply andb_true_iff in H as [Hc Hs].
  rewrite encoded_char_decodes by exact Hc. f_equal. now apply IH.
Qed.

Lemma universal_newlines_id (s : str) :
  no_carriage_return s = true -> universal_newlines s = s.
Proof.
  induction s as [|c s IH]; [reflexivity|].
  cbn [no_carriage_return forallb universal_newlines]. intros H.
  apply andb_true_iff in H as [Hc Hs].
  destruct (c =? 0x0D); [discriminate Hc|]. f_equal. now apply IH.
Qed.

End Utf8.

Lemma text_or_empty_says (uid : Z) (s : str) :
  text_or_empty (says uid s) = s.
Proof. unfold text_or_empty. cbn. now destruct s. Qed.

(** The payload step, given what [read_messages] returns. *)
Lemma payload_step (U : Unicode) (u : Update) (w : World) (raw : str) :
  effective_user_id u = OWNER_TG_ID ->
  step (STATE w) = Some Payload ->
  raw_input u = Some raw ->
  text_router U u w =
  if truthy (split_messages U raw)
  then Returned tt
         (replied SendCountPrompt
            (with_STATE
               (fun s => set_step (Some Count)
                           (set_messages (split_messages U raw) s)) w))
  else Returned tt (replied NoMessagesFound w).
Proof.
  intros Hu Es Hr. apply is_owner_true in Hu. enter_router Hu Es.
  unfold raw_input in Hr. unfold bind at 1.
  destruct (message_document u) as [d|] eqn:Em.
  - rewrite (read_messages_file U u d w Em).
    destruct (doc_io d); try discriminate Hr. injection Hr as <-.
    destruct (truthy _); reflexivity.
  - rewrite (read_messages_text U u w Em). injection Hr as <-.
    destruct (truthy _); reflexivity.
Qed.

(** C8, as stated, fails: a file holding "x", a carriage return and "y" is
    read back with a line feed in place of the carriage return, while the
    typed text keeps it. *)
Lemma upload_with_carriage_return_differs :
  messages (STATE (world_after
     (text_router ascii_tables
        (uploads OWNER_TG_ID (utf8_encode [0x78; 0x0D; 0x79]%N) NoFault)
        world_at_payload))) = [[0x78; 0x0A; 0x79]%N]
  /\ messages (STATE (world_after
        (text_router ascii_tables (says OWNER_TG_ID [0x78; 0x0D; 0x79]%N)
           world_at_payload))) = [[0x78; 0x0D; 0x79]%N]
  /\ ~ same_pool ascii_tables world_at_payload [0x78; 0x0D; 0x79]%N.
Proof.
  assert (E1 : raw_input (uploads OWNER_TG_ID
                  (utf8_encode [0x78; 0x0D; 0x79]%N) NoFault)
               = Some [0x78; 0x0A; 0x79]%N) by reflexivity.
  assert (E2 : raw_input (says OWNER_TG_ID [0x78; 0x0D; 0x79]%N)
               = Some [0x78; 0x0D; 0x79]%N) by reflexivity.
  unfold same_pool.
  rewrite (payload_step ascii_tables
             (uploads OWNER_TG_ID (utf8_encode [0x78; 0x0D; 0x79]%N) NoFault)
             world_at_payload _ eq_refl eq_refl E1).
  rewrite (payload_step ascii_tables (says OWNER_TG_ID [0x78; 0x0D; 0x79]%N)
             world_at_payload _ eq_refl eq_refl E2).
  repeat split. intros E. discriminate E.
Qed.

(** C8, amended. At the payload step an upload whose contents are the
    UTF-8 form of [s] is handled exactly as the typed text obtained from
    [s] by turning every carriage return / line feed pair and every lone
    carriage return into a line feed; so for every [s] without a carriage
    return the upload and the typed text [s] give the same outcome, and in
    particular the same message pool. *)
Theorem upload_matches_typed_text (U : Unicode) (w : World) (s : str) :
  step (STATE w) = Some Payload ->
  forallb is_scalar s = true ->
  text_router U (uploads OWNER_TG_ID (utf8_encode s) NoFault) w
  = text_router U (says OWNER_TG_ID (universal_newlines s)) w
  /\ (no_carriage_return s = true ->
      text_router U (uploads OWNER_TG_ID (utf8_encode s) NoFault) w
      = text_router U (says OWNER_TG_ID s) w
      /\ same_pool U w s).
Proof.
  intros Es Hs.
  assert (E1 : raw_input (uploads OWNER_TG_ID (utf8_encode s) NoFault)
               = Some (universal_newlines s)).
  { unfold raw_input. cbn. unfold read_text. now rewrite encoded_decodes. }
  assert (E2 : forall t, raw_input (says OWNER_TG_ID t) = Some t).
  { intros t. unfold raw_input. cbn. f_equal.
    apply (text_or_empty_says OWNER_TG_ID). }
  assert (E : text_router U (uploads OWNER_TG_ID (utf8_encode s) NoFault) w
              = text_router U (says OWNER_TG_ID (universal_newlines s)) w).
  { rewrite (payload_step U (uploads OWNER_TG_ID (utf8_encode s) NoFault)
               w _ eq_refl Es E1).
    now rewrite (payload_step U (says OWNER_TG_ID (universal_newlines s))
                   w _ eq_refl Es (E2 _)). }
  split; [exact E|].
  intros Hn. rewrite (universal_newlines_id s Hn) in E.
  split; [exact E|]. unfold same_pool. now rewrite E.
Qed.

Lemma upload_matches_typed_text_witness :
  text_router ascii_tables
    (uploads OWNER_TG_ID (utf8_encode (py "x & y")) NoFault) world_at_payload
  = text_router ascii_tables (says OWNER_TG_ID (py "x & y")) world_at_payload
  /\ same_pool ascii_tables world_at_payload (py "x & y")
  /\ messages (STATE (world_after
        (text_router ascii_tables (says OWNER_TG_ID (py "x & y"))
           world_at_payload))) = [py "x"; py "y"].
Proof.
  destruct (upload_matches_typed_text ascii_tables world_at_payload
              (py "x & y") eq_refl eq_refl) as [_ H].
  destruct (H eq_refl) as [H1 H2].
  split; [exact H1|]. split; [exact H2|].
  rewrite (payload_step ascii_tables (says OWNER_TG_ID (py "x & y"))
             world_at_payload (py "x & y") eq_refl eq_refl eq_refl).
  reflexivity.
Defined.

(** ** The staged file *)

(** When the read succeeds the staged file is removed again: the temporary
    directory is as it was. *)
Lemma staged_file_removed_after_read (U : Unicode) (u : Update)
  (d : Document) (w : World) :
  message_document u = Some d -> doc_io d = NoFault ->
  files (world_after (read_messages U u w)) = files w.
Proof.
  intros Em Eo. rewrite (read_messages_file U u d w Em), Eo. reflexivity.
Qed.

(** When [open] or [read] raises, [os.remove] is never reached. *)
Lemma staged_file_left_after_failed_read (U : Unicode) (u : Update)
  (d : Document) (w : World) :
  effective_user_id u = OWNER_TG_ID ->
  step (STATE w) = Some Payload ->
  message_document u = Some d -> doc_io d = ReadFails ->
  text_router U u w
  = Raised OSError (with_files (insert (staged w) (doc_bytes d)) w).
Proof.
  intros Hu Es Em Eo. apply is_owner_true in Hu. enter_router Hu Es.
  unfold bind at 1. rewrite (read_messages_file U u d w Em), Eo.
  reflexivity.
Qed.

(** C9, evaluated where it fails.  The owner uploads a file at the payload
    step and reading the staged copy raises: the handler ends with the
    exception, and the temporary file, which did not exist before, is
    still there with the uploaded bytes. *)
Theorem failed_read_leaves_the_staged_file :
  let u := uploads OWNER_TG_ID (utf8_encode (py "x & y")) ReadFails in
  let tmp := staged world_at_payload in
  files world_at_payload !! tmp = None
  /\ exists w',
       text_router ascii_tables u world_at_payload = Raised OSError w'
       /\ files w' !! tmp = Some (utf8_encode (py "x & y"))
       /\ STATE w' = STATE world_at_payload.
Proof.
  intros u tmp. split; [apply staged_is_free|].
  eexists. split.
  - apply (staged_file_left_after_failed_read ascii_tables u
             {| doc_bytes := utf8_encode (py "x & y"); doc_io := ReadFails |});
      reflexivity.
  - split; [|reflexivity]. cbn [files with_files].
    apply lookup_insert_eq.
Qed.

(** ** Splitting the payload *)

Local Open Scope N_scope.

Section SplitFacts.

Variable U : Unicode.

Lemma normalize_map (raw : str) :
  normalize raw
  = List.map (fun c => if is_ampersand_variant c then 0x26 else c) raw.
Proof.
  unfold normalize, replace. rewrite !List.map_map.
  apply List.map_ext. intros c. unfold is_ampersand_variant.
  destruct (N.eqb_spec c 0xFE60) as [->|]; [reflexivity|].
  destruct (N.eqb_spec c 0xFF06) as [->|]; [reflexivity|].
  destruct (N.eqb_spec c 0x214B) as [->|]; reflexivity.
Qed.

Lemma normalize_no_variant (raw : str) :
  Forall (fun c => is_ampersand_variant c = false) (normalize raw).
Proof.
  rewrite normalize_map.
  induction raw as [|x raw IH]; constructor; [|exact IH].
  destruct (is_ampersand_variant x) eqn:E; [reflexivity|exact E].
Qed.

(** *** Whitespace runs *)

Lemma ws_span_take (s : str) : forallb isspace (take (ws_span s) s) = true.
Proof.
  induction s as [|c s IH]; [reflexivity|]. cbn [ws_span].
  destruct (isspace c) eqn:E; [|reflexivity].
  cbn [take forallb]. now rewrite E.
Qed.

Lemma ws_span_drop (s : str) : drop (ws_span s) s = lstrip s.
Proof.
  induction s as [|c s IH]; [reflexivity|]. cbn [ws_span lstrip].
  destruct (isspace c); [exact IH|reflexivity].
Qed.

Lemma lstrip_app_ws (a b : str) :
  forallb isspace a = true -> lstrip (a ++ b) = lstrip b.
Proof.
  induction a as [|c a IH]; [reflexivity|]. cbn [forallb app lstrip].
  intros H. apply andb_true_iff in H as [-> Ha]. now apply IH.
Qed.

Lemma lstrip_head (s : str) (c : char) (t : str) :
  lstrip s = c :: t -> isspace c = false.
Proof.
  induction s as [|x s IH]; [discriminate|]. cbn [lstrip].
  destruct (isspace x) eqn:E; [exact IH|].
  intros H. injection H as <- _. exact E.
Qed.

Lemma lstrip_suffix (s : str) :
  exists a, s = a ++ lstrip s /\ forallb isspace a = true.
Proof.
  exists (take (ws_span s) s). split; [|apply ws_span_take].
  rewrite <- ws_span_drop. symmetry. apply take_drop.
Qed.

(** *** The pattern *)

Lemma match_core_sound (prev : option char) (r : str) (m : nat) :
  match_core U prev r = Some m ->
  exists core r', r = core ++ r' /\ length core = m /\ is_core core = true.
Proof.
  unfold match_core. destruct r as [|c r]; [discriminate|].
  destruct (N.eqb_spec c 0x26) as [->|Hc].
  - intros H. injection H as <-. now exists [0x26], r.
  - destruct r as [|n [|d s3]]; try discriminate.
    destruct (_ && _) eqn:E; [|discriminate].
    intros H. injection H as <-. exists [c; n; d], s3.
    repeat split. cbn [is_core].
    apply andb_true_iff in E as [E _]. apply andb_true_iff in E as [E _].
    exact E.
Qed.

Lemma is_core_head (core : str) :
  is_core core = true ->
  exists c t, core = c :: t /\ isspace c = false.
Proof.
  destruct core as [|c [|n [|d [|]]]]; try discriminate; cbn [is_core].
  - intros H. apply N.eqb_eq in H as ->. now exists 0x26, [].
  - intros H. exists c, [n; d]. split; [reflexivity|].
    apply andb_true_iff in H as [H _]. apply andb_true_iff in H as [H _].
    unfold ci_eq, ascii_lower in H.
    destruct (in_range 0x41 0x5A c) eqn:Er; apply N.eqb_eq in H.
    + assert (c = 0x41) as -> by lia. reflexivity.
    + subst c. reflexivity.
Qed.

Lemma delimiter_of_parts (a core b : str) :
  forallb isspace a = true -> is_core core = true ->
  forallb isspace b = true ->
  is_delimiter (a ++ core ++ b) = true.
Proof.
  intros Ha Hc Hb. unfold is_delimiter. rewrite lstrip_app_ws by exact Ha.
  destruct (is_core_head core Hc) as (c & t & -> & Hs).
  cbn [app lstrip]. rewrite Hs.
  destruct t as [|n [|d [|]]]; try discriminate Hc; cbn [is_core] in Hc.
  - rewrite Hc. exact Hb.
  - destruct (N.eqb_spec c 0x26) as [->|]; [discriminate Hc|].
    cbn [app]. now rewrite Hc.
Qed.

Lemma match_delim_sound (prev : option char) (s : str) (n : nat) :
  match_delim U prev s = Some n ->
  exists d rest, s = d ++ rest /\ length d = n /\ is_delimiter d = true
                 /\ d <> [].
Proof.
  unfold match_delim.
  destruct (match_core U _ _) as [m|] eqn:Ec; [|discriminate].
  intros H. injection H as <-.
  destruct (match_core_sound _ _ _ Ec) as (core & r' & Er & Hm & Hcore).
  pose proof (take_drop (ws_span s) s) as Es.
  pose proof (ws_span_take s) as Ha.
  rewrite Er in Es.
  assert (Ed : drop (ws_span s + m) s = r').
  { rewrite <- drop_drop, Er, <- Hm. apply drop_app_length. }
  rewrite Ed.
  pose proof (take_drop (ws_span r') r') as Eb.
  exists (take (ws_span s) s ++ core ++ take (ws_span r') r'),
    (drop (ws_span r') r').
  split; [|split; [|split]].
  - rewrite <- !app_assoc. rewrite Eb. now symmetry.
  - rewrite !length_app, Hm.
    rewrite length_take_le; [|].
    + rewrite (length_take_le r');[lia|].
      clear. induction r' as [|c r IH]; cbn; [lia|].
      destruct (isspace c); cbn; lia.
    + clear. induction s as [|c r IH]; cbn; [lia|].
      destruct (isspace c); cbn; lia.
  - apply delimiter_of_parts; trivial. apply ws_span_take.
  - destruct (is_core_head core Hcore) as (c & t & -> & _).
    now destruct (take (ws_span s) s).
Qed.

(** *** The scan *)

(** Characters inside a match are skipped. *)
Lemma split_go_skip (d rest : str) (prev : option char) (cur : str) :
  split_go U prev (d ++ rest) (length d) cur
  = split_go U (passed prev d) rest 0 cur.
Proof.
  revert prev. induction d as [|c d IH]; intros prev; [reflexivity|].
  cbn [app length split_go]. rewrite IH. f_equal.
  unfold passed. destruct d as [|x d]; [reflexivity|].
  rewrite last_cons_cons.
  destruct (last (x :: d)) eqn:E; [reflexivity|].
  apply last_None in E. discriminate E.
Qed.

(** Putting the delimiters back between the pieces gives the input. *)
Lemma split_go_interleave (n : nat) :
  forall (s : str) (prev : option char) (cur : str),
    (length s <= n)%nat ->
    exists ds,
      length (split_go U prev s 0 cur) = S (length ds)
      /\ interleave (split_go U prev s 0 cur) ds = rev cur ++ s
      /\ Forall (fun d => is_delimiter d = true) ds.
Proof.
  induction n as [|n IH]; intros s prev cur Hn.
  - destruct s; [|cbn in Hn; lia]. exists []. cbn. now rewrite app_nil_r.
  - destruct s as [|c s']; [exists []; cbn; now rewrite app_nil_r|].
    cbn [split_go].
    destruct (match_delim U prev (c :: s')) as [[|k]|] eqn:Em.
    + destruct (IH s' (Some c) (c :: cur)) as (ds & H1 & H2 & H3);
        [cbn in Hn; lia|].
      exists ds. repeat split; trivial.
      rewrite H2. cbn [rev]. now rewrite <- app_assoc.
    + destruct (match_delim_sound _ _ _ Em) as (d & rest & Es & Hl & Hd & Hne).
      destruct d as [|x d']; [congruence|].
      cbn [app length] in Es, Hl. injection Es as <- ->. injection Hl as <-.
      rewrite split_go_skip.
      destruct (IH rest (passed (Some c) d') []) as (ds & H1 & H2 & H3).
      { cbn in Hn. rewrite length_app in Hn. lia. }
      exists ((c :: d') :: ds). split; [cbn; now rewrite H1|]. split.
      * cbn [interleave]. rewrite H2. reflexivity.
      * now constructor.
    + destruct (IH s' (Some c) (c :: cur)) as (ds & H1 & H2 & H3);
        [cbn in Hn; lia|].
      exists ds. repeat split; trivial.
      rewrite H2. cbn [rev]. now rewrite <- app_assoc.
Qed.

(** An ampersand always starts a match. *)
Lemma match_delim_ampersand (prev : option char) (s : str) :
  exists k, match_delim U prev (0x26 :: s) = Some (S k).
Proof. unfold match_delim. cbn. eauto. Qed.

(** No piece holds an ampersand. *)
Lemma split_go_no_ampersand (s : str) :
  forall (prev : option char) (skip : nat) (cur : str),
    Forall (fun c => c <> 0x26) cur ->
    Forall (Forall (fun c => c <> 0x26)) (split_go U prev s skip cur).
Proof.
  induction s as [|c s IH]; intros prev skip cur Hcur; cbn [split_go].
  - constructor; [|constructor]. now apply Forall_rev.
  - destruct skip as [|k]; [|now apply IH].
    destruct (match_delim U prev (c :: s)) as [[|k]|] eqn:Em.
    + apply IH. constructor; [|exact Hcur]. intros ->.
      destruct (match_delim_ampersand prev s) as [k Hk].
      discriminate (eq_trans (eq_sym Em) Hk).
    + constructor; [now apply Forall_rev|]. apply IH. constructor.
    + apply IH. constructor; [|exact Hcur]. intros ->.
      destruct (match_delim_ampersand prev s) as [k Hk].
      discriminate (eq_trans (eq_sym Em) Hk).
Qed.

(** Every character of a piece comes from the input. *)
Lemma split_go_chars (P : char -> Prop) (s : str) :
  forall (prev : option char) (skip : nat) (cur : str),
    Forall P s -> Forall P cur ->
    Forall (Forall P) (split_go U prev s skip cur).
Proof.
  induction s as [|c s IH]; intros prev skip cur Hs Hcur; cbn [split_go].
  - constructor; [|constructor]. now apply Forall_rev.
  - inversion Hs as [|? ? Hc Hs']; subst.
    destruct skip as [|k]; [|now apply IH].
    destruct (match_delim U prev (c :: s)) as [[|k]|] eqn:Em.
    + apply IH; [exact Hs'|now constructor].
    + constructor; [now apply Forall_rev|]. apply IH; [exact Hs'|constructor].
    + apply IH; [exact Hs'|now constructor].
Qed.

(** *** Trimming *)

Lemma lstrip_Forall (P : char -> Prop) (s : str) :
  Forall P s -> Forall P (lstrip s).
Proof.
  induction 1 as [|c s Hc Hs IH]; [constructor|]. cbn [lstrip].
  destruct (isspace c); [exact IH|now constructor].
Qed.

Lemma strip_Forall (P : char -> Prop) (s : str) :
  Forall P s -> Forall P (strip s).
Proof.
  intros H. unfold strip, rstrip.
  apply Forall_rev, lstrip_Forall, Forall_rev, lstrip_Forall, H.
Qed.

Lemma head_rev (s : str) : head (rev s) = last s.
Proof.
  induction s as [|c s IH] using rev_ind; [reflexivity|].
  rewrite rev_app_distr, last_snoc. reflexivity.
Qed.

Lemma last_rev (s : str) : last (rev s) = head s.
Proof. rewrite <- (rev_involutive s) at 2. now rewrite head_rev. Qed.

(** What [strip] returns is empty or trimmed. *)
Lemma strip_trimmed (s : str) :
  truthy (strip s) = true -> trimmed (strip s) = true.
Proof.
  unfold strip, rstrip, trimmed. rewrite head_rev, last_rev.
  set (a := lstrip s).
  destruct (lstrip (rev a)) as [|d t] eqn:Eb; [discriminate|]. intros _.
  pose proof (lstrip_head _ _ _ Eb) as Hd.
  destruct (lstrip_suffix (rev a)) as (pre & Ea & _). rewrite Eb in Ea.
  assert (El : last (d :: t) = last (rev a))
    by (rewrite Ea; now rewrite last_app_cons).
  rewrite El, last_rev. cbn [head].
  destruct a as [|c a'] eqn:Ea'; [now destruct pre|].
  cbn [head]. subst a. rewrite (lstrip_head _ _ _ Ea'), Hd. reflexivity.
Qed.

(** [stripped_parts] trims every part and drops the empty results. *)
Lemma stripped_parts_filter (parts : list str) :
  stripped_parts parts = List.filter truthy (List.map strip parts).
Proof.
  unfold stripped_parts. induction parts as [|p parts IH]; [reflexivity|].
  cbn [List.filter List.map]. destruct (truthy (strip p)); cbn [List.map];
    now rewrite IH.
Qed.

Lemma stripped_parts_Forall (Q P : str -> Prop) (parts : list str) :
  (forall p, Q p -> truthy (strip p) = true -> P (strip p)) ->
  Forall Q parts -> Forall P (stripped_parts parts).
Proof.
  intros HP. unfold stripped_parts.
  induction 1 as [|p parts Hq _ IH]; [constructor|].
  cbn [List.filter]. destruct (truthy (strip p)) eqn:E; [|exact IH].
  cbn [List.map]. constructor; [now apply HP|exact IH].
Qed.

(** The pieces of the normalised input hold neither [&] nor one of its
    variants. *)
Lemma re_split_normalize_chars (raw : str) :
  Forall (Forall (fun c => c <> 0x26 /\ is_ampersand_variant c = false))
    (re_split U (normalize raw)).
Proof.
  pose proof (split_go_no_ampersand (normalize raw) None 0 []
                (List.Forall_nil _)) as H1.
  pose proof (split_go_chars (fun c => is_ampersand_variant c = false)
                (normalize raw) None 0 [] (normalize_no_variant raw)
                (List.Forall_nil _)) as H2.
  unfold re_split. revert H1 H2.
  generalize (split_go U None (normalize raw) 0 []). intros l H1.
  induction H1 as [|p l Hp _ IH]; intros H2; [constructor|].
  inversion H2 as [|? ? Hp2 Hl2]; subst.
  constructor; [|now apply IH].
  clear -Hp Hp2. induction Hp as [|c p Hc _ IHp]; [constructor|].
  inversion Hp2; subst. constructor; [now split|now apply IHp].
Qed.

End SplitFacts.

Section CutFacts.

Variable U : Unicode.

(** *** The pattern, in the words of its description *)

Lemma boundary_edge (o : option char) :
  boundary U o = true <-> word_edge U o.
Proof.
  unfold boundary, word_edge, word_char, is_word. destruct o as [c|].
  - rewrite negb_true_iff. split; [now intros H x [= <-]|auto].
  - split; [discriminate|reflexivity].
Qed.

Lemma ci_eq_cases (c l : char) :
  0x61 <= l <= 0x7A -> ci_eq c l = (c =? l) || (c =? l - 0x20).
Proof.
  intros Hl. unfold ci_eq, ascii_lower, in_range.
  destruct (N.leb_spec 0x41 c), (N.leb_spec c 0x5A); cbn [andb];
    repeat match goal with
           | |- context [N.eqb ?a ?b] => destruct (N.eqb_spec a b)
           end;
    cbn [orb]; first [reflexivity | lia].
Qed.

Lemma spells_and_ci (a n d : char) :
  spells_and a n d = ci_eq a 0x61 && ci_eq n 0x6E && ci_eq d 0x64.
Proof.
  unfold spells_and.
  rewrite (ci_eq_cases a 0x61), (ci_eq_cases n 0x6E), (ci_eq_cases d 0x64)
    by lia.
  reflexivity.
Qed.

Lemma isspace_range (c : char) :
  isspace c = true -> c <= 0x20 \/ 0x85 <= c.
Proof.
  unfold isspace, in_range. intros H.
  repeat rewrite ?orb_true_iff, ?andb_true_iff, ?N.leb_le, ?N.eqb_eq in H.
  lia.
Qed.

Lemma ci_eq_neutral (c letter : char) :
  isspace c = true \/ c = 0x26 ->
  0x61 <= letter <= 0x7A ->
  ci_eq c letter = false.
Proof.
  intros Hc Hl.
  assert (Hr : c <= 0x26 \/ 0x85 <= c)
    by (destruct Hc as [Hc| ->]; [apply isspace_range in Hc|]; lia).
  unfold ci_eq, ascii_lower, in_range.
  destruct (N.leb_spec 0x41 c), (N.leb_spec c 0x5A); cbn [andb];
    apply N.eqb_neq; lia.
Qed.

Lemma ws_span_blank (a b : str) :
  forallb isspace a = true -> ws_span (a ++ b) = (length a + ws_span b)%nat.
Proof.
  induction a as [|c a IH]; [reflexivity|]. cbn [forallb app ws_span length].
  intros H. apply andb_true_iff in H as [-> H]. now rewrite IH.
Qed.

Lemma ws_span_exact (ws t : str) :
  forallb isspace ws = true ->
  (forall x, head t = Some x -> isspace x = false) ->
  ws_span (ws ++ t) = length ws.
Proof.
  intros Hws Ht. rewrite (ws_span_blank _ _ Hws).
  destruct t as [|x t]; cbn [ws_span]; [lia|].
  rewrite (Ht x eq_refl). lia.
Qed.

Lemma ws_span_le (s : str) : (ws_span s <= length s)%nat.
Proof.
  induction s as [|c s IH]; cbn [ws_span length]; [lia|].
  destruct (isspace c); lia.
Qed.

(** The character the pattern looks back at is the one before the core. *)
Lemma before_core (prev : option char) (s : str) :
  match ws_span s with O => prev | S j => s !! j end
  = passed prev (take (ws_span s) s).
Proof.
  pose proof (ws_span_le s) as Hle. unfold passed.
  destruct (ws_span s) as [|j]; [reflexivity|].
  rewrite last_lookup, length_take_le by exact Hle. cbn [pred].
  rewrite lookup_take_lt by lia.
  destruct (lookup_lt_is_Some_2 s j) as [c Hc]; [lia|].
  now rewrite Hc.
Qed.

Lemma match_core_spec (prev : option char) (r : str) (m : nat) :
  match_core U prev r = Some m
  <-> (exists r', r = 0x26 :: r' /\ m = 1%nat)
      \/ (exists a n d r',
            r = a :: n :: d :: r' /\ m = 3%nat
            /\ spells_and a n d = true
            /\ word_edge U prev /\ word_edge U (head r')).
Proof.
  unfold match_core. split.
  - destruct r as [|c r]; [discriminate|].
    destruct (N.eqb_spec c 0x26) as [->|Hc].
    + intros [= <-]. left. eauto.
    + destruct r as [|n [|d s3]]; try discriminate.
      destruct (_ && _) eqn:E; [|discriminate]. intros [= <-].
      apply andb_true_iff in E as [E H2]. apply andb_true_iff in E as [E H1].
      right. exists c, n, d, s3. rewrite spells_and_ci.
      repeat split; trivial; now apply boundary_edge.
  - intros [(r' & -> & ->)|(a & n & d & r' & -> & -> & Hs & H1 & H2)];
      [reflexivity|].
    rewrite spells_and_ci in Hs.
    assert (Ha : (a =? 0x26) = false).
    { apply N.eqb_neq. intros ->. discriminate Hs. }
    rewrite Ha, Hs. apply boundary_edge in H1, H2. now rewrite H1, H2.
Qed.

(** [match_delim] finds exactly the delimiters of the description. *)
Lemma match_delim_spec (prev : option char) (s : str) (n : nat) :
  match_delim U prev s = Some n <-> delimiter_at U prev s n.
Proof.
  unfold match_delim, delimiter_at. rewrite before_core. split.
  - destruct (match_core U _ _) as [m|] eqn:Ec; [|discriminate].
    intros [= <-].
    pose proof (take_drop (ws_span s) s) as Es.
    assert (Hk : length (take (ws_span s) s) = ws_span s)
      by (apply length_take_le, ws_span_le).
    apply match_core_spec in Ec.
    assert (Hshape :
      exists core r', drop (ws_span s) s = core ++ r' /\ length core = m
        /\ (core = [0x26]
            \/ exists a b c,
                 core = [a; b; c] /\ spells_and a b c = true
                 /\ word_edge U (passed prev (take (ws_span s) s))
                 /\ word_edge U (head r'))).
    { destruct Ec as [(r' & E & ->)|(a & b & c & r' & E & -> & Hs & H1 & H2)].
      - exists [0x26], r'. repeat split; [exact E|now left].
      - exists [a; b; c], r'. repeat split; [exact E|].
        right. exists a, b, c. repeat split; trivial. }
    destruct Hshape as (core & r' & Er & Hm & Hcore).
    assert (Ed : drop (ws_span s + m) s = r').
    { rewrite <- drop_drop, Er, <- Hm. apply drop_app_length. }
    rewrite Ed.
    pose proof (take_drop (ws_span r') r') as Eb.
    assert (Hk' : length (take (ws_span r') r') = ws_span r')
      by (apply length_take_le, ws_span_le).
    exists (take (ws_span s) s), core, (take (ws_span r') r'),
      (drop (ws_span r') r').
    split; [rewrite Eb, <- Er; now symmetry|].
    split; [rewrite !length_app; lia|].
    split; [apply ws_span_take|]. split; [apply ws_span_take|].
    split.
    + rewrite ws_span_drop. intros x Hx.
      destruct (lstrip r') as [|y t] eqn:El; [discriminate Hx|].
      injection Hx as ->. exact (lstrip_head _ _ _ El).
    + now rewrite Eb.
  - intros (ws & core & ws' & rest & -> & -> & Hws & Hws' & Hg & Hcore).
    assert (Hhead : forall x, head (core ++ ws' ++ rest) = Some x ->
                              isspace x = false).
    { destruct Hcore as [->|(a & b & c & -> & Hs & _)]; intros x [= <-];
        [reflexivity|].
      destruct (isspace a) eqn:Ea; [|reflexivity].
      rewrite spells_and_ci, (ci_eq_neutral a 0x61) in Hs; [discriminate Hs| |lia].
      now left. }
    rewrite (ws_span_exact ws _ Hws Hhead).
    rewrite take_app_length, drop_app_length.
    assert (Hm : exists m,
               match_core U (passed prev ws) (core ++ ws' ++ rest) = Some m
               /\ m = length core).
    { destruct Hcore as [->|(a & b & c & -> & Hs & H1 & H2)].
      - exists 1%nat. split; [|reflexivity]. apply match_core_spec.
        left. eauto.
      - exists 3%nat. split; [|reflexivity]. apply match_core_spec.
        right. exists a, b, c, (ws' ++ rest). repeat split; trivial. }
    destruct Hm as (m & -> & ->). f_equal.
    rewrite <- drop_drop, drop_app_length, drop_app_length.
    rewrite (ws_span_exact ws' rest Hws' Hg), !length_app. lia.
Qed.

Lemma match_delim_positive (prev : option char) (s : str) :
  match_delim U prev s <> Some O.
Proof.
  intros H. destruct (match_delim_sound U _ _ _ H) as (d & _ & _ & Hl & _ & Hd).
  now destruct d.
Qed.

Lemma passed_snoc (prev : option char) (x : str) (c : char) :
  passed prev (x ++ [c]) = Some c.
Proof. unfold passed. now rewrite last_snoc. Qed.

Lemma passed_cons (prev : option char) (c : char) (d : str) :
  passed prev (c :: d) = passed (Some c) d.
Proof.
  unfold passed. destruct d as [|x d]; [reflexivity|].
  rewrite last_cons_cons.
  destruct (last (x :: d)) eqn:E; [reflexivity|].
  apply last_None in E. discriminate E.
Qed.

(** *** The scan cuts at the delimiters *)

Lemma split_go_cut (n : nat) :
  forall (s : str) (prev0 : option char) (cur : str),
    (length s <= n)%nat ->
    (forall x y, rev cur = x ++ y -> y <> [] ->
                 match_delim U (passed prev0 x) (y ++ s) = None) ->
    cut_at_delimiters U prev0 (rev cur ++ s)
      (split_go U (passed prev0 (rev cur)) s 0 cur).
Proof.
  induction n as [|n IH]; intros s prev0 cur Hn Hfree.
  - destruct s; [|cbn in Hn; lia]. cbn [split_go]. rewrite app_nil_r.
    apply cut_last. intros x y m E Hy Hd. apply match_delim_spec in Hd.
    rewrite (Hfree x y E Hy) in Hd. discriminate Hd.
  - destruct s as [|c s'].
    { cbn [split_go]. rewrite app_nil_r.
      apply cut_last. intros x y m E Hy Hd. apply match_delim_spec in Hd.
      rewrite (Hfree x y E Hy) in Hd. discriminate Hd. }
    assert (Hstay :
      match_delim U (passed prev0 (rev cur)) (c :: s') = None ->
      cut_at_delimiters U prev0 (rev cur ++ c :: s')
        (split_go U (Some c) s' 0 (c :: cur))).
    { intros Em.
      replace (rev cur ++ c :: s') with (rev (c :: cur) ++ s')
        by (cbn [rev]; now rewrite <- app_assoc).
      rewrite <- (passed_snoc prev0 (rev cur) c).
      change (rev cur ++ [c]) with (rev (c :: cur)).
      apply IH; [cbn in Hn; lia|].
      intros x y E Hy. cbn [rev] in E.
      destruct (exists_last Hy) as (y' & z & ->).
      rewrite app_assoc in E. apply app_inj_tail in E as [E <-].
      rewrite <- app_assoc. cbn [app].
      destruct y' as [|y0 y'].
      - rewrite app_nil_r in E. subst x. exact Em.
      - apply (Hfree x (y0 :: y') E). discriminate. }
    cbn [split_go].
    destruct (match_delim U (passed prev0 (rev cur)) (c :: s'))
      as [[|k]|] eqn:Em.
    + now destruct (match_delim_positive _ _ Em).
    + destruct (match_delim_sound U _ _ _ Em)
        as (d & rest & Es & Hl & _ & _).
      destruct d as [|x d']; [discriminate Hl|].
      cbn [app length] in Es, Hl. injection Es as <- ->. injection Hl as <-.
      rewrite split_go_skip.
      change (rev cur ++ c :: d' ++ rest)
        with (rev cur ++ (c :: d') ++ rest).
      apply cut_next.
      * intros x y m E Hy Hd. apply match_delim_spec in Hd.
        cbn [app] in Hd. rewrite (Hfree x y E Hy) in Hd. discriminate Hd.
      * apply match_delim_spec. exact Em.
      * rewrite passed_cons.
        apply (IH rest (passed (Some c) d') []).
        -- cbn in Hn. rewrite length_app in Hn. lia.
        -- intros x y E. destruct x, y; discriminate E || congruence.
    + now apply Hstay.
Qed.

Lemma re_split_cut (s : str) : cut_at_delimiters U None s (re_split U s).
Proof.
  apply (split_go_cut (length s) s None []); [lia|].
  intros x y E. destruct x, y; discriminate E || congruence.
Qed.

End CutFacts.

Local Close Scope N_scope.

(** C2. [split_messages] does what its description says, for every input.
    The three ampersand variants are first turned into [&].  The normalised
    input is then cut at its delimiters, from the left: a delimiter is
    whitespace, then [&] or the whole word "and" in either case, then all
    the whitespace that follows, "and" being a whole word when the
    character before it and the character after it are missing or are not
    word characters (letters, digits, the underscore); every delimiter is
    cut out, and no delimiter begins inside a piece.  Put back between the
    pieces, the delimiters give the normalised input, and no piece holds an
    ampersand.  The pieces are then trimmed and the empty ones dropped, so
    that every message has a first and a last character, neither of them
    whitespace, and holds no ampersand of any kind.  "a & b and c" gives
    "a", "b", "c"; "and" between commas splits, "and" inside a word or
    between underscores does not; the empty string and the string of three
    blanks give no message, and at the payload step the router answers them
    with "No messages found" and changes nothing else. *)
Theorem split_messages_as_described (U : Unicode) (raw : str) :
  normalize raw
  = List.map (fun c => if is_ampersand_variant c then 0x26%N else c) raw
  /\ cut_at_delimiters U None (normalize raw) (re_split U (normalize raw))
  /\ (exists ds,
        length (re_split U (normalize raw)) = S (length ds)
        /\ interleave (re_split U (normalize raw)) ds = normalize raw
        /\ Forall (fun d => is_delimiter d = true) ds)
  /\ Forall (Forall (fun c => c <> 0x26%N)) (re_split U (normalize raw))
  /\ split_messages U raw
     = List.filter truthy (List.map strip (re_split U (normalize raw)))
  /\ Forall (fun p => trimmed p = true
                      /\ Forall (fun c => c <> 0x26%N
                                          /\ is_ampersand_variant c = false) p)
       (split_messages U raw)
  /\ split_messages U (py "a & b and c") = [py "a"; py "b"; py "c"]
  /\ split_messages U (py "a AND b" ++ [0xFF06%N] ++ py "c")
     = [py "a"; py "b"; py "c"]
  /\ split_messages U (py "x,and,y") = [py "x,"; py ",y"]
  /\ split_messages U (py "sandy band") = [py "sandy band"]
  /\ split_messages U (py "x_and_y") = [py "x_and_y"]
  /\ split_messages U (py "") = []
  /\ split_messages U (py "   ") = []
  /\ (forall (w : World) (t : str),
        step (STATE w) = Some Payload ->
        t = py "" \/ t = py "   " ->
        text_router U (says OWNER_TG_ID t) w
        = Returned tt (replied NoMessagesFound w)).
Proof.
  split; [apply normalize_map|].
  split; [apply re_split_cut|].
  split; [apply (split_go_interleave U (length (normalize raw))); lia|].
  split; [apply split_go_no_ampersand; constructor|].
  split; [apply stripped_parts_filter|].
  split.
  { unfold split_messages.
    apply (stripped_parts_Forall
             (Forall (fun c => c <> 0x26%N
                               /\ is_ampersand_variant c = false)));
      [|apply re_split_normalize_chars].
    intros p Hq Hp. split; [now apply strip_trimmed|now apply strip_Forall]. }
  do 7 (split; [reflexivity|]).
  intros w t Es Ht.
  rewrite (payload_step U (says OWNER_TG_ID t) w t eq_refl Es)
    by (unfold raw_input; cbn [says message_document]; f_equal;
        apply (text_or_empty_says OWNER_TG_ID)).
  now destruct Ht as [-> | ->].
Qed.

Lemma split_messages_as_described_witness :
  split_messages ascii_tables (py "a & b and c") = [py "a"; py "b"; py "c"]
  /\ cut_at_delimiters ascii_tables None (normalize (py "x,and,y"))
       (re_split ascii_tables (normalize (py "x,and,y")))
  /\ text_router ascii_tables (says OWNER_TG_ID (py "")) world_at_payload
     = Returned tt (replied NoMessagesFound world_at_payload)
  /\ text_router ascii_tables (says OWNER_TG_ID (py "   ")) world_at_payload
     = Returned tt (replied NoMessagesFound world_at_payload).
Proof.
  destruct (split_messages_as_described ascii_tables (py "a & b and c"))
    as (_ & _ & _ & _ & _ & _ & H1 & _ & _ & _ & _ & _ & _ & H2).
  destruct (split_messages_as_described ascii_tables (py "x,and,y"))
    as (_ & H3 & _).
  split; [exact H1|]. split; [exact H3|]. split.
  - apply (H2 world_at_payload (py "") eq_refl). left. reflexivity.
  - apply (H2 world_at_payload (py "   ") eq_refl). right. reflexivity.
Defined.

(** ** The writes of the handlers, branch by branch *)

Lemma strip_or_default (text : str) :
  (if truthy text then text else py "demo-session") <> [].
Proof. destruct text; discriminate. Qed.

Lemma split_messages_clean (U : Unicode) (raw : str) :
  Forall clean_message (split_messages U raw).
Proof.
  unfold split_messages.
  apply (stripped_parts_Forall
           (Forall (fun c => c <> 0x26%N /\ is_ampersand_variant c = false)));
    [|apply re_split_normalize_chars].
  intros p Hq Hp. split; [now apply strip_trimmed|now apply strip_Forall].
Qed.

Lemma read_messages_returns (U : Unicode) (u : Update) (w w1 : World)
  (msgs : list str) :
  read_messages U u w = Returned msgs w1 ->
  exists raw, raw_input u = Some raw /\ msgs = split_messages U raw.
Proof.
  unfold raw_input. destruct (message_document u) as [d|] eqn:Em.
  - rewrite (read_messages_file U u d w Em).
    destruct (doc_io d); intros E; try discriminate E.
    injection E as <- _. eauto.
  - rewrite (read_messages_text U u w Em). intros E.
    injection E as <- _. eauto.
Qed.

Lemma handle_wizard_step (U : Unicode) (e : Event) (w : World) :
  wizard_step (STATE w) (tasks w)
    (STATE (world_after (handle U e w))) (tasks (world_after (handle U e w))).
Proof.
  remember (world_after (handle U e w)) as w' eqn:Hw'.
  assert (Hsame : forall c f, w' = mkWorld (STATE w) (tasks w) f c (clock w) ->
            wizard_step (STATE w) (tasks w) (STATE w') (tasks w'))
    by (intros c f ->; constructor).
  assert (Hw : w' = w -> wizard_step (STATE w) (tasks w) (STATE w') (tasks w'))
    by (intros ->; constructor).
  destruct e as [[] u | u]; cbn [handle] in Hw'.
  - unfold start_cmd in Hw'. destruct (is_owner _); cbn in Hw'; auto.
    subst w'. constructor.
  - unfold attack_cmd in Hw'. destruct (is_owner _); cbn in Hw'; auto.
    unfold bind, get in Hw'. destruct (logged_in (STATE w)) eqn:El;
      cbn in Hw'; subst w'; cbn; [now constructor|constructor].
  - unfold stop_cmd in Hw'. destruct (is_owner _); cbn in Hw'; auto.
    unfold bind, get, put, cancel in Hw'. cbn in Hw'.
    pose proof (ws_stop (STATE w) (tasks w)) as Hs.
    unfold cancel_referenced in Hs.
    destruct (task (STATE w)); cbn in Hw'; subst w'; exact Hs.
  - unfold status_cmd in Hw'. destruct (is_owner _); cbn in Hw'; auto.
    unfold bind, get, uptime, bind, get in Hw'. cbn in Hw'.
    destruct (started_at (STATE w)) as [t|]; [destruct (t =? 0)|];
      cbn in Hw'; subst w'; constructor.
  - unfold help_cmd in Hw'. destruct (is_owner _); cbn in Hw'; auto.
    subst w'. constructor.
  - unfold text_router in Hw'.
    destruct (is_owner _); cbn [negb] in Hw'; auto.
    rewrite bind_get in Hw'.
    destruct (step (STATE w)) as [[]|] eqn:Es; cbn [step_eqb andb] in Hw'.
    + cbn in Hw'. subst w'. cbn [STATE tasks].
      apply (ws_login (STATE w) (tasks w) _ Es), strip_or_default.
    + destruct (str_eqb _ _); cbn in Hw'; auto.
      subst w'. exact (ws_mode (STATE w) (tasks w) Es).
    + destruct (isdigit U _); auto.
      unfold int_or_raise in Hw'.
      destruct (int U _) as [n|]; auto.
      rewrite bind_ret, bind_get in Hw'.
      destruct (Z.ltb_spec (n - 1) 0),
        (Z.geb_spec (n - 1) (Z.of_nat (length (mock_groups (STATE w)))));
        cbn [orb] in Hw'; cbn in Hw'; try (subst w'; constructor).
      destruct (lookup_lt_is_Some_2 (mock_groups (STATE w))
                  (Z.to_nat (n - 1))) as [name Hn]; [lia|].
      rewrite Hn in Hw'. subst w'.
      exact (ws_pick (STATE w) (tasks w) _ name Es Hn).
    + pose proof (read_messages_frame U u w) as (Hs & Ht & _).
      unfold bind at 1 in Hw'.
      destruct (read_messages U u w) as [msgs w1|ex w1] eqn:Er;
        cbn in Hs, Ht, Hw'.
      * destruct (read_messages_returns U u w w1 msgs Er) as (raw & _ & Hraw).
        assert (Hclean : Forall clean_message msgs)
          by (rewrite Hraw; apply split_messages_clean).
        destruct msgs as [|m msgs]; cbn in Hw'; subst w'; cbn;
          rewrite Hs, Ht; [constructor|].
        now apply ws_payload.
      * subst w'. rewrite Hs, Ht. constructor.
    + destruct (isdigit U _); auto.
      unfold int_or_raise in Hw'.
      destruct (int U _) as [n|]; auto.
      rewrite bind_ret in Hw'. do 3 rewrite bind_put in Hw'.
      rewrite bind_get in Hw'.
      pose proof (ws_count (STATE w) (tasks w) n Es) as Hc.
      unfold cancel_referenced in Hc.
      destruct (task (STATE w)) as [h0|] eqn:Et;
        unfold cancel, create_task, bind, put, get, reply_text in Hw';
        cbn in Hw'; rewrite Et in Hw'; cbn in Hw'; subst w'; cbn;
        rewrite ?length_alter; exact Hc.
    + cbn in Hw'. auto.
Qed.

(** ** Invariants of [STATE] and of the task table *)

Ltac proj_simpl :=
  cbn [step logged_in session_label mode targets messages send_count running
       sent started_at task mock_groups set_logged_in set_session_label
       set_step set_mode set_targets set_messages set_send_count set_running
       set_sent set_started_at set_task set_mock_groups in_wizard past_mode
       past_pick] in *.

Ltac split11 :=
  split; [|split; [|split; [|split; [|split; [|split; [|split; [|split;
    [|split; [|split]]]]]]]]].

Ltac easy_part :=
  first [ assumption
        | intros; first [discriminate | reflexivity | congruence | lia]
        | idtac ].

Lemma wizard_step_state_invariant (s s' : State) (ts ts' : list Task) :
  wizard_step s ts s' ts' -> state_invariant s -> state_invariant s'.
Proof.
  intros Hstep Hinv.
  destruct Hstep as [s ts | s ts | s ts Hl | s ts | s ts label Es Hl
                    | s ts Es | s ts k name Es Hn | s ts msgs Es Hm Hc
                    | s ts n Es]; [exact Hinv|..];
    destruct Hinv as (L1 & L2 & L3 & M1 & M2 & T0 & T1 & P & C & R & S);
    unfold state_invariant.
  - proj_simpl. split11; easy_part.
  - proj_simpl. rewrite Hl in *. split11; easy_part.
  - destruct (task s); proj_simpl; split11; easy_part.
  - proj_simpl. specialize (L1 Es). rewrite Es in *. proj_simpl.
    split11; easy_part.
    exists label. now split.
  - proj_simpl. rewrite Es in *. specialize (L2 eq_refl). proj_simpl.
    split11; easy_part.
    + now right.
    + intros Hr. destruct (R Hr) as (_ & R2 & R3). now repeat split.
  - proj_simpl. rewrite Es in *. proj_simpl.
    specialize (L2 eq_refl). specialize (M2 eq_refl).
    destruct M1 as [[M1 _]|[_ M1]]; [congruence|].
    assert (Hin : In name build_mock_groups).
    { rewrite <- M1. apply list_elem_of_In. eapply list_elem_of_lookup_2, Hn. }
    split11; easy_part.
    + right. exact (conj M2 M1).
    + right. eauto.
    + intros Hr. destruct (R Hr) as (R1 & _ & R3). repeat split; trivial.
      discriminate.
  - proj_simpl. rewrite Es in *. proj_simpl.
    specialize (L2 eq_refl). specialize (M2 eq_refl).
    specialize (T1 eq_refl).
    split11; easy_part.
    intros Hr. destruct (R Hr) as (R1 & R2 & _). now repeat split.
  - proj_simpl. rewrite Es in *. proj_simpl. specialize (M2 eq_refl).
    specialize (T1 eq_refl). specialize (P eq_refl).
    split11; easy_part.
    intros _. exact (conj M2 (conj T1 P)).
Qed.

Lemma state_eta (s : State) :
  set_running (running s) (set_sent (sent s)
    (set_started_at (started_at s) s)) = s.
Proof. now destruct s. Qed.

(** What one turn of a task does to the world. *)
Lemma resume_effect (h : nat) (w : World) :
  exists (r : bool) (n : Z) (t : option Z) (tk : option Task),
    world_after (resume h w)
    = mkWorld (set_running r (set_sent n (set_started_at t (STATE w))))
        (match tk with Some x => <[h := x]> (tasks w) | None => tasks w end)
        (files w) (chat w) (clock w)
    /\ (r = running (STATE w) \/ r = false)
    /\ (n = sent (STATE w) \/ n = sent (STATE w) + 1 \/ n = 0 \/ n = 1)
    /\ (t = started_at (STATE w) \/ t = Some (clock w))
    /\ (forall x, tk = Some x ->
          (exists t0, tasks w !! h = Some t0 /\ live t0 = true)
          /\ (x = Finished
              \/ exists i msgs total,
                   x = Asleep ((i + 1) mod length msgs) msgs total
                   /\ (tasks w !! h = Some (Asleep i msgs total)
                       \/ tasks w !! h = Some Pending
                          /\ msgs = messages (STATE w) /\ msgs <> []))).
Proof.
  unfold resume.
  destruct (tasks w !! h) as [[| i msgs total | |]|] eqn:Et;
    try (exists (running (STATE w)), (sent (STATE w)),
           (started_at (STATE w)), None;
         cbn [world_after]; rewrite state_eta, world_eta;
         split; [reflexivity|]; split; [now left|]; split; [now left|];
         split; [now left|]; discriminate).
  - unfold dry_run_engine, engine_loop, now_ts, bind, get, put, ret.
    cbn -[Nat.modulo Z.add Z.gtb Z.geb length].
    destruct (messages (STATE w)) as [|m ms] eqn:Em;
      cbn -[Nat.modulo Z.add Z.gtb Z.geb length].
    + exists false, 0, (Some (clock w)), (Some Finished).
      split; [reflexivity|]. split; [now right|]. split; [auto|].
      split; [now right|].
      intros x Hx. injection Hx as <-. split; [eauto|now left].
    + destruct (running (STATE w)) eqn:Er;
        cbn -[Nat.modulo Z.add Z.gtb Z.geb length].
      * change (0 + 1) with 1.
        destruct ((send_count (STATE w) >? 0) && (1 >=? send_count (STATE w)));
          cbn -[Nat.modulo length].
        -- exists false, 1, (Some (clock w)), (Some Finished).
           split; [reflexivity|]. split; [now right|]. split; [auto|].
           split; [now right|].
           intros x Hx. injection Hx as <-. split; [eauto|now left].
        -- exists true, 1, (Some (clock w)),
             (Some (Asleep ((0 + 1) mod length (m :: ms)) (m :: ms)
                      (send_count (STATE w)))).
           split; [unfold with_tasks; cbn; now rewrite <- Er|].
           split; [now left|]. split; [auto|]. split; [now right|].
           intros x Hx. injection Hx as <-. split; [eauto|].
           right. exists 0%nat, (m :: ms), (send_count (STATE w)).
           split; [reflexivity|]. right. repeat split; trivial. discriminate.
      * exists false, 0, (Some (clock w)), (Some Finished).
        split; [unfold with_tasks; cbn; now rewrite <- Er|].
        split; [now right|]. split; [auto|]. split; [now right|].
        intros x Hx. injection Hx as <-. split; [eauto|now left].
  - unfold engine_loop, bind, get, put, ret.
    cbn -[Nat.modulo Z.add Z.gtb Z.geb length].
    destruct (running (STATE w)) eqn:Er;
      cbn -[Nat.modulo Z.add Z.gtb Z.geb length].
    + destruct ((total >? 0) && (sent (STATE w) + 1 >=? total));
        cbn -[Nat.modulo Z.add length].
      * exists false, (sent (STATE w) + 1), (started_at (STATE w)),
          (Some Finished).
        split; [unfold with_tasks, with_STATE; cbn; now destruct (STATE w)|].
        split; [now right|]. split; [auto|]. split; [now left|].
        intros x Hx. injection Hx as <-. split; [eauto|now left].
      * exists true, (sent (STATE w) + 1), (started_at (STATE w)),
          (Some (Asleep ((i + 1) mod length msgs) msgs total)).
        split; [unfold with_tasks, with_STATE; cbn; rewrite <- Er;
                now destruct (STATE w)|].
        split; [now left|]. split; [auto|]. split; [now left|].
        intros x Hx. injection Hx as <-. split; [eauto|].
        right. exists i, msgs, total. split; [reflexivity|now left].
    + exists false, (sent (STATE w)), (started_at (STATE w)), (Some Finished).
      split; [unfold with_tasks; cbn; rewrite <- Er at 1;
              now rewrite state_eta|].
      split; [now right|]. split; [auto|]. split; [now left|].
      intros x Hx. injection Hx as <-. split; [eauto|now left].
Qed.

(** *** Cancelling the referenced task *)

Lemma cancel_task_not_live (t : Task) : live (cancel_task t) = false.
Proof. now destruct t. Qed.

Lemma cancel_referenced_length (s : State) (ts : list Task) :
  length (cancel_referenced s ts) = length ts.
Proof.
  unfold cancel_referenced. destruct (task s); [apply length_alter|easy].
Qed.

Lemma cancel_referenced_not_live (s : State) (ts : list Task) (h : nat)
  (t : Task) :
  (forall h t, ts !! h = Some t -> live t = true -> task s = Some h) ->
  cancel_referenced s ts !! h = Some t -> live t = false.
Proof.
  intros Hone Ht. unfold cancel_referenced in Ht.
  destruct (task s) as [h0|] eqn:E0.
  - destruct (Nat.eq_dec h0 h) as [->|Hne].
    + rewrite list_lookup_alter_eq in Ht.
      destruct (ts !! h); [|discriminate Ht].
      injection Ht as <-. apply cancel_task_not_live.
    + rewrite list_lookup_alter_ne in Ht by exact Hne.
      destruct (live t) eqn:El; [|reflexivity].
      specialize (Hone h t Ht El). congruence.
  - destruct (live t) eqn:El; [|reflexivity].
    specialize (Hone h t Ht El). congruence.
Qed.

Lemma wizard_step_task_invariant (s s' : State) (ts ts' : list Task) :
  wizard_step s ts s' ts' ->
  state_invariant s -> task_invariant s ts -> task_invariant s' ts'.
Proof.
  intros Hstep Hs (K1 & K2 & K3).
  assert (Hdead : forall h t,
            cancel_referenced s ts !! h = Some t -> live t = false)
    by (intros h t; now apply cancel_referenced_not_live).
  destruct Hstep as [s ts | s ts | s ts Hl | s ts | s ts label Es Hl
                    | s ts Es | s ts k name Es Hn | s ts msgs Es Hm Hc
                    | s ts n Es];
    try (split; [|split]; proj_simpl; assumption).
  - (* stop *)
    split; [|split].
    + intros h t Ht Hl. rewrite (Hdead h t Ht) in Hl. discriminate Hl.
    + intros h i msgs total Ht.
      pose proof (Hdead h _ Ht) as Hl. discriminate Hl.
    + intros Hne. destruct (task s); proj_simpl; apply K3; intros ->;
        apply Hne; apply length_zero_iff_nil;
        now rewrite cancel_referenced_length.
  - (* payload *)
    split; [|split]; proj_simpl; try assumption. intros _. exact Hm.
  - (* count *)
    destruct Hs as (_ & _ & _ & _ & _ & _ & _ & P & _).
    split; [|split]; proj_simpl.
    + intros h t Ht Hl.
      apply lookup_app_Some in Ht as [Hh|[Hlen Hh]].
      * rewrite (Hdead h t Hh) in Hl. discriminate Hl.
      * rewrite cancel_referenced_length in Hlen, Hh.
        f_equal. apply lookup_lt_Some in Hh. cbn in Hh. lia.
    + intros h i msgs total Ht.
      apply lookup_app_Some in Ht as [Hh|[Hlen Hh]].
      * pose proof (Hdead h _ Hh) as Hl. discriminate Hl.
      * destruct (h - length (cancel_referenced s ts))%nat as [|j];
          discriminate Hh.
    + intros _. now apply P.
Qed.

Lemma resume_keeps_invariants (h : nat) (w : World) :
  state_invariant (STATE w) -> task_invariant (STATE w) (tasks w) ->
  let w' := world_after (resume h w) in
  state_invariant (STATE w') /\ task_invariant (STATE w') (tasks w').
Proof.
  intros (L1 & L2 & L3 & M1 & M2 & T0 & T1 & P & C & R & S) (K1 & K2 & K3).
  destruct (resume_effect h w) as (r & n & t & tk & -> & Hr & Hn & Ht & Hk).
  cbn zeta. cbn [STATE tasks]. split.
  - unfold state_invariant. proj_simpl. split11; try assumption.
    + intros ->. destruct Hr as [Hr|Hr]; [now apply R|discriminate Hr].
    + destruct Hn as [->|[->|[->| ->]]]; lia.
  - destruct tk as [x|]; [|split; [|split]; proj_simpl; assumption].
    destruct (Hk x eq_refl) as ((t0 & Ht0 & Hl0) & Hx).
    assert (Hlt : (h < length (tasks w))%nat)
      by (apply lookup_lt_is_Some; eauto).
    split; [|split]; proj_simpl.
    + intros h' t' Ht' Hl'. destruct (Nat.eq_dec h h') as [<-|Hne].
      * now apply (K1 h t0).
      * rewrite list_lookup_insert_ne in Ht' by exact Hne. now apply (K1 h' t').
    + intros h' i msgs total Ht'. destruct (Nat.eq_dec h h') as [<-|Hne].
      * rewrite list_lookup_insert_eq in Ht' by exact Hlt.
        injection Ht' as Ex. rewrite Ex in Hx.
        destruct Hx as [Hx|(i0 & m0 & n0 & Hx & Hsrc)]; [discriminate Hx|].
        injection Hx as -> -> ->.
        apply Nat.mod_upper_bound.
        destruct Hsrc as [Hsrc|(_ & _ & Hne)].
        -- specialize (K2 h i0 m0 n0 Hsrc). lia.
        -- destruct m0; [congruence|cbn; lia].
      * rewrite list_lookup_insert_ne in Ht' by exact Hne.
        now apply (K2 h' i msgs total).
    + intros _. apply K3. intros E. rewrite E in Ht0. discriminate Ht0.
Qed.

(** In every world the bot can reach both invariants hold. *)
Lemma reachable_invariants (U : Unicode) (w : World) :
  reachable U w ->
  state_invariant (STATE w) /\ task_invariant (STATE w) (tasks w).
Proof.
  induction 1 as [| e w _ [IHs IHt] | h w _ [IHs IHt] | t w _ IH].
  - split.
    + unfold state_invariant. cbn. split11; try discriminate; auto.
    + split; [|split]; cbn; intros; try discriminate; congruence.
  - pose proof (handle_wizard_step U e w) as Hstep. split.
    + exact (wizard_step_state_invariant _ _ _ _ Hstep IHs).
    + exact (wizard_step_task_invariant _ _ _ _ Hstep IHs IHt).
  - now apply resume_keeps_invariants.
  - exact IH.
Qed.

(** ** The commands, one by one *)

Lemma set_task_None_id (s : State) : task s = None -> set_task None s = s.
Proof. destruct s. cbn. now intros ->. Qed.

(** X1. The setup command needs a login.  From the owner, [/attack] with
    [logged_in] unset answers "Login first" and writes nothing; with
    [logged_in] set it moves [step] to ["mode"], answers with the setup
    prompt and writes no other key.  Right after [/start], which clears
    [logged_in], it is therefore refused. *)
Theorem attack_cmd_needs_login (u u0 : Update) (w : World) :
  effective_user_id u = OWNER_TG_ID ->
  effective_user_id u0 = OWNER_TG_ID ->
  (logged_in (STATE w) = false ->
   attack_cmd u w = Returned tt (replied LoginFirst w))
  /\ (logged_in (STATE w) = true ->
      attack_cmd u w
      = Returned tt
          (replied SendEngineSetup (with_STATE (set_step (Some Mode)) w)))
  /\ attack_cmd u (world_after (start_cmd u0 w))
     = Returned tt (replied LoginFirst (world_after (start_cmd u0 w))).
Proof.
  intros Hu Hu0. apply is_owner_true in Hu, Hu0.
  unfold attack_cmd. rewrite Hu. cbn [negb]. rewrite !bind_get.
  split; [|split].
  - now intros ->.
  - now intros ->.
  - unfold start_cmd. rewrite Hu0. reflexivity.
Qed.

Lemma attack_cmd_needs_login_witness :
  attack_cmd (says OWNER_TG_ID (py "/attack")) world0
  = Returned tt (replied LoginFirst world0)
  /\ attack_cmd (says OWNER_TG_ID (py "/attack")) world_after_run
     = Returned tt
         (replied SendEngineSetup
            (with_STATE (set_step (Some Mode)) world_after_run)).
Proof.
  destruct (attack_cmd_needs_login (says OWNER_TG_ID (py "/attack"))
              (says OWNER_TG_ID (py "/start")) world0 eq_refl eq_refl)
    as (H1 & _ & _).
  destruct (attack_cmd_needs_login (says OWNER_TG_ID (py "/attack"))
              (says OWNER_TG_ID (py "/start")) world_after_run
              eq_refl eq_refl)
    as (_ & H2 & _).
  split; [exact (H1 eq_refl)|exact (H2 eq_refl)].
Defined.

Lemma stop_cmd_world (u : Update) (w : World) :
  effective_user_id u = OWNER_TG_ID ->
  stop_cmd u w = Returned tt (halted w).
Proof.
  intros Hu. apply is_owner_true in Hu.
  unfold stop_cmd. rewrite Hu. cbn [negb].
  unfold bind, get, put, cancel, reply_text, ret.
  unfold halted, cancel_referenced, replied, with_chat, with_STATE,
    with_tasks.
  cbn [STATE tasks files chat clock task set_running].
  destruct (task (STATE w)) as [h|] eqn:Et; cbn [STATE tasks files chat clock].
  - reflexivity.
  - rewrite set_task_None_id by exact Et. reflexivity.
Qed.

Lemma cancel_referenced_None (s : State) (ts : list Task) :
  task s = None -> cancel_referenced s ts = ts.
Proof. unfold cancel_referenced. now intros ->. Qed.

(** X2. From the owner, [/stop] clears [running], cancels the task
    [STATE["task"]] refers to and forgets it, and answers "Engine halted".
    Every other task, the counter [sent], the step, the pool and the count
    are as before, and a second [/stop] changes neither [STATE] nor the task
    table. *)
Theorem stop_cmd_halts (u u' : Update) (w : World) :
  effective_user_id u = OWNER_TG_ID ->
  effective_user_id u' = OWNER_TG_ID ->
  stop_cmd u w = Returned tt (halted w)
  /\ running (STATE (halted w)) = false
  /\ task (STATE (halted w)) = None
  /\ (forall h t0, task (STATE w) = Some h -> tasks w !! h = Some t0 ->
        tasks (halted w) !! h = Some (cancel_task t0))
  /\ (forall h, task (STATE w) <> Some h ->
        tasks (halted w) !! h = tasks w !! h)
  /\ sent (STATE (halted w)) = sent (STATE w)
  /\ step (STATE (halted w)) = step (STATE w)
  /\ messages (STATE (halted w)) = messages (STATE w)
  /\ send_count (STATE (halted w)) = send_count (STATE w)
  /\ STATE (world_after (stop_cmd u' (halted w))) = STATE (halted w)
  /\ tasks (world_after (stop_cmd u' (halted w))) = tasks (halted w).
Proof.
  intros Hu Hu'. split; [now apply stop_cmd_world|].
  rewrite (stop_cmd_world u' (halted w) Hu').
  cbn. repeat split.
  - intros h t0 Et Ht. unfold cancel_referenced. rewrite Et.
    now rewrite list_lookup_alter_eq, Ht.
  - intros h Hne. unfold cancel_referenced.
    destruct (task (STATE w)) as [h0|]; [|reflexivity].
    apply list_lookup_alter_ne. congruence.
Qed.

Lemma stop_cmd_halts_witness :
  stop_cmd (says OWNER_TG_ID (py "/stop")) world_at_count
  = Returned tt (halted world_at_count)
  /\ running (STATE (halted world_at_count)) = false
  /\ task (STATE (halted world_at_count)) = None.
Proof.
  destruct (stop_cmd_halts (says OWNER_TG_ID (py "/stop"))
              (says OWNER_TG_ID (py "/stop")) world_at_count
              eq_refl eq_refl) as (H1 & H2 & H3 & _).
  exact (conj H1 (conj H2 H3)).
Defined.

(** ** Replies, files and the clock *)

Lemma is_owner_id (uid : Z) : is_owner uid = true -> uid = OWNER_TG_ID.
Proof. unfold is_owner. apply Z.eqb_eq. Qed.

Lemma handle_frame (U : Unicode) (e : Event) (w : World) :
  let w' := world_after (handle U e w) in
  clock w' = clock w
  /\ at_most_one_reply w w'
  /\ (files w' = files w \/ failed_upload e w).
Proof.
  cbn zeta. remember (world_after (handle U e w)) as w' eqn:Hw'.
  assert (Hw : w' = w ->
            clock w' = clock w /\ at_most_one_reply w w'
            /\ (files w' = files w \/ failed_upload e w))
    by (intros ->; repeat split; now left).
  assert (Hr : forall f r, w' = replied r (with_STATE f w) ->
            clock w' = clock w /\ at_most_one_reply w w'
            /\ (files w' = files w \/ failed_upload e w)).
  { intros f r ->. repeat split; [right; now exists r|now left]. }
  assert (Hr0 : forall r, w' = replied r w ->
            clock w' = clock w /\ at_most_one_reply w w'
            /\ (files w' = files w \/ failed_upload e w)).
  { intros r ->. repeat split; [right; now exists r|now left]. }
  destruct e as [[] u | u]; cbn [handle] in Hw'.
  - unfold start_cmd in Hw'. destruct (is_owner _); cbn in Hw'; auto.
    subst w'. repeat split; [right; now eexists|now left].
  - unfold attack_cmd in Hw'. destruct (is_owner _); cbn in Hw'; auto.
    unfold bind, get in Hw'. destruct (logged_in (STATE w));
      cbn in Hw'; subst w'; (repeat split; [right; now eexists|now left]).
  - destruct (Z.eq_dec (effective_user_id u) OWNER_TG_ID) as [Eo|Eo].
    + rewrite (stop_cmd_world u w Eo) in Hw'. cbn [world_after] in Hw'.
      subst w'. repeat split; [right; now eexists|now left].
    + apply is_owner_false in Eo. unfold stop_cmd in Hw'.
      rewrite Eo in Hw'. cbn in Hw'. auto.
  - unfold status_cmd in Hw'. destruct (is_owner _); cbn in Hw'; auto.
    unfold bind, get, uptime, bind, get in Hw'. cbn in Hw'.
    destruct (started_at (STATE w)) as [t|]; [destruct (t =? 0)|];
      cbn in Hw'; eauto.
  - unfold help_cmd in Hw'. destruct (is_owner _); cbn in Hw'; eauto.
  - unfold text_router in Hw'.
    destruct (is_owner _) eqn:Eo; cbn [negb] in Hw'; auto.
    apply is_owner_id in Eo.
    rewrite bind_get in Hw'.
    destruct (step (STATE w)) as [[]|] eqn:Es; cbn [step_eqb andb] in Hw'.
    + cbn in Hw'. subst w'. repeat split; [right; now eexists|now left].
    + destruct (str_eqb _ _); cbn in Hw'; auto.
      subst w'. repeat split; [right; now eexists|now left].
    + destruct (isdigit U _); auto.
      unfold int_or_raise in Hw'.
      destruct (int U _) as [n|]; auto.
      rewrite bind_ret, bind_get in Hw'.
      destruct (_ || _); cbn in Hw'; eauto.
      subst w'. repeat split; [right; now eexists|now left].
    + unfold bind at 1 in Hw'.
      destruct (message_document u) as [d|] eqn:Em.
      * rewrite (read_messages_file U u d w Em) in Hw'.
        destruct (doc_io d) eqn:Eio; cbn in Hw'; auto.
        -- destruct (truthy _); cbn in Hw'; subst w';
             (repeat split; [right; now eexists|now left]).
        -- subst w'. repeat split; [now left|].
           right. exists u, d. now repeat split.
      * rewrite (read_messages_text U u w Em) in Hw'.
        destruct (truthy _); cbn in Hw'; subst w';
          (repeat split; [right; now eexists|now left]).
    + destruct (isdigit U _); auto.
      unfold int_or_raise in Hw'.
      destruct (int U _) as [n|]; auto.
      rewrite bind_ret in Hw'. do 3 rewrite bind_put in Hw'.
      rewrite bind_get in Hw'.
      destruct (task _); cbn in Hw'; subst w';
        (repeat split; [right; now eexists|now left]).
    + cbn in Hw'. auto.
Qed.

(** X3. One inbound event adds at most one reply to the chat and does not
    move the clock; a command from the owner returns normally and adds
    exactly one reply. *)
Theorem one_reply_per_event (U : Unicode) (e : Event) (w : World) :
  at_most_one_reply w (world_after (handle U e w))
  /\ clock (world_after (handle U e w)) = clock w
  /\ (forall c u, e = Cmd c u -> effective_user_id u = OWNER_TG_ID ->
        exists r w', handle U e w = Returned tt w'
                     /\ chat w' = chat w ++ [r]).
Proof.
  destruct (handle_frame U e w) as (Hc & Hr & _).
  split; [exact Hr|]. split; [exact Hc|].
  intros c u -> Hu. pose proof (is_owner_true _ Hu) as Ho.
  destruct c; cbn [handle].
  - unfold start_cmd. rewrite Ho. cbn. do 2 eexists. split; reflexivity.
  - unfold attack_cmd. rewrite Ho. cbn [negb]. rewrite bind_get.
    destruct (logged_in (STATE w)); cbn; do 2 eexists; split; reflexivity.
  - rewrite (stop_cmd_world u w Hu). do 2 eexists. split; reflexivity.
  - unfold status_cmd. rewrite Ho. cbn [negb].
    unfold bind, get, uptime, bind, get. cbn.
    destruct (started_at (STATE w)) as [t|]; [destruct (t =? 0)|];
      cbn; do 2 eexists; split; reflexivity.
  - unfold help_cmd. rewrite Ho. cbn. do 2 eexists. split; reflexivity.
Qed.

Lemma one_reply_per_event_witness :
  exists r w',
    handle ascii_tables (Cmd help (says OWNER_TG_ID (py "/help"))) world0
    = Returned tt w'
    /\ chat w' = chat world0 ++ [r].
Proof.
  destruct (one_reply_per_event ascii_tables
              (Cmd help (says OWNER_TG_ID (py "/help"))) world0)
    as (_ & _ & H).
  exact (H help (says OWNER_TG_ID (py "/help")) eq_refl eq_refl).
Defined.

Lemma status_cmd_world (u : Update) (w : World) :
  effective_user_id u = OWNER_TG_ID ->
  status_cmd u w
  = Returned tt
      (replied
         (EngineDashboard (logged_in (STATE w)) (mode (STATE w))
            (length (targets (STATE w))) (length (messages (STATE w)))
            (send_count (STATE w)) (sent (STATE w)) (uptime_of w)
            (running (STATE w))) w).
Proof.
  intros Hu. apply is_owner_true in Hu.
  unfold status_cmd. rewrite Hu. cbn [negb].
  unfold bind, get, uptime, bind, get, now_ts, ret, reply_text, uptime_of.
  cbn. destruct (started_at (STATE w)) as [t|]; [destruct (t =? 0)|];
    reflexivity.
Qed.

(** X4. The dashboard shows the time since the engine started.  When a
    pending engine task takes its first turn at the time [clock w] and the
    owner's [/status] arrives at the time [t1], the uptime shown is
    [t1 - clock w], unless the engine started at the time 0, which [uptime]
    reads as "not started" and shows as 0; the number of sends shown is 0
    or 1. *)
Theorem status_reports_uptime_since_start (u : Update) (w : World) (h : nat)
  (t1 : Z) :
  effective_user_id u = OWNER_TG_ID ->
  tasks w !! h = Some Pending ->
  let w1 := at_time t1 (world_after (resume h w)) in
  exists lg md nt nm cnt snt rn,
    status_cmd u w1
    = Returned tt
        (replied
           (EngineDashboard lg md nt nm cnt snt
              (if clock w =? 0 then 0 else t1 - clock w) rn) w1)
    /\ (snt = 0 \/ snt = 1).
Proof.
  intros Hu Hp w1. rewrite (status_cmd_world u w1 Hu).
  do 7 eexists. split.
  - f_equal. f_equal. f_equal. subst w1. unfold uptime_of, at_time.
    cbn [STATE clock]. unfold resume. rewrite Hp.
    unfold dry_run_engine, engine_loop, now_ts, bind, get, put, ret.
    cbn -[Z.sub Z.eqb].
    repeat match goal with
           | |- context [match ?l with [] => _ | _ :: _ => _ end] =>
               destruct l; cbn -[Z.sub Z.eqb]
           | |- context [if ?b then _ else _] =>
               lazymatch b with
               | (clock w =? 0) => fail
               | _ => destruct b; cbn -[Z.sub Z.eqb]
               end
           end; reflexivity.
  - subst w1. cbn [STATE at_time]. unfold resume. rewrite Hp.
    unfold dry_run_engine, engine_loop, now_ts, bind, get, put, ret.
    cbn.
    repeat match goal with
           | |- context [match ?l with [] => _ | _ :: _ => _ end] =>
               destruct l; cbn
           | |- context [if ?b then _ else _] => destruct b; cbn
           end; auto.
Qed.

Lemma status_reports_uptime_since_start_witness :
  exists lg md nt nm cnt snt rn,
    status_cmd (says OWNER_TG_ID (py "/status"))
      (at_time 160
         (world_after
            (resume 0
               (at_time 100
                  (handle_all ascii_tables
                     [Msg (says OWNER_TG_ID (py "3"))] world_at_count)))))
    = Returned tt
        (replied (EngineDashboard lg md nt nm cnt snt 60 rn)
           (at_time 160
              (world_after
                 (resume 0
                    (at_time 100
                       (handle_all ascii_tables
                          [Msg (says OWNER_TG_ID (py "3"))]
                          world_at_count))))))
    /\ (snt = 0 \/ snt = 1).
Proof.
  exact (status_reports_uptime_since_start
           (says OWNER_TG_ID (py "/status"))
           (at_time 100
              (handle_all ascii_tables [Msg (says OWNER_TG_ID (py "3"))]
                 world_at_count))
           0%nat 160 eq_refl eq_refl).
Defined.

(** X5. The handlers and the engine write different keys.  No inbound event
    changes [sent] or [started_at].  A turn of a task changes none of
    [logged_in], [session_label], [step], [mode], [targets], [messages],
    [send_count], [task] and [mock_groups]; it never sets [running]; and it
    leaves [sent] alone, adds one to it, or restarts it at 0 or 1. *)
Theorem handlers_and_engine_write_different_keys (U : Unicode) (e : Event)
  (h : nat) (w : World) :
  (let s' := STATE (world_after (handle U e w)) in
   sent s' = sent (STATE w) /\ started_at s' = started_at (STATE w))
  /\ (let s' := STATE (world_after (resume h w)) in
      logged_in s' = logged_in (STATE w)
      /\ session_label s' = session_label (STATE w)
      /\ step s' = step (STATE w)
      /\ mode s' = mode (STATE w)
      /\ targets s' = targets (STATE w)
      /\ messages s' = messages (STATE w)
      /\ send_count s' = send_count (STATE w)
      /\ task s' = task (STATE w)
      /\ mock_groups s' = mock_groups (STATE w)
      /\ (running s' = true -> running (STATE w) = true)
      /\ (sent s' = sent (STATE w) \/ sent s' = sent (STATE w) + 1
          \/ sent s' = 0 \/ sent s' = 1)).
Proof.
  split.
  - cbn zeta. pose proof (handle_wizard_step U e w) as Hstep.
    destruct Hstep; try (split; reflexivity).
    destruct (task s); split; reflexivity.
  - destruct (resume_effect h w) as (r & n & t & tk & -> & Hr & Hn & _).
    cbn zeta. cbn [STATE]. proj_simpl. repeat split; trivial.
    intros ->. destruct Hr as [Hr|Hr]; [now symmetry|discriminate Hr].
Qed.

Lemma handlers_and_engine_write_different_keys_witness :
  sent (STATE (world_after
          (handle ascii_tables (Msg (says OWNER_TG_ID (py "7")))
             world_at_count)))
  = sent (STATE world_at_count)
  /\ step (STATE (world_after (resume 0 world_at_count)))
     = step (STATE world_at_count).
Proof.
  destruct (handlers_and_engine_write_different_keys ascii_tables
              (Msg (says OWNER_TG_ID (py "7"))) 0 world_at_count)
    as ((H1 & _) & (_ & _ & H2 & _)).
  exact (conj H1 H2).
Defined.

(** X6. Only a failed read leaves a file behind.  If handling an event
    changes the files, the event is an upload by the owner at the payload
    step whose read fails.  An upload whose download fails raises before
    anything is written, and no turn of a task touches the files. *)
Theorem temporary_directory_stays_clean (U : Unicode) (e : Event) (h : nat)
  (w : World) :
  (files (world_after (handle U e w)) <> files w -> failed_upload e w)
  /\ (forall u d, e = Msg u -> message_document u = Some d ->
        doc_io d = FetchFails -> effective_user_id u = OWNER_TG_ID ->
        step (STATE w) = Some Payload ->
        handle U e w = Raised NetworkError w)
  /\ files (world_after (resume h w)) = files w.
Proof.
  split; [|split].
  - destruct (handle_frame U e w) as (_ & _ & [Hf|Hf]); [congruence|auto].
  - intros u d -> Em Eo Hu Es. cbn [handle]. apply is_owner_true in Hu.
    enter_router Hu Es. unfold bind at 1.
    rewrite (read_messages_file U u d w Em), Eo. reflexivity.
  - destruct (resume_effect h w) as (r & n & t & tk & -> & _). reflexivity.
Qed.

Lemma temporary_directory_stays_clean_witness :
  handle ascii_tables
    (Msg (uploads OWNER_TG_ID (utf8_encode (py "x & y")) FetchFails))
    world_at_payload
  = Raised NetworkError world_at_payload
  /\ failed_upload
       (Msg (uploads OWNER_TG_ID (utf8_encode (py "x & y")) ReadFails))
       world_at_payload.
Proof.
  split.
  - destruct (temporary_directory_stays_clean ascii_tables
                (Msg (uploads OWNER_TG_ID (utf8_encode (py "x & y"))
                        FetchFails))
                0%nat world_at_payload) as (_ & H & _).
    exact (H _ _ eq_refl eq_refl eq_refl eq_refl eq_refl).
  - destruct (temporary_directory_stays_clean ascii_tables
                (Msg (uploads OWNER_TG_ID (utf8_encode (py "x & y"))
                        ReadFails))
                0%nat world_at_payload) as (H & _).
    apply H. cbn [handle].
    rewrite (staged_file_left_after_failed_read ascii_tables
               (uploads OWNER_TG_ID (utf8_encode (py "x & y")) ReadFails)
               {| doc_bytes := utf8_encode (py "x & y");
                  doc_io := ReadFails |} world_at_payload
               eq_refl eq_refl eq_refl eq_refl).
    cbn [world_after files with_files]. intros E.
    apply (f_equal (fun m => m !! staged world_at_payload)) in E.
    rewrite lookup_insert_eq, staged_is_free in E. discriminate E.
Defined.

(** ** The router, branch by branch *)

Lemma session_step (U : Unicode) (u : Update) (w : World) :
  effective_user_id u = OWNER_TG_ID ->
  step (STATE w) = Some Session ->
  text_router U u w
  = Returned tt (logged_in_as (label_of (text_or_empty u)) w).
Proof.
  intros Hu Es. apply is_owner_true in Hu. enter_router Hu Es. reflexivity.
Qed.

Lemma mode_step (U : Unicode) (u : Update) (w : World) :
  effective_user_id u = OWNER_TG_ID ->
  step (STATE w) = Some Mode ->
  str_eqb (lower U (strip (text_or_empty u))) (py "gc") = true ->
  text_router U u w = Returned tt (mode_chosen w).
Proof.
  intros Hu Es Hg. apply is_owner_true in Hu. enter_router Hu Es.
  rewrite Hg. reflexivity.
Qed.

Lemma label_of_not_empty (text : str) : label_of text <> [].
Proof. unfold label_of. destruct (strip text); discriminate. Qed.

Lemma lstrip_blank (s : str) : forallb isspace s = true -> lstrip s = [].
Proof.
  induction s as [|c s IH]; [reflexivity|]. cbn [forallb lstrip].
  intros H. apply andb_true_iff in H as [-> Hs]. now apply IH.
Qed.

Lemma strip_blank (s : str) : forallb isspace s = true -> strip s = [].
Proof.
  intros H. unfold strip, rstrip. now rewrite (lstrip_blank s H).
Qed.

(** X7. At the session step any message of the owner logs in.  The label
    stored is the stripped text, or ["demo-session"] when the text is blank,
    so it is never empty; the reply names it, [step] is cleared and no file
    is touched. *)
Theorem login_accepts_any_message (U : Unicode) (u : Update) (w : World) :
  effective_user_id u = OWNER_TG_ID ->
  step (STATE w) = Some Session ->
  text_router U u w
  = Returned tt (logged_in_as (label_of (text_or_empty u)) w)
  /\ label_of (text_or_empty u) <> []
  /\ (forallb isspace (text_or_empty u) = true ->
      label_of (text_or_empty u) = py "demo-session")
  /\ (truthy (strip (text_or_empty u)) = true ->
      label_of (text_or_empty u) = strip (text_or_empty u))
  /\ files (logged_in_as (label_of (text_or_empty u)) w) = files w.
Proof.
  intros Hu Es. split; [now apply session_step|].
  split; [apply label_of_not_empty|]. split; [|split].
  - intros Hb. unfold label_of. now rewrite (strip_blank _ Hb).
  - intros Ht. unfold label_of. now rewrite Ht.
  - reflexivity.
Qed.

Lemma login_accepts_any_message_witness :
  text_router ascii_tables (says OWNER_TG_ID (py "  "))
    (world_after (start_cmd (says OWNER_TG_ID (py "/start")) world0))
  = Returned tt
      (logged_in_as (py "demo-session")
         (world_after (start_cmd (says OWNER_TG_ID (py "/start")) world0)))
  /\ text_router ascii_tables (uploads OWNER_TG_ID [0x41%N] NoFault)
       (world_after (start_cmd (says OWNER_TG_ID (py "/start")) world0))
     = Returned tt
         (logged_in_as (py "demo-session")
            (world_after (start_cmd (says OWNER_TG_ID (py "/start")) world0))).
Proof.
  split.
  - exact (proj1 (login_accepts_any_message ascii_tables
                    (says OWNER_TG_ID (py "  "))
                    (world_after
                       (start_cmd (says OWNER_TG_ID (py "/start")) world0))
                    eq_refl eq_refl)).
  - exact (proj1 (login_accepts_any_message ascii_tables
                    (uploads OWNER_TG_ID [0x41%N] NoFault)
                    (world_after
                       (start_cmd (says OWNER_TG_ID (py "/start")) world0))
                    eq_refl eq_refl)).
Defined.

Lemma idle_router_is_silent_aux (U : Unicode) (u : Update) (w : World) :
  step (STATE w) = None -> text_router U u w = Returned tt w.
Proof.
  intros Es. unfold text_router.
  destruct (is_owner _); cbn [negb]; [|reflexivity].
  rewrite bind_get, Es. reflexivity.
Qed.

(** X8. With no step pending the router answers nothing and writes nothing,
    whoever writes and whatever the message holds.  This is the case right
    after the login. *)
Theorem idle_router_is_silent (U : Unicode) (u u0 : Update) (w : World) :
  (step (STATE w) = None -> text_router U u w = Returned tt w)
  /\ (effective_user_id u0 = OWNER_TG_ID -> step (STATE w) = Some Session ->
      text_router U u (world_after (text_router U u0 w))
      = Returned tt (world_after (text_router U u0 w))).
Proof.
  split; [apply idle_router_is_silent_aux|].
  intros Hu Es. apply idle_router_is_silent_aux.
  now rewrite (session_step U u0 w Hu Es).
Qed.

Lemma idle_router_is_silent_witness :
  text_router ascii_tables (says OWNER_TG_ID (py "GC")) world_after_run
  = Returned tt world_after_run.
Proof.
  exact (proj1 (idle_router_is_silent ascii_tables
                  (says OWNER_TG_ID (py "GC")) (says OWNER_TG_ID (py "GC"))
                  world_after_run) eq_refl).
Defined.

Lemma enumerate_lookup {A : Type} (l : list A) (a k : Z) (x : A) :
  In (k, x) (enumerate a l) ->
  a <= k < a + Z.of_nat (length l) /\ l !! Z.to_nat (k - a) = Some x.
Proof.
  revert a. induction l as [|y l IH]; intros a; cbn [enumerate In];
    [tauto|].
  intros [E|Hin].
  - injection E as -> ->. split; [cbn [length]; lia|].
    now replace (k - k) with 0 by lia.
  - destruct (IH (a + 1) Hin) as [Hk Hl]. split; [cbn [length]; lia|].
    replace (Z.to_nat (k - a)) with (S (Z.to_nat (k - (a + 1)))) by lia.
    exact Hl.
Qed.

(** X9. The number shown next to a group selects that group.  At the mode
    step the owner's ["gc"], in either case and padded or not, stores the
    mode and lists the catalogue; then a digit string read as [k], where the
    list shows [k] next to [name], makes [name] the one target and moves
    [step] to ["payload"]. *)
Theorem listed_number_selects_the_group (U : Unicode) (u1 u2 : Update)
  (w : World) (k : Z) (name : str) :
  effective_user_id u1 = OWNER_TG_ID ->
  effective_user_id u2 = OWNER_TG_ID ->
  step (STATE w) = Some Mode ->
  In (strip (text_or_empty u1)) [py "gc"; py "GC"; py "Gc"; py "gC"] ->
  In (k, name) (enumerate 1 build_mock_groups) ->
  isdigit U (strip (text_or_empty u2)) = true ->
  int U (strip (text_or_empty u2)) = Some k ->
  text_router U u1 w = Returned tt (mode_chosen w)
  /\ text_router U u2 (mode_chosen w)
     = Returned tt (picked name (mode_chosen w))
  /\ targets (STATE (picked name (mode_chosen w))) = [name]
  /\ step (STATE (picked name (mode_chosen w))) = Some Payload.
Proof.
  intros Hu1 Hu2 Es Hgc Hin Hd Hi.
  split; [|split; [|split; reflexivity]].
  - apply mode_step; trivial.
    cbn [In] in Hgc.
    destruct Hgc as [<-|[<-|[<-|[<-|[]]]]]; reflexivity.
  - destruct (enumerate_lookup _ _ _ _ Hin) as [Hk Hl].
    rewrite (gc_pick_number U u2 (mode_chosen w) k Hu2 eq_refl Hd Hi).
    cbn [STATE mode_chosen replied with_chat with_STATE mock_groups
         set_step set_mock_groups].
    destruct (Z.leb_spec 1 k); [|lia].
    destruct (Z.leb_spec k (Z.of_nat (length build_mock_groups))); [|lia].
    cbn [andb]. unfold picked, mode_chosen, replied, with_chat, with_STATE.
    cbn [STATE tasks files chat clock mock_groups set_step set_mock_groups
         set_targets set_mode].
    rewrite Hl. reflexivity.
Qed.

Lemma listed_number_selects_the_group_witness :
  text_router ascii_tables (says OWNER_TG_ID (py " gC ")) world_at_mode
  = Returned tt (mode_chosen world_at_mode)
  /\ text_router ascii_tables (says OWNER_TG_ID (py "3"))
       (mode_chosen world_at_mode)
     = Returned tt
         (picked (py "Market Signals " ++ [0x1F4C8%N])
            (mode_chosen world_at_mode)).
Proof.
  destruct (listed_number_selects_the_group ascii_tables
              (says OWNER_TG_ID (py " gC ")) (says OWNER_TG_ID (py "3"))
              world_at_mode 3 (py "Market Signals " ++ [0x1F4C8%N])
              eq_refl eq_refl eq_refl)
    as (H1 & H2 & _); try reflexivity.
  - cbn. tauto.
  - cbn. tauto.
  - exact (conj H1 H2).
Defined.

(** ** Digit strings *)

Lemma forallb_strip (P : char -> bool) (s : str) :
  forallb P s = true -> forallb P (strip s) = true.
Proof.
  intros H. apply forallb_forall, List.Forall_forall, strip_Forall,
    List.Forall_forall. now apply forallb_forall.
Qed.

Lemma int_digits_ascii (U : Unicode) (s : str) (acc : Z) :
  forallb is_ascii s = true -> forallb (isdigit_char U) s = true ->
  0 <= acc ->
  exists v, int_digits U acc s = Some v /\ 0 <= v.
Proof.
  revert acc. induction s as [|c s IH]; intros acc Ha Hd Hacc.
  - exists acc. now split.
  - cbn [forallb] in Ha, Hd.
    apply andb_true_iff in Ha as [Hc Ha], Hd as [Hdc Hd].
    cbn [int_digits]. unfold decimal_value, isdigit_char in *.
    rewrite Hc in *. rewrite Hdc. apply IH; trivial. lia.
Qed.

Lemma int_ascii (U : Unicode) (s : str) :
  forallb is_ascii s = true -> isdigit U s = true ->
  Z.of_nat (length s) <= max_str_digits ->
  exists v, int U s = Some v /\ 0 <= v.
Proof.
  unfold isdigit, int. intros Ha Hd Hlen.
  apply andb_true_iff in Hd as [-> Hd].
  apply Z.leb_le in Hlen. rewrite Hlen. now apply int_digits_ascii.
Qed.

Lemma length_lstrip (s : str) : (length (lstrip s) <= length s)%nat.
Proof.
  induction s as [|c s IH]; [reflexivity|]. cbn [lstrip].
  destruct (isspace c); cbn [length]; lia.
Qed.

Lemma length_strip (s : str) : (length (strip s) <= length s)%nat.
Proof.
  unfold strip, rstrip. rewrite length_rev.
  pose proof (length_lstrip (rev (lstrip s))) as H1.
  pose proof (length_lstrip s) as H2. rewrite length_rev in H1. lia.
Qed.

Lemma int_too_long (U : Unicode) (s : str) :
  max_str_digits < Z.of_nat (length s) -> int U s = None.
Proof.
  intros H. unfold int. apply Z.leb_gt in H. rewrite H.
  now rewrite andb_false_r.
Qed.

(** X10. On typed ASCII text of at most 4300 characters the router never
    raises: whatever the step and whoever the sender, such a message
    without a document is handled to the end, and at the count step a digit
    string then stores a count that is not negative.  The bound is the one
    of [int]: at the group step and at the count step a digit string of
    more than 4300 digits raises [ValueError] before anything is
    written. *)
Theorem router_never_raises_on_ascii_text (U : Unicode) (u : Update)
  (w : World) :
  message_document u = None ->
  forallb is_ascii (text_or_empty u) = true ->
  (Z.of_nat (length (text_or_empty u)) <= max_str_digits ->
   (exists w', text_router U u w = Returned tt w')
   /\ (effective_user_id u = OWNER_TG_ID -> step (STATE w) = Some Count ->
       isdigit U (strip (text_or_empty u)) = true ->
       0 <= send_count (STATE (world_after (text_router U u w)))))
  /\ (effective_user_id u = OWNER_TG_ID ->
      step (STATE w) = Some GcPick \/ step (STATE w) = Some Count ->
      isdigit U (strip (text_or_empty u)) = true ->
      max_str_digits < Z.of_nat (length (strip (text_or_empty u))) ->
      text_router U u w = Raised ValueError w).
Proof.
  intros Em Ha. pose proof (forallb_strip _ _ Ha) as Hs. split.
  - intros Hlen.
    assert (Hl : Z.of_nat (length (strip (text_or_empty u)))
                 <= max_str_digits)
      by (pose proof (length_strip (text_or_empty u)); lia).
    split.
    + destruct (Z.eq_dec (effective_user_id u) OWNER_TG_ID) as [Hu|Hu].
      * destruct (step (STATE w)) as [[]|] eqn:Es.
        -- rewrite (session_step U u w Hu Es). eauto.
        -- pose proof (is_owner_true _ Hu) as Ho. enter_router Ho Es.
           destruct (str_eqb _ _); cbn; eauto.
        -- destruct (isdigit U (strip (text_or_empty u))) eqn:Ed.
           ++ destruct (int_ascii U _ Hs Ed Hl) as (v & Hv & _).
              rewrite (gc_pick_number U u w v Hu Es Ed Hv).
              destruct (_ && _); eauto.
           ++ pose proof (is_owner_true _ Hu) as Ho. enter_router Ho Es.
              rewrite Ed. eauto.
        -- rewrite (payload_step U u w (text_or_empty u) Hu Es)
             by (unfold raw_input; now rewrite Em).
           destruct (truthy _); eauto.
        -- destruct (isdigit U (strip (text_or_empty u))) eqn:Ed.
           ++ destruct (int_ascii U _ Hs Ed Hl) as (v & Hv & _).
              destruct (count_step U u w v Hu Es Ed Hv) as (ts & _ & ->).
              eauto.
           ++ pose proof (is_owner_true _ Hu) as Ho. enter_router Ho Es.
              rewrite Ed. eauto.
        -- rewrite (idle_router_is_silent_aux U u w Es). eauto.
      * apply is_owner_false in Hu. unfold text_router. rewrite Hu. eauto.
    + intros Hu Es Ed. destruct (int_ascii U _ Hs Ed Hl) as (v & Hv & Hpos).
      destruct (count_step U u w v Hu Es Ed Hv) as (ts & _ & ->). exact Hpos.
  - intros Hu Es Ed Hlong. apply is_owner_true in Hu.
    pose proof (int_too_long U _ Hlong) as Hi.
    destruct Es as [Es|Es]; enter_router Hu Es; rewrite Ed;
      unfold int_or_raise; rewrite Hi; reflexivity.
Qed.

Lemma lstrip_repeat (c : char) (n : nat) :
  isspace c = false -> lstrip (List.repeat c n) = List.repeat c n.
Proof. intros Hc. destruct n; [reflexivity|]. cbn. now rewrite Hc. Qed.

Lemma rev_repeat_same (c : char) (n : nat) :
  rev (List.repeat c n) = List.repeat c n.
Proof.
  induction n as [|n IH]; [reflexivity|]. cbn [List.repeat rev].
  rewrite IH. symmetry. apply List.repeat_cons.
Qed.

Lemma strip_repeat (c : char) (n : nat) :
  isspace c = false -> strip (List.repeat c n) = List.repeat c n.
Proof.
  intros Hc. unfold strip, rstrip.
  now rewrite (lstrip_repeat c n Hc), rev_repeat_same, (lstrip_repeat c n Hc),
    rev_repeat_same.
Qed.

Lemma forallb_repeat (P : char -> bool) (c : char) (n : nat) :
  P c = true -> forallb P (List.repeat c n) = true.
Proof. intros Hc. induction n as [|n IH]; [reflexivity|]. cbn. now rewrite Hc. Qed.

(** A string of 4301 digits. *)
Lemma long_digit_string :
  let text := @List.repeat char 0x31%N 4301 in
  forallb is_ascii text = true
  /\ isdigit ascii_tables (strip text) = true
  /\ max_str_digits < Z.of_nat (length (strip text)).
Proof.
  cbn zeta. rewrite (strip_repeat 0x31%N 4301 eq_refl).
  split; [now apply forallb_repeat|]. split.
  - unfold isdigit. rewrite forallb_repeat by reflexivity. reflexivity.
  - rewrite List.repeat_length. reflexivity.
Qed.

Lemma router_never_raises_on_ascii_text_witness :
  (exists w',
     text_router ascii_tables (says OWNER_TG_ID (py "007")) world_at_count
     = Returned tt w')
  /\ 0 <= send_count
            (STATE (world_after
               (text_router ascii_tables (says OWNER_TG_ID (py "007"))
                  world_at_count)))
  /\ text_router ascii_tables
       (says OWNER_TG_ID (@List.repeat char 0x31%N 4301)) world_at_count
     = Raised ValueError world_at_count.
Proof.
  destruct (router_never_raises_on_ascii_text ascii_tables
              (says OWNER_TG_ID (py "007")) world_at_count eq_refl eq_refl)
    as [H _].
  destruct H as [H1 H2]; [vm_compute; discriminate|].
  split; [exact H1|]. split; [exact (H2 eq_refl eq_refl eq_refl)|].
  destruct long_digit_string as (Ha & Hd & Hlong).
  exact (proj2 (router_never_raises_on_ascii_text ascii_tables
                  (says OWNER_TG_ID (@List.repeat char 0x31%N 4301)) world_at_count
                  eq_refl Ha)
           eq_refl (or_intror eq_refl) Hd Hlong).
Defined.

(** X11. At the count step a digit string that [int] rejects raises
    [ValueError] before anything is written: [str.isdigit] accepts
    characters, superscript two among them, that have no decimal value. *)
Theorem count_step_raises_on_undecimal_digits (U : Unicode) (u : Update)
  (w : World) :
  effective_user_id u = OWNER_TG_ID ->
  step (STATE w) = Some Count ->
  isdigit U (strip (text_or_empty u)) = true ->
  int U (strip (text_or_empty u)) = None ->
  text_router U u w = Raised ValueError w.
Proof.
  intros Hu Es Hd Hi. apply is_owner_true in Hu. enter_router Hu Es.
  rewrite Hd. unfold int_or_raise. rewrite Hi. reflexivity.
Qed.

Lemma count_step_raises_on_undecimal_digits_witness :
  text_router superscript_tables (says OWNER_TG_ID [0xB2%N]) world_at_count
  = Raised ValueError world_at_count.
Proof.
  exact (count_step_raises_on_undecimal_digits superscript_tables
           (says OWNER_TG_ID [0xB2%N]) world_at_count
           eq_refl eq_refl eq_refl eq_refl).
Defined.

(** ** More on the payload *)

Section MorePayload.

Local Open Scope N_scope.

Variable U : Unicode.

Lemma blank_piece_is_dropped (p : str) :
  Forall (fun c => isspace c = true) p -> truthy (strip p) = false.
Proof.
  intros H. rewrite strip_blank; [reflexivity|].
  apply forallb_forall, List.Forall_forall, H.
Qed.

Lemma stripped_parts_blank (parts : list str) :
  Forall (Forall (fun c => isspace c = true)) parts ->
  stripped_parts parts = [].
Proof.
  unfold stripped_parts. induction 1 as [|p parts Hp _ IH]; [reflexivity|].
  cbn [List.filter]. now rewrite (blank_piece_is_dropped p Hp).
Qed.

Lemma Forall_both {A : Type} (P Q : A -> Prop) (l : list A) :
  Forall P l -> Forall Q l -> Forall (fun x => P x /\ Q x) l.
Proof.
  induction 1 as [|x l Hx _ IH]; intros HQ; [constructor|].
  inversion HQ; subst. constructor; [now split|now apply IH].
Qed.

Lemma Forall_impl' {A : Type} (P Q : A -> Prop) (l : list A) :
  (forall x, P x -> Q x) -> Forall P l -> Forall Q l.
Proof. intros H. induction 1; constructor; auto. Qed.

(** X12. A payload made only of whitespace and of ampersands, of any of
    the four kinds, holds no message: [split_messages] returns the empty
    list. *)
Theorem payload_of_blanks_and_ampersands_is_empty (raw : str) :
  forallb (fun c => isspace c || (c =? 0x26) || is_ampersand_variant c) raw
  = true ->
  split_messages U raw = [].
Proof.
  intros H. unfold split_messages. apply stripped_parts_blank.
  assert (Hn : Forall (fun c => isspace c = true \/ c = 0x26) (normalize raw)).
  { rewrite normalize_map.
    induction raw as [|c raw IH]; [constructor|].
    cbn [forallb] in H. apply andb_true_iff in H as [Hc H].
    cbn [List.map]. constructor; [|now apply IH].
    destruct (is_ampersand_variant c); [now right|].
    rewrite orb_false_r in Hc. apply orb_true_iff in Hc as [Hc|Hc];
      [now left|right; now apply N.eqb_eq]. }
  pose proof (split_go_chars U _ (normalize raw) None 0 [] Hn
                (List.Forall_nil _)) as H1.
  pose proof (split_go_no_ampersand U (normalize raw) None 0 []
                (List.Forall_nil _)) as H2.
  unfold re_split.
  eapply Forall_impl'; [|exact (Forall_both _ _ _ H1 H2)].
  intros p [Hp1 Hp2]. cbn beta in *.
  eapply Forall_impl'; [|exact (Forall_both _ _ _ Hp1 Hp2)].
  intros c [[Hc|Hc] Hne]; [exact Hc|contradiction].
Qed.

End MorePayload.

Lemma payload_of_blanks_and_ampersands_is_empty_witness :
  split_messages ascii_tables (py " & &" ++ [0xFF06%N; 0x0A%N]) = [].
Proof.
  exact (payload_of_blanks_and_ampersands_is_empty ascii_tables
           (py " & &" ++ [0xFF06%N; 0x0A%N]) eq_refl).
Defined.

Section NoCarriageReturn.

Local Open Scope N_scope.

Lemma universal_newlines_no_cr_bounded (n : nat) (s : str) :
  (length s <= n)%nat -> Forall (fun c => c <> 0x0D) (universal_newlines s).
Proof.
  revert s. induction n as [|n IH]; intros s Hn.
  - destruct s; [constructor|cbn in Hn; lia].
  - destruct s as [|c s]; [constructor|]. cbn [universal_newlines].
    cbn [length] in Hn.
    destruct (N.eqb_spec c 0x0D) as [->|Hc].
    + constructor; [discriminate|].
      destruct s as [|d s]; [constructor|].
      destruct (d =? 0x0A); apply IH; cbn [length] in *; lia.
    + constructor; [exact Hc|]. apply IH. lia.
Qed.

Lemma read_text_no_cr (bs : list byte) :
  Forall (fun c => c <> 0x0D) (read_text bs).
Proof.
  unfold read_text. now apply (universal_newlines_no_cr_bounded _ _ (le_n _)).
Qed.

Lemma normalize_no_cr (s : str) :
  Forall (fun c => c <> 0x0D) s ->
  Forall (fun c => c <> 0x0D) (normalize s).
Proof.
  rewrite normalize_map. induction 1 as [|c s Hc _ IH]; [constructor|].
  cbn [List.map]. constructor; [|exact IH].
  destruct (is_ampersand_variant c); [discriminate|exact Hc].
Qed.

(** X13. No message read from an uploaded file holds a carriage return:
    reading in text mode has turned each of them into a line feed before the
    split. *)
Theorem uploaded_messages_have_no_carriage_return (U : Unicode) (u : Update)
  (d : Document) (w : World) :
  message_document u = Some d -> doc_io d = NoFault ->
  exists pool,
    read_messages U u w = Returned pool w
    /\ Forall (Forall (fun c => c <> 0x0D)) pool.
Proof.
  intros Em Eo. rewrite (read_messages_file U u d w Em), Eo.
  eexists. split; [reflexivity|]. unfold split_messages.
  apply (stripped_parts_Forall (Forall (fun c => c <> 0x0D))).
  - intros p Hp _. now apply strip_Forall.
  - apply split_go_chars; [|constructor].
    apply normalize_no_cr, read_text_no_cr.
Qed.

End NoCarriageReturn.

Lemma uploaded_messages_have_no_carriage_return_witness :
  exists pool,
    read_messages ascii_tables
      (uploads OWNER_TG_ID [0x78; 0x0D; 0x0A; 0x79; 0x26; 0x7A; 0x0D]%N
         NoFault) world_at_payload
    = Returned pool world_at_payload
    /\ Forall (Forall (fun c => c <> 0x0D%N)) pool.
Proof.
  exact (uploaded_messages_have_no_carriage_return ascii_tables
           (uploads OWNER_TG_ID [0x78; 0x0D; 0x0A; 0x79; 0x26; 0x7A; 0x0D]%N
              NoFault)
           {| doc_bytes := [0x78; 0x0D; 0x0A; 0x79; 0x26; 0x7A; 0x0D]%N;
              doc_io := NoFault |}
           world_at_payload eq_refl eq_refl).
Defined.

(** ** A whole run of the wizard *)

Lemma start_cmd_world (u : Update) (w : World) :
  effective_user_id u = OWNER_TG_ID ->
  start_cmd u w
  = Returned tt
      (replied DemoBotOnline
         (with_STATE
            (fun s => set_step (Some Session)
                        (set_session_label None (set_logged_in false s)))
            w)).
Proof.
  intros Hu. apply is_owner_true in Hu. unfold start_cmd. now rewrite Hu.
Qed.

Lemma attack_cmd_world (u : Update) (w : World) :
  effective_user_id u = OWNER_TG_ID -> logged_in (STATE w) = true ->
  attack_cmd u w
  = Returned tt (replied SendEngineSetup (with_STATE (set_step (Some Mode)) w)).
Proof.
  intros Hu Hl. apply is_owner_true in Hu. unfold attack_cmd.
  rewrite Hu. cbn [negb]. now rewrite bind_get, Hl.
Qed.

Lemma handle_all_app (U : Unicode) (es1 es2 : list Event) (w : World)
  {es : list Event} :
  es = es1 ++ es2 ->
  handle_all U es w = handle_all U es2 (handle_all U es1 w).
Proof. intros ->. apply fold_left_app. Qed.

(** The first four events of a run, from any world. *)
Lemma wizard_until_pick (U : Unicode) (w : World) (label : str) :
  handle_all U
    [Cmd start (says OWNER_TG_ID (py "/start"));
     Msg (says OWNER_TG_ID label);
     Cmd attack (says OWNER_TG_ID (py "/attack"));
     Msg (says OWNER_TG_ID (py "GC"))] w
  = mode_chosen
      (replied SendEngineSetup
         (with_STATE (set_step (Some Mode))
            (logged_in_as (label_of label)
               (replied DemoBotOnline
                  (with_STATE
                     (fun s => set_step (Some Session)
                                 (set_session_label None
                                    (set_logged_in false s))) w))))).
Proof.
  unfold handle_all. cbn [fold_left handle].
  rewrite (start_cmd_world (says OWNER_TG_ID (py "/start")) w eq_refl).
  cbn [world_after].
  rewrite (session_step U (says OWNER_TG_ID label)) by reflexivity.
  rewrite (text_or_empty_says OWNER_TG_ID label). cbn [world_after].
  rewrite (attack_cmd_world (says OWNER_TG_ID (py "/attack")))
    by reflexivity.
  cbn [world_after].
  now rewrite (mode_step U (says OWNER_TG_ID (py "GC"))) by reflexivity.
Qed.

(** The last three events of a run, from the group step. *)
Lemma wizard_from_pick (U : Unicode) (w : World) (tk raw tn name : str)
  (k n : Z) :
  step (STATE w) = Some GcPick ->
  isdigit U (strip tk) = true ->
  int U (strip tk) = Some k ->
  1 <= k ->
  mock_groups (STATE w) !! Z.to_nat (k - 1) = Some name ->
  split_messages U raw <> [] ->
  isdigit U (strip tn) = true ->
  int U (strip tn) = Some n ->
  exists ts,
    length ts = length (tasks w)
    /\ handle_all U
         [Msg (says OWNER_TG_ID tk); Msg (says OWNER_TG_ID raw);
          Msg (says OWNER_TG_ID tn)] w
       = mkWorld
           (set_task (Some (length (tasks w)))
              (set_step None
                 (set_running true
                    (set_send_count n
                       (set_messages (split_messages U raw)
                          (set_targets [name] (STATE w)))))))
           (ts ++ [Pending]) (files w)
           (chat w ++ [MessageInput; SendCountPrompt; EngineLive n (n =? 0)])
           (clock w).
Proof.
  intros Es Hdk Hik Hk1 Hname Hraw Hdn Hin.
  assert (Hlt : (Z.to_nat (k - 1) < length (mock_groups (STATE w)))%nat)
    by (apply lookup_lt_is_Some; eauto).
  unfold handle_all. cbn [fold_left handle].
  rewrite (gc_pick_number U (says OWNER_TG_ID tk) w k eq_refl Es)
    by (rewrite (text_or_empty_says OWNER_TG_ID tk); assumption).
  destruct (Z.leb_spec 1 k); [|lia].
  destruct (Z.leb_spec k (Z.of_nat (length (mock_groups (STATE w)))));
    [|lia].
  cbn [andb world_after].
  rewrite (payload_step U (says OWNER_TG_ID raw) _ raw)
    by first [reflexivity
             | unfold raw_input; cbn [says message_document]; f_equal;
               apply (text_or_empty_says OWNER_TG_ID)].
  destruct (split_messages U raw) as [|m ms] eqn:Epool; [congruence|].
  cbn [truthy world_after].
  match goal with
  | |- context [text_router U ?u ?w6] =>
      destruct (count_step U u w6 n eq_refl eq_refl) as (ts & Hts & ->);
        try (rewrite (text_or_empty_says OWNER_TG_ID tn); assumption)
  end.
  exists ts. split; [exact Hts|].
  cbn [world_after]. unfold replied, with_chat, with_STATE.
  cbn [STATE tasks files chat clock]. proj_simpl. rewrite Hname.
  cbn [option_list]. rewrite <- !app_assoc. reflexivity.
Qed.

(** X14. The whole wizard.  From any world, the owner's [/start], a label,
    [/attack], ["GC"], the number [k] of a group of the catalogue, a payload
    holding at least one message and a count [n] leave the owner logged in
    under the label, the mode ["GC"], the catalogue cached, the [k]-th group
    as the one target, the split payload as the pool, [send_count = n],
    [running] set, [step] cleared and a new pending engine task that
    [STATE["task"]] refers to.  The files are as before, and the seven
    replies are, in this order: the greeting, the login notice, the setup
    prompt, the list of groups, the payload prompt, the count prompt and the
    launch notice, which says "Infinite" exactly when [n] is 0. *)
Theorem wizard_happy_path (U : Unicode) (w : World)
  (label tk raw tn name : str) (k n : Z) :
  isdigit U (strip tk) = true ->
  int U (strip tk) = Some k ->
  1 <= k ->
  build_mock_groups !! Z.to_nat (k - 1) = Some name ->
  split_messages U raw <> [] ->
  isdigit U (strip tn) = true ->
  int U (strip tn) = Some n ->
  let w' :=
    handle_all U
      [Cmd start (says OWNER_TG_ID (py "/start"));
       Msg (says OWNER_TG_ID label);
       Cmd attack (says OWNER_TG_ID (py "/attack"));
       Msg (says OWNER_TG_ID (py "GC"));
       Msg (says OWNER_TG_ID tk);
       Msg (says OWNER_TG_ID raw);
       Msg (says OWNER_TG_ID tn)] w in
  logged_in (STATE w') = true
  /\ session_label (STATE w') = Some (label_of label)
  /\ step (STATE w') = None
  /\ mode (STATE w') = Some (py "GC")
  /\ mock_groups (STATE w') = build_mock_groups
  /\ targets (STATE w') = [name]
  /\ messages (STATE w') = split_messages U raw
  /\ send_count (STATE w') = n
  /\ running (STATE w') = true
  /\ task (STATE w') = Some (length (tasks w))
  /\ tasks w' !! length (tasks w) = Some Pending
  /\ files w' = files w
  /\ chat w'
     = chat w
       ++ [DemoBotOnline; LoggedIn (label_of label); SendEngineSetup;
           AvailableGroupChats (enumerate 1 build_mock_groups);
           MessageInput; SendCountPrompt; EngineLive n (n =? 0)].
Proof.
  intros Hdk Hik Hk1 Hname Hraw Hdn Hin w'. subst w'.
  rewrite (handle_all_app U
             [Cmd start (says OWNER_TG_ID (py "/start"));
              Msg (says OWNER_TG_ID label);
              Cmd attack (says OWNER_TG_ID (py "/attack"));
              Msg (says OWNER_TG_ID (py "GC"))]
             [Msg (says OWNER_TG_ID tk); Msg (says OWNER_TG_ID raw);
              Msg (says OWNER_TG_ID tn)] w
             (es := [Cmd start (says OWNER_TG_ID (py "/start"));
                     Msg (says OWNER_TG_ID label);
                     Cmd attack (says OWNER_TG_ID (py "/attack"));
                     Msg (says OWNER_TG_ID (py "GC"));
                     Msg (says OWNER_TG_ID tk);
                     Msg (says OWNER_TG_ID raw);
                     Msg (says OWNER_TG_ID tn)]) eq_refl).
  rewrite (wizard_until_pick U w label).
  remember (mode_chosen
              (replied SendEngineSetup
                 (with_STATE (set_step (Some Mode))
                    (logged_in_as (label_of label)
                       (replied DemoBotOnline
                          (with_STATE
                             (fun s => set_step (Some Session)
                                         (set_session_label None
                                            (set_logged_in false s))) w))))))
    as w4 eqn:E4.
  assert (F1 : step (STATE w4) = Some GcPick) by (subst w4; reflexivity).
  assert (F2 : mock_groups (STATE w4) = build_mock_groups)
    by (subst w4; reflexivity).
  assert (F3 : logged_in (STATE w4) = true) by (subst w4; reflexivity).
  assert (F4 : session_label (STATE w4) = Some (label_of label))
    by (subst w4; reflexivity).
  assert (F5 : mode (STATE w4) = Some (py "GC")) by (subst w4; reflexivity).
  assert (F6 : tasks w4 = tasks w) by (subst w4; reflexivity).
  assert (F7 : files w4 = files w) by (subst w4; reflexivity).
  assert (F8 : chat w4
               = chat w
                 ++ [DemoBotOnline; LoggedIn (label_of label);
                     SendEngineSetup;
                     AvailableGroupChats (enumerate 1 build_mock_groups)]).
  { subst w4. unfold mode_chosen, logged_in_as, replied, with_chat, with_STATE.
    cbn [STATE tasks files chat clock]. proj_simpl.
    now rewrite <- !app_assoc. }
  clear E4. rewrite <- F2 in Hname.
  destruct (wizard_from_pick U w4 tk raw tn name k n F1
              Hdk Hik Hk1 Hname Hraw Hdn Hin) as (ts & Hts & ->).
  cbn [STATE tasks files chat clock step logged_in session_label mode targets
       messages send_count running sent started_at task mock_groups
       set_logged_in set_session_label set_step set_mode set_targets
       set_messages set_send_count set_running set_sent set_started_at
       set_task set_mock_groups].
  rewrite F6 in *. rewrite F8, <- app_assoc.
  split; [exact F3|]. split; [exact F4|]. split; [reflexivity|].
  split; [exact F5|]. split; [exact F2|]. split; [reflexivity|].
  split; [reflexivity|]. split; [reflexivity|]. split; [reflexivity|].
  split; [reflexivity|]. split; [now apply list_lookup_middle|].
  split; [exact F7|]. reflexivity.
Qed.

Lemma wizard_happy_path_witness :
  let w' :=
    handle_all ascii_tables
      [Cmd start (says OWNER_TG_ID (py "/start"));
       Msg (says OWNER_TG_ID (py "alice"));
       Cmd attack (says OWNER_TG_ID (py "/attack"));
       Msg (says OWNER_TG_ID (py "GC"));
       Msg (says OWNER_TG_ID (py "2"));
       Msg (says OWNER_TG_ID (py "x & y"));
       Msg (says OWNER_TG_ID (py "3"))] world0 in
  targets (STATE w') = [py "Cudai Lounge " ++ [0x1F525%N]]
  /\ messages (STATE w') = split_messages ascii_tables (py "x & y")
  /\ send_count (STATE w') = 3
  /\ running (STATE w') = true.
Proof.
  destruct (wizard_happy_path ascii_tables world0 (py "alice") (py "2")
              (py "x & y") (py "3") (py "Cudai Lounge " ++ [0x1F525%N]) 2 3)
    as (_ & _ & _ & _ & _ & H1 & H2 & H3 & H4 & _);
    try reflexivity; try lia.
  - vm_compute. discriminate.
  - exact (conj H1 (conj H2 (conj H3 H4))).
Defined.

(** ** One turn of a task, case by case *)

Lemma resume_cases (h : nat) (w : World) :
  let w' := world_after (resume h w) in
  (w' = w /\ forall t, tasks w !! h = Some t -> live t = false)
  \/ (exists t0, tasks w !! h = Some t0 /\ live t0 = true
      /\ tasks w' = <[h := Finished]> (tasks w)
      /\ running (STATE w') = false)
  \/ (exists t0 i msgs total,
        tasks w !! h = Some t0 /\ live t0 = true
        /\ tasks w' = <[h := Asleep i msgs total]> (tasks w)
        /\ running (STATE w) = true
        /\ running (STATE w') = true
        /\ (total >? 0) && (sent (STATE w') >=? total) = false
        /\ (t0 = Pending /\ total = send_count (STATE w)
            /\ sent (STATE w') = 1
            /\ started_at (STATE w') = Some (clock w)
            \/ (exists i0, t0 = Asleep i0 msgs total)
               /\ sent (STATE w') = sent (STATE w) + 1
               /\ started_at (STATE w') = started_at (STATE w))).
Proof.
  unfold resume.
  destruct (tasks w !! h) as [[| i msgs total | |]|] eqn:Et;
    try (left; split; [reflexivity|];
         intros t Ht; first [discriminate Ht | now injection Ht as <-]).
  - right.
    unfold dry_run_engine, engine_loop, now_ts, bind, get, put, ret.
    cbn -[Nat.modulo Z.add Z.gtb Z.geb length].
    destruct (messages (STATE w)) as [|m ms] eqn:Em;
      cbn -[Nat.modulo Z.add Z.gtb Z.geb length].
    + left. exists Pending. now repeat split.
    + destruct (running (STATE w)) eqn:Er;
        cbn -[Nat.modulo Z.add Z.gtb Z.geb length].
      * change (0 + 1) with 1.
        destruct ((send_count (STATE w) >? 0) && (1 >=? send_count (STATE w)))
          eqn:El; cbn -[Nat.modulo length].
        -- left. exists Pending. now repeat split.
        -- right. exists Pending. eexists _, _, _.
           do 5 (split; [first [reflexivity | exact Er]|]).
           split; [exact El|].
           left. now repeat split.
      * left. exists Pending. now repeat split.
  - right. unfold engine_loop, bind, get, put, ret.
    cbn -[Nat.modulo Z.add Z.gtb Z.geb length].
    destruct (running (STATE w)) eqn:Er;
      cbn -[Nat.modulo Z.add Z.gtb Z.geb length].
    + destruct ((total >? 0) && (sent (STATE w) + 1 >=? total)) eqn:El;
        cbn -[Nat.modulo Z.add length].
      * left. exists (Asleep i msgs total). now repeat split.
      * right. exists (Asleep i msgs total). eexists _, _, _.
        do 5 (split; [first [reflexivity | exact Er]|]).
        split; [exact El|].
        right. split; [now exists i|]. now split.
    + left. exists (Asleep i msgs total). now repeat split.
Qed.

Lemma resume_keeps_configuration (h : nat) (w : World) :
  let s' := STATE (world_after (resume h w)) in
  task s' = task (STATE w) /\ send_count s' = send_count (STATE w).
Proof.
  destruct (resume_effect h w) as (r & n & t & tk & -> & _).
  split; reflexivity.
Qed.

Lemma resume_without_live_task (h : nat) (w : World) :
  (forall t, tasks w !! h = Some t -> live t = false) ->
  world_after (resume h w) = w.
Proof.
  intros Hdead. unfold resume.
  destruct (tasks w !! h) as [[| i msgs total | |]|] eqn:Et;
    try reflexivity; now specialize (Hdead _ eq_refl).
Qed.

(** ** The flag and the task *)

Lemma wizard_step_running (s : State) (ts : list Task) (s' : State)
  (ts' : list Task) :
  wizard_step s ts s' ts' ->
  (running s = true <-> engine_alive s ts) ->
  (running s' = true <-> engine_alive s' ts').
Proof.
  intros Hstep IH. unfold engine_alive in *.
  destruct Hstep; proj_simpl; try exact IH.
  - split; [destruct (task s); discriminate|].
    intros (h & t & E & _). destruct (task s) eqn:Et; proj_simpl.
    + discriminate E.
    + rewrite Et in E. discriminate E.
  - split; [intros _|reflexivity].
    exists (length ts), Pending. split; [reflexivity|].
    split; [|reflexivity].
    apply list_lookup_middle. symmetry. apply cancel_referenced_length.
Qed.

Lemma resume_running (h : nat) (w : World) :
  (forall h t, tasks w !! h = Some t -> live t = true ->
               task (STATE w) = Some h) ->
  (running (STATE w) = true <-> engine_alive (STATE w) (tasks w)) ->
  let w' := world_after (resume h w) in
  running (STATE w') = true <-> engine_alive (STATE w') (tasks w').
Proof.
  intros K1 IH.
  destruct (resume_keeps_configuration h w) as [Etask _].
  destruct (resume_cases h w)
    as [[E _] | [(t0 & Ht0 & Hl0 & Ets & Er)
                | (t0 & i & msgs & total & Ht0 & Hl0 & Ets & _ & Er & _)]];
    cbn zeta in *.
  - rewrite E. exact IH.
  - rewrite Er. split; [discriminate|].
    intros (h' & t' & E' & Ht' & Hl'). exfalso.
    rewrite Etask in E'. rewrite Ets in Ht'.
    apply list_lookup_insert_Some in Ht' as [(-> & <- & _)|[Hne Ht']].
    + discriminate Hl'.
    + pose proof (K1 h t0 Ht0 Hl0) as E1. congruence.
  - rewrite Er. split; [intros _|reflexivity].
    exists h, (Asleep i msgs total). rewrite Etask, Ets.
    split; [now apply (K1 h t0)|]. split; [|reflexivity].
    apply list_lookup_insert_eq. apply lookup_lt_is_Some. eauto.
Qed.

Lemma reachable_running (U : Unicode) (w : World) :
  reachable U w ->
  running (STATE w) = true <-> engine_alive (STATE w) (tasks w).
Proof.
  induction 1 as [| e w Hw IH | h w Hw IH | t w _ IH].
  - unfold engine_alive. cbn. split; [discriminate|].
    intros (h & t & E & _). discriminate E.
  - exact (wizard_step_running _ _ _ _ (handle_wizard_step U e w) IH).
  - destruct (reachable_invariants U w Hw) as [_ (K1 & _)].
    now apply resume_running.
  - exact IH.
Qed.

(** ** The limit of a sleeping engine *)

Lemma wizard_step_limit (s : State) (ts : list Task) (s' : State)
  (ts' : list Task) :
  wizard_step s ts s' ts' ->
  (forall h t, ts !! h = Some t -> live t = true -> task s = Some h) ->
  sleeping_below_limit s ts -> sleeping_below_limit s' ts'.
Proof.
  intros Hstep K1 IH. unfold sleeping_below_limit in *.
  destruct Hstep; proj_simpl; try exact IH.
  - intros h i msgs total Ht.
    pose proof (cancel_referenced_not_live s ts h _ K1 Ht) as Hl.
    discriminate Hl.
  - intros h i msgs total Ht.
    apply lookup_app_Some in Ht as [Ht|[_ Ht]].
    + pose proof (cancel_referenced_not_live s ts h _ K1 Ht) as Hl.
      discriminate Hl.
    + destruct (h - length (cancel_referenced s ts))%nat as [|j];
        discriminate Ht.
Qed.

Lemma resume_limit (h : nat) (w : World) :
  (forall h t, tasks w !! h = Some t -> live t = true ->
               task (STATE w) = Some h) ->
  sleeping_below_limit (STATE w) (tasks w) ->
  let w' := world_after (resume h w) in
  sleeping_below_limit (STATE w') (tasks w').
Proof.
  intros K1 IH.
  destruct (resume_keeps_configuration h w) as [_ Ecount].
  destruct (resume_cases h w)
    as [[E _] | [(t0 & Ht0 & Hl0 & Ets & Er)
                | (t0 & i & msgs & total & Ht0 & Hl0 & Ets & _ & Er & El
                   & Hsent)]];
    cbn zeta in *.
  - rewrite E. exact IH.
  - intros h' i' msgs' total' Ht'. exfalso. rewrite Ets in Ht'.
    apply list_lookup_insert_Some in Ht' as [(_ & Hx & _)|[Hne Ht']].
    + discriminate Hx.
    + pose proof (K1 h t0 Ht0 Hl0) as E1.
      pose proof (K1 h' _ Ht' eq_refl) as E2. congruence.
  - intros h' i' msgs' total' Ht'. rewrite Ets in Ht'.
    apply list_lookup_insert_Some in Ht' as [(_ & Hx & _)|[Hne Ht']].
    + injection Hx as <- <- <-. rewrite Ecount.
      apply andb_false_iff in El.
      destruct Hsent as [(-> & Etot & Es & _)|((i0 & ->) & Es & _)].
      * rewrite Es in *. split; [exact Etot|]. split; [lia|]. lia.
      * destruct (IH h i0 msgs total Ht0) as (Etot & Hpos & _).
        rewrite Es in *. split; [exact Etot|]. split; lia.
    + exfalso. pose proof (K1 h t0 Ht0 Hl0) as E1.
      pose proof (K1 h' _ Ht' eq_refl) as E2. congruence.
Qed.

Lemma reachable_limit (U : Unicode) (w : World) :
  reachable U w -> sleeping_below_limit (STATE w) (tasks w).
Proof.
  induction 1 as [| e w Hw IH | h w Hw IH | t w _ IH].
  - intros h i msgs total Ht. discriminate Ht.
  - destruct (reachable_invariants U w Hw) as [_ (K1 & _)].
    exact (wizard_step_limit _ _ _ _ (handle_wizard_step U e w) K1 IH).
  - destruct (reachable_invariants U w Hw) as [_ (K1 & _)].
    now apply resume_limit.
  - exact IH.
Qed.

(** ** The example worlds are reachable *)

Lemma run_alone_reachable (U : Unicode) (h n : nat) (w : World) :
  reachable U w -> reachable U (run_alone h n w).
Proof.
  revert w. induction n as [|n IH]; intros w Hw; [exact Hw|].
  cbn [run_alone]. apply IH. now constructor.
Qed.

Lemma world_at_count_reachable : reachable ascii_tables world_at_count.
Proof.
  unfold world_at_count, world_at_payload.
  do 2 apply handle_all_reachable. exact world_at_gc_pick_reachable.
Qed.

Lemma world_launched_reachable : reachable ascii_tables world_launched.
Proof.
  unfold world_launched. apply handle_all_reachable.
  exact world_at_count_reachable.
Qed.

Lemma world_after_run_reachable : reachable ascii_tables world_after_run.
Proof.
  unfold world_after_run. apply run_alone_reachable, handle_all_reachable.
  exact world_at_count_reachable.
Qed.

Lemma world_at_second_count_reachable :
  reachable ascii_tables world_at_second_count.
Proof.
  unfold world_at_second_count. apply handle_all_reachable.
  exact world_launched_reachable.
Qed.

Lemma world_relaunched_reachable : reachable ascii_tables world_relaunched.
Proof.
  unfold world_relaunched. apply handle_all_reachable.
  exact world_at_second_count_reachable.
Qed.

(** ** What holds in every reachable world *)

(** X15. In every reachable world [running] is set exactly when the task
    [STATE["task"]] refers to is pending or asleep: the flag the dashboard
    shows tells whether an engine is alive. *)
Theorem running_flag_tracks_the_engine (U : Unicode) (w : World) :
  reachable U w ->
  running (STATE w) = true <-> engine_alive (STATE w) (tasks w).
Proof. apply reachable_running. Qed.

Lemma running_flag_tracks_the_engine_witness :
  running (STATE world_launched) = true
  <-> engine_alive (STATE world_launched) (tasks world_launched).
Proof.
  exact (running_flag_tracks_the_engine ascii_tables world_launched
           world_launched_reachable).
Defined.

(** X16. In every reachable world at most one task is pending or asleep,
    and it is the task [STATE["task"]] refers to: starting a run cancels the
    run before it. *)
Theorem at_most_one_live_task (U : Unicode) (w : World) (h : nat) (t : Task) :
  reachable U w ->
  tasks w !! h = Some t -> live t = true ->
  task (STATE w) = Some h
  /\ forall h' t', tasks w !! h' = Some t' -> live t' = true -> h' = h.
Proof.
  intros Hw Ht Hl. destruct (reachable_invariants U w Hw) as [_ (K1 & _)].
  pose proof (K1 h t Ht Hl) as E. split; [exact E|].
  intros h' t' Ht' Hl'. pose proof (K1 h' t' Ht' Hl') as E'. congruence.
Qed.

Lemma at_most_one_live_task_witness :
  task (STATE world_relaunched) = Some 1%nat
  /\ forall h' t', tasks world_relaunched !! h' = Some t' ->
       live t' = true -> h' = 1%nat.
Proof.
  apply (at_most_one_live_task ascii_tables world_relaunched 1 Pending
           world_relaunched_reachable); reflexivity.
Defined.

(** X17. In every reachable world a set [running] flag means a complete
    configuration: the mode is ["GC"], there is exactly one target, a group
    of the catalogue, and the pool is not empty. *)
Theorem running_means_configured (U : Unicode) (w : World) :
  reachable U w -> running (STATE w) = true ->
  mode (STATE w) = Some (py "GC")
  /\ (exists name, In name build_mock_groups /\ targets (STATE w) = [name])
  /\ messages (STATE w) <> [].
Proof.
  intros Hw Hr.
  destruct (reachable_invariants U w Hw)
    as [(_ & _ & _ & _ & _ & T0 & _ & _ & _ & R & _) _].
  destruct (R Hr) as (R1 & R2 & R3). split; [exact R1|].
  split; [|exact R3]. destruct T0 as [T0|T0]; [contradiction|exact T0].
Qed.

Lemma running_means_configured_witness :
  mode (STATE world_launched) = Some (py "GC")
  /\ (exists name, In name build_mock_groups
                   /\ targets (STATE world_launched) = [name])
  /\ messages (STATE world_launched) <> [].
Proof.
  apply (running_means_configured ascii_tables world_launched
           world_launched_reachable).
  reflexivity.
Defined.

Lemma lstrip_at_head (p : str) (c : char) :
  head p = Some c -> isspace c = false -> lstrip p = p.
Proof.
  destruct p as [|x p]; [discriminate|]. cbn. intros [= ->] ->. reflexivity.
Qed.

Lemma trimmed_strip (p : str) : trimmed p = true -> strip p = p.
Proof.
  unfold trimmed, strip, rstrip.
  destruct (head p) as [c|] eqn:Hh; [|discriminate].
  destruct (last p) as [d|] eqn:Hl; [|discriminate].
  intros Ht. apply andb_true_iff in Ht as [Hc Hd].
  apply negb_true_iff in Hc, Hd.
  rewrite (lstrip_at_head p c Hh Hc).
  rewrite (lstrip_at_head (rev p) d); [apply rev_involutive| |exact Hd].
  now rewrite head_rev.
Qed.

(** X18. In every reachable world each stored message is as
    [split_messages] makes them: not empty, unchanged by [strip], and free
    of [&] and of its three variants. *)
Theorem stored_messages_are_clean (U : Unicode) (w : World) (p : str) :
  reachable U w -> In p (messages (STATE w)) ->
  p <> [] /\ strip p = p
  /\ forall c, In c p -> c <> 0x26%N /\ is_ampersand_variant c = false.
Proof.
  intros Hw Hp.
  destruct (reachable_invariants U w Hw)
    as [(_ & _ & _ & _ & _ & _ & _ & _ & C & _) _].
  rewrite List.Forall_forall in C. destruct (C p Hp) as [Ht Hc].
  split; [destruct p; [discriminate Ht|discriminate]|].
  split; [now apply trimmed_strip|].
  intros c Hin. rewrite List.Forall_forall in Hc. now apply Hc.
Qed.

Lemma stored_messages_are_clean_witness :
  py "x" <> [] /\ strip (py "x") = py "x"
  /\ forall c, In c (py "x") ->
       c <> 0x26%N /\ is_ampersand_variant c = false.
Proof.
  apply (stored_messages_are_clean ascii_tables world_at_count (py "x")
           world_at_count_reachable).
  vm_compute. now left.
Defined.

(** X19. In every reachable world the session step means logged out and
    the four steps of the wizard mean logged in; and the owner is logged in
    exactly when a session label is stored, which is then not empty. *)
Theorem wizard_steps_need_login (U : Unicode) (w : World) :
  reachable U w ->
  (step (STATE w) = Some Session -> logged_in (STATE w) = false)
  /\ (in_wizard (step (STATE w)) = true -> logged_in (STATE w) = true)
  /\ (logged_in (STATE w) = true ->
      exists label, session_label (STATE w) = Some label /\ label <> [])
  /\ (logged_in (STATE w) = false -> session_label (STATE w) = None).
Proof.
  intros Hw.
  destruct (reachable_invariants U w Hw) as [(L1 & L2 & L3 & _) _].
  split; [exact L1|]. split; [exact L2|].
  destruct (logged_in (STATE w)); split; try discriminate; auto.
Qed.

Lemma wizard_steps_need_login_witness :
  logged_in (STATE world_at_count) = true
  /\ exists label,
       session_label (STATE world_at_count) = Some label /\ label <> [].
Proof.
  destruct (wizard_steps_need_login ascii_tables world_at_count
              world_at_count_reachable) as (_ & H2 & H3 & _).
  exact (conj (H2 eq_refl) (H3 (H2 eq_refl))).
Defined.

(** X20. In every reachable world [targets] is empty or holds exactly one
    name, taken from the catalogue; at the payload and count steps it is not
    empty. *)
Theorem targets_come_from_catalogue (U : Unicode) (w : World) :
  reachable U w ->
  (targets (STATE w) = []
   \/ exists name, In name build_mock_groups /\ targets (STATE w) = [name])
  /\ (past_pick (step (STATE w)) = true -> targets (STATE w) <> []).
Proof.
  intros Hw.
  destruct (reachable_invariants U w Hw)
    as [(_ & _ & _ & _ & _ & T0 & T1 & _) _].
  exact (conj T0 T1).
Qed.

Lemma targets_come_from_catalogue_witness :
  (targets (STATE world_at_count) = []
   \/ exists name, In name build_mock_groups
                   /\ targets (STATE world_at_count) = [name])
  /\ (past_pick (step (STATE world_at_count)) = true ->
      targets (STATE world_at_count) <> []).
Proof.
  exact (targets_come_from_catalogue ascii_tables world_at_count
           world_at_count_reachable).
Defined.

(** X21. In every reachable world either no mode is stored and no
    catalogue is cached, or the mode is ["GC"] and the cache is the whole
    catalogue; past the mode step it is the latter. *)
Theorem mode_and_catalogue_agree (U : Unicode) (w : World) :
  reachable U w ->
  (mode (STATE w) = None /\ mock_groups (STATE w) = []
   \/ mode (STATE w) = Some (py "GC")
      /\ mock_groups (STATE w) = build_mock_groups)
  /\ (past_mode (step (STATE w)) = true -> mode (STATE w) = Some (py "GC")).
Proof.
  intros Hw.
  destruct (reachable_invariants U w Hw) as [(_ & _ & _ & M1 & M2 & _) _].
  exact (conj M1 M2).
Qed.

Lemma mode_and_catalogue_agree_witness :
  (mode (STATE world_at_gc_pick) = None
   /\ mock_groups (STATE world_at_gc_pick) = []
   \/ mode (STATE world_at_gc_pick) = Some (py "GC")
      /\ mock_groups (STATE world_at_gc_pick) = build_mock_groups)
  /\ (past_mode (step (STATE world_at_gc_pick)) = true ->
      mode (STATE world_at_gc_pick) = Some (py "GC")).
Proof.
  exact (mode_and_catalogue_agree ascii_tables world_at_gc_pick
           world_at_gc_pick_reachable).
Defined.

(** X22. In every reachable world that has a task the pool is not empty,
    so that a pending engine never leaves by the empty-pool exit of
    [dry_run_engine]; and the cursor of a sleeping engine lies inside the
    engine's own pool, which is not empty either: [len(msgs)] is not zero
    where the loop divides by it. *)
Theorem engine_pool_never_empty (U : Unicode) (w : World) (h : nat)
  (t : Task) :
  reachable U w -> tasks w !! h = Some t ->
  messages (STATE w) <> []
  /\ forall i msgs total, t = Asleep i msgs total ->
       (i < length msgs)%nat /\ msgs <> [].
Proof.
  intros Hw Ht.
  destruct (reachable_invariants U w Hw) as [_ (_ & K2 & K3)].
  split.
  - apply K3. intros E. rewrite E in Ht. discriminate Ht.
  - intros i msgs total ->. pose proof (K2 h i msgs total Ht) as Hlt.
    split; [exact Hlt|]. intros ->. cbn in Hlt. lia.
Qed.

Lemma engine_pool_never_empty_witness :
  messages (STATE world_launched) <> []
  /\ forall i msgs total, Pending = Asleep i msgs total ->
       (i < length msgs)%nat /\ msgs <> [].
Proof.
  apply (engine_pool_never_empty ascii_tables world_launched 0 Pending
           world_launched_reachable).
  reflexivity.
Defined.

(** X23. In every reachable world an engine asleep at
    [await asyncio.sleep(0)] is the running one: [running] is set,
    [STATE["task"]] refers to it, its limit is [send_count], it has counted
    at least one send, and with a positive limit [sent] is still below the
    limit, however the owner's messages were interleaved with its turns. *)
Theorem sleeping_engine_is_below_its_limit (U : Unicode) (w : World)
  (h i : nat) (msgs : list str) (total : Z) :
  reachable U w -> tasks w !! h = Some (Asleep i msgs total) ->
  running (STATE w) = true
  /\ task (STATE w) = Some h
  /\ total = send_count (STATE w)
  /\ 0 < sent (STATE w)
  /\ (0 < total -> sent (STATE w) < total).
Proof.
  intros Hw Ht.
  destruct (reachable_invariants U w Hw) as [_ (K1 & _)].
  pose proof (K1 h _ Ht eq_refl) as Etask.
  split; [|split; [exact Etask|exact (reachable_limit U w Hw h i msgs total Ht)]].
  apply (reachable_running U w Hw). exists h, (Asleep i msgs total).
  now repeat split.
Qed.

Lemma sleeping_engine_is_below_its_limit_witness :
  running (STATE (run_alone 0 2 world_launched)) = true
  /\ task (STATE (run_alone 0 2 world_launched)) = Some 0%nat
  /\ 3 = send_count (STATE (run_alone 0 2 world_launched))
  /\ 0 < sent (STATE (run_alone 0 2 world_launched))
  /\ (0 < 3 -> sent (STATE (run_alone 0 2 world_launched)) < 3).
Proof.
  apply (sleeping_engine_is_below_its_limit ascii_tables
           (run_alone 0 2 world_launched) 0 0
           (split_messages ascii_tables (py "x & y")) 3).
  - apply run_alone_reachable. exact world_launched_reachable.
  - reflexivity.
Defined.

(** X24. In every reachable world with [running] cleared, as after
    [/stop] or after a run has reached its limit, no turn of any task
    changes anything: the counter stays where it is. *)
Theorem idle_world_ignores_task_turns (U : Unicode) (w : World)
  (hs : list nat) :
  reachable U w -> running (STATE w) = false -> run_tasks hs w = w.
Proof.
  intros Hw Hr.
  assert (Hdead : forall h t, tasks w !! h = Some t -> live t = false).
  { intros h t Ht. destruct (live t) eqn:Hl; [|reflexivity].
    destruct (reachable_invariants U w Hw) as [_ (K1 & _)].
    assert (Ha : engine_alive (STATE w) (tasks w))
      by (exists h, t; split; [exact (K1 h t Ht Hl)|now split]).
    apply (reachable_running U w Hw) in Ha. congruence. }
  induction hs as [|h hs IH]; [reflexivity|].
  unfold run_tasks in *. cbn [fold_left].
  rewrite (resume_without_live_task h w (Hdead h)). exact IH.
Qed.

Lemma idle_world_ignores_task_turns_witness :
  run_tasks [0; 1; 0]%nat world_after_run = world_after_run.
Proof.
  apply (idle_world_ignores_task_turns ascii_tables world_after_run
           [0; 1; 0]%nat world_after_run_reachable).
  reflexivity.
Defined.

(** X25. In every reachable world with [running] set the task
    [STATE["task"]] refers to is alive and its next turn counts a send:
    [sent] becomes 1 on the first turn of the engine and grows by one on
    every later turn. *)
Theorem running_engine_counts_on_its_turn (U : Unicode) (w : World) :
  reachable U w -> running (STATE w) = true ->
  exists h t,
    task (STATE w) = Some h /\ tasks w !! h = Some t /\ live t = true
    /\ sent (STATE (world_after (resume h w)))
       = match t with Pending => 1 | _ => sent (STATE w) + 1 end.
Proof.
  intros Hw Hr.
  destruct (proj1 (reachable_running U w Hw) Hr) as (h & t & Etask & Ht & Hl).
  exists h, t. split; [exact Etask|]. split; [exact Ht|].
  split; [exact Hl|].
  destruct (reachable_invariants U w Hw) as [_ (_ & _ & K3)].
  assert (Hm : messages (STATE w) <> [])
    by (apply K3; intros E; rewrite E in Ht; discriminate Ht).
  unfold resume. rewrite Ht.
  destruct t as [| i msgs total | |]; try discriminate Hl.
  - unfold dry_run_engine, engine_loop, now_ts, bind, get, put, ret.
    cbn -[Nat.modulo Z.add Z.gtb Z.geb length].
    destruct (messages (STATE w)) as [|m ms]; [congruence|].
    cbn -[Nat.modulo Z.add Z.gtb Z.geb length]. rewrite Hr.
    cbn -[Nat.modulo Z.add Z.gtb Z.geb length].
    now destruct ((send_count (STATE w) >? 0) && (0 + 1 >=? send_count (STATE w))).
  - unfold engine_loop, bind, get, put, ret.
    cbn -[Nat.modulo Z.add Z.gtb Z.geb length]. rewrite Hr.
    cbn -[Nat.modulo Z.add Z.gtb Z.geb length].
    now destruct ((total >? 0) && (sent (STATE w) + 1 >=? total)).
Qed.

Lemma running_engine_counts_on_its_turn_witness :
  exists h t,
    task (STATE world_launched) = Some h
    /\ tasks world_launched !! h = Some t /\ live t = true
    /\ sent (STATE (world_after (resume h world_launched)))
       = match t with
         | Pending => 1
         | _ => sent (STATE world_launched) + 1
         end.
Proof.
  apply (running_engine_counts_on_its_turn ascii_tables world_launched
           world_launched_reachable).
  reflexivity.
Defined.

(** ** Asking for a second run *)

Lemma count_step_tasks (U : Unicode) (u : Update) (w : World) (n : Z) :
  effective_user_id u = OWNER_TG_ID ->
  step (STATE w) = Some Count ->
  isdigit U (strip (text_or_empty u)) = true ->
  int U (strip (text_or_empty u)) = Some n ->
  text_router U u w =
  Returned tt
    (mkWorld
       (set_task (Some (length (tasks w)))
          (set_step None (set_running true (set_send_count n (STATE w)))))
       (cancel_referenced (STATE w) (tasks w) ++ [Pending]) (files w)
       (chat w ++ [EngineLive n (n =? 0)]) (clock w)).
Proof.
  intros Hu Es Hd Hi. apply is_owner_true in Hu.
  enter_router Hu Es. rewrite Hd. unfold int_or_raise. rewrite Hi.
  rewrite bind_ret, !bind_put. rewrite bind_get.
  cbn [STATE with_STATE task set_step set_running set_send_count].
  unfold cancel_referenced.
  destruct (task (STATE w)) as [h0|].
  - unfold cancel, create_task, bind, put, get, reply_text. cbn.
    rewrite length_alter. reflexivity.
  - reflexivity.
Qed.

(** X26. Asking for a second run cancels the first.  At the count step a
    digit string from the owner cancels the task [STATE["task"]] referred
    to, creates a pending task at the end of the table and makes
    [STATE["task"]] refer to it; [sent] is not reset by the handler, and a
    turn given to the cancelled task changes nothing. *)
Theorem restart_cancels_the_running_engine (U : Unicode) (u : Update)
  (w : World) (n : Z) (h : nat) (t0 : Task) :
  effective_user_id u = OWNER_TG_ID ->
  step (STATE w) = Some Count ->
  isdigit U (strip (text_or_empty u)) = true ->
  int U (strip (text_or_empty u)) = Some n ->
  task (STATE w) = Some h ->
  tasks w !! h = Some t0 ->
  let w' := world_after (text_router U u w) in
  tasks w' !! h = Some (cancel_task t0)
  /\ task (STATE w') = Some (length (tasks w))
  /\ tasks w' !! length (tasks w) = Some Pending
  /\ sent (STATE w') = sent (STATE w)
  /\ world_after (resume h w') = w'.
Proof.
  intros Hu Es Hd Hi Etask Ht w'. subst w'.
  rewrite (count_step_tasks U u w n Hu Es Hd Hi).
  cbn [world_after STATE tasks]. proj_simpl.
  assert (Hlt : (h < length (tasks w))%nat)
    by (apply lookup_lt_is_Some; eauto).
  assert (Hc : (cancel_referenced (STATE w) (tasks w) ++ [Pending]) !! h
               = Some (cancel_task t0)).
  { rewrite lookup_app_l by (rewrite cancel_referenced_length; exact Hlt).
    unfold cancel_referenced. rewrite Etask.
    now rewrite list_lookup_alter_eq, Ht. }
  split; [exact Hc|]. split; [reflexivity|].
  split; [apply list_lookup_middle; symmetry; apply cancel_referenced_length|].
  split; [reflexivity|].
  apply resume_without_live_task. cbn [tasks]. intros t Et.
  rewrite Hc in Et. injection Et as <-. apply cancel_task_not_live.
Qed.

Lemma restart_cancels_the_running_engine_witness :
  let w' :=
    world_after
      (text_router ascii_tables (says OWNER_TG_ID (py "5"))
         world_at_second_count) in
  tasks w' !! 0%nat = Some (cancel_task Pending)
  /\ task (STATE w') = Some (length (tasks world_at_second_count))
  /\ tasks w' !! length (tasks world_at_second_count) = Some Pending
  /\ sent (STATE w') = sent (STATE world_at_second_count)
  /\ world_after (resume 0 w') = w'.
Proof.
  apply (restart_cancels_the_running_engine ascii_tables
           (says OWNER_TG_ID (py "5")) world_at_second_count 5 0 Pending);
    reflexivity.
Defined.

(** ** Joining and splitting again *)

Section RoundTrip.

Local Open Scope N_scope.

Variable U : Unicode.

Lemma has_and_tail (x : char) (s : str) :
  has_and (x :: s) = false -> has_and s = false.
Proof. cbn [has_and]. intros H. now apply orb_false_iff in H as [_ H]. Qed.

Lemma has_and_suffix (a b : str) :
  has_and (a ++ b) = false -> has_and b = false.
Proof.
  induction a as [|x a IH]; [trivial|]. cbn [app]. intros H.
  apply IH. exact (has_and_tail _ _ H).
Qed.

Lemma has_and_neutral_app (s b : str) :
  Forall (fun c => isspace c = true \/ c = 0x26) s ->
  has_and b = false -> has_and (s ++ b) = false.
Proof.
  intros Hs Hb. induction Hs as [|x s Hx _ IH]; [exact Hb|].
  cbn [app has_and]. rewrite IH, orb_false_r.
  destruct (s ++ b) as [|n [|d t]]; try reflexivity.
  rewrite (ci_eq_neutral x 0x61 Hx); [reflexivity|lia].
Qed.

Lemma has_and_app_neutral (a b : str) :
  has_and a = false -> has_and b = false ->
  match b with
  | x :: _ => isspace x = true \/ x = 0x26
  | [] => True
  end ->
  has_and (a ++ b) = false.
Proof.
  intros Ha Hb Hx. induction a as [|x a IH]; [exact Hb|].
  cbn [app has_and]. rewrite (IH (has_and_tail _ _ Ha)), orb_false_r.
  cbn [has_and] in Ha. apply orb_false_iff in Ha as [Ha _].
  destruct a as [|n [|d a]]; cbn [app].
  - destruct b as [|y [|z b]]; try reflexivity.
    rewrite (ci_eq_neutral y 0x6E Hx); [|lia].
    now rewrite andb_false_r.
  - destruct b as [|z b]; [reflexivity|].
    rewrite (ci_eq_neutral z 0x64 Hx); [|lia].
    now rewrite andb_false_r.
  - exact Ha.
Qed.

Lemma match_core_no_and (prev : option char) (s : str) :
  has_and s = false ->
  match_core U prev s
  = match s with
    | c :: _ => if c =? 0x26 then Some 1%nat else None
    | [] => None
    end.
Proof.
  intros H. destruct s as [|a [|n [|d s3]]]; try reflexivity.
  cbn [has_and] in H. apply orb_false_iff in H as [H _].
  unfold match_core. now rewrite H.
Qed.

Lemma match_delim_no_and (prev : option char) (s : str) :
  has_and s = false ->
  match_delim U prev s
  = match lstrip s with
    | c :: t =>
        if c =? 0x26 then Some (ws_span s + 1 + ws_span t)%nat else None
    | [] => None
    end.
Proof.
  intros H. unfold match_delim.
  rewrite match_core_no_and
    by (apply (has_and_suffix (take (ws_span s) s)); now rewrite take_drop).
  pose proof (ws_span_drop s) as Ed. rewrite Ed.
  destruct (lstrip s) as [|c t]; [reflexivity|].
  destruct (c =? 0x26); [|reflexivity].
  now rewrite <- drop_drop, Ed.
Qed.

Lemma lstrip_of_piece (p rest : str) :
  p <> [] -> (forall d, last p = Some d -> isspace d = false) ->
  exists x t, lstrip (p ++ rest) = x :: t /\ In x p.
Proof.
  induction p as [|c p IH]; [congruence|]. intros _ Hl.
  cbn [app lstrip]. destruct (isspace c) eqn:Ec.
  - destruct p as [|y p].
    + rewrite (Hl c eq_refl) in Ec. discriminate Ec.
    + destruct IH as (x & t & E & Hin); [discriminate| |].
      * intros d Hd. apply Hl. now rewrite last_cons_cons.
      * exists x, t. split; [exact E|now right].
  - exists c, (p ++ rest). split; [reflexivity|now left].
Qed.

(** Inside a plain piece no match starts. *)
Lemma split_go_piece (p : str) :
  forall (rest : str) (prev : option char) (cur : str),
    has_and (p ++ rest) = false ->
    Forall (fun c => c <> 0x26) p ->
    (forall d, last p = Some d -> isspace d = false) ->
    exists prev',
      split_go U prev (p ++ rest) 0 cur = split_go U prev' rest 0 (rev p ++ cur).
Proof.
  induction p as [|c p IH]; intros rest prev cur Ha Hp Hl.
  - now exists prev.
  - cbn [app split_go]. rewrite match_delim_no_and by exact Ha.
    destruct (lstrip_of_piece (c :: p) rest) as (x & t & E & Hin);
      [discriminate|exact Hl|].
    cbn [app] in E. rewrite E.
    rewrite List.Forall_forall in Hp. pose proof (Hp x Hin) as Hx.
    apply N.eqb_neq in Hx. rewrite Hx.
    destruct (IH rest (Some c) (c :: cur)) as (prev' & ->).
    + exact (has_and_tail _ _ Ha).
    + apply List.Forall_forall. intros y Hy. apply Hp. now right.
    + intros d Hd. apply Hl. destruct p; [discriminate Hd|].
      now rewrite last_cons_cons.
    + exists prev'. cbn [rev]. now rewrite <- app_assoc.
Qed.

(** A separator is one match, up to the next piece. *)
Lemma split_go_separator (l r rest : str) (prev : option char) (cur : str) :
  forallb isspace l = true -> forallb isspace r = true ->
  has_and ((l ++ 0x26 :: r) ++ rest) = false ->
  (exists x t, rest = x :: t /\ isspace x = false) ->
  exists prev',
    split_go U prev ((l ++ 0x26 :: r) ++ rest) 0 cur
    = rev cur :: split_go U prev' rest 0 [].
Proof.
  intros Hl Hr Ha (x & t & -> & Hx).
  assert (Hm : match_delim U prev ((l ++ 0x26 :: r) ++ x :: t)
               = Some (length (l ++ 0x26 :: r))).
  { rewrite match_delim_no_and by exact Ha.
    rewrite <- app_assoc. cbn [app].
    rewrite (lstrip_app_ws l _ Hl). cbn [lstrip isspace].
    change (isspace 0x26) with false. cbn iota.
    change (0x26 =? 0x26) with true. cbn iota.
    rewrite (ws_span_blank l _ Hl), (ws_span_blank r _ Hr).
    cbn [ws_span]. change (isspace 0x26) with false. rewrite Hx.
    rewrite length_app. cbn [length]. f_equal. lia. }
  destruct (l ++ 0x26 :: r) as [|c0 sep] eqn:Es.
  { destruct l; discriminate Es. }
  cbn [app split_go]. cbn [app] in Hm. rewrite Hm. cbn [length].
  rewrite split_go_skip. eauto.
Qed.

Lemma plain_message_parts (p : str) :
  plain_message p = true ->
  trimmed p = true
  /\ Forall (fun c => c <> 0x26 /\ is_ampersand_variant c = false) p
  /\ has_and p = false.
Proof.
  unfold plain_message. intros H.
  apply andb_true_iff in H as [H H3]. apply andb_true_iff in H as [H1 H2].
  split; [exact H1|]. split; [|now apply negb_true_iff].
  apply List.Forall_forall. intros c Hc.
  rewrite forallb_forall in H2. specialize (H2 c Hc).
  apply andb_true_iff in H2 as [Ha Hb].
  apply negb_true_iff in Ha, Hb. split; [now apply N.eqb_neq|exact Hb].
Qed.

Lemma trimmed_ends (p : str) :
  trimmed p = true ->
  (exists x t, p = x :: t /\ isspace x = false)
  /\ (forall d, last p = Some d -> isspace d = false).
Proof.
  unfold trimmed. destruct p as [|x t]; [discriminate|]. cbn [head].
  destruct (last (x :: t)) as [d|]; [|discriminate].
  intros H. apply andb_true_iff in H as [Hx Hd].
  apply negb_true_iff in Hx, Hd. split; [eauto|].
  now intros d' [= <-].
Qed.

Section Joined.

Variables l r : str.
Hypothesis Hl : forallb isspace l = true.
Hypothesis Hr : forallb isspace r = true.

Lemma separator_neutral :
  Forall (fun c => isspace c = true \/ c = 0x26) (l ++ 0x26 :: r).
Proof.
  apply Forall_app. split; [|constructor; [now right|]];
    apply List.Forall_forall; intros c Hc; left;
    [rewrite forallb_forall in Hl; now apply Hl
    |rewrite forallb_forall in Hr; now apply Hr].
Qed.

Lemma has_and_join (msgs : list str) :
  forallb plain_message msgs = true ->
  has_and (join (l ++ 0x26 :: r) msgs) = false.
Proof.
  induction msgs as [|p [|q ms] IH]; [reflexivity| |].
  - cbn [forallb join]. rewrite andb_true_r. intros Hp.
    now destruct (plain_message_parts p Hp) as (_ & _ & H).
  - intros H. cbn [forallb] in H. apply andb_true_iff in H as [Hp Hq].
    destruct (plain_message_parts p Hp) as (_ & _ & Hap).
    change (join (l ++ 0x26 :: r) (p :: q :: ms))
      with (p ++ (l ++ 0x26 :: r) ++ join (l ++ 0x26 :: r) (q :: ms)).
    apply has_and_app_neutral; [exact Hap| |].
    + apply has_and_neutral_app; [apply separator_neutral|now apply IH].
    + destruct l as [|c l']; cbn [app]; [now right|].
      cbn [forallb] in Hl. apply andb_true_iff in Hl as [Hc _]. now left.
Qed.

Lemma join_head (q : str) (ms : list str) :
  trimmed q = true ->
  exists x t, join (l ++ 0x26 :: r) (q :: ms) = x :: t /\ isspace x = false.
Proof.
  intros Hq. destruct (trimmed_ends q Hq) as ((x & t & -> & Hx) & _).
  destruct ms; cbn [join app]; eauto.
Qed.

Lemma split_go_join (msgs : list str) :
  forall prev,
    msgs <> [] -> forallb plain_message msgs = true ->
    split_go U prev (join (l ++ 0x26 :: r) msgs) 0 [] = msgs.
Proof.
  induction msgs as [|p [|q ms] IH]; intros prev Hne H; [congruence| |].
  - cbn [forallb join] in *. rewrite andb_true_r in H.
    destruct (plain_message_parts p H) as (Ht & Hc & Ha).
    destruct (trimmed_ends p Ht) as (_ & Hlast).
    destruct (split_go_piece p [] prev []) as (prev' & E).
    + now rewrite app_nil_r.
    + eapply List.Forall_impl; [|exact Hc]. now intros c [Hc' _].
    + exact Hlast.
    + rewrite app_nil_r in E. rewrite E. cbn [split_go].
      now rewrite app_nil_r, rev_involutive.
  - pose proof (has_and_join _ H) as Hall.
    cbn [forallb] in H. apply andb_true_iff in H as [Hp Hq].
    destruct (plain_message_parts p Hp) as (Ht & Hc & Ha).
    destruct (trimmed_ends p Ht) as (_ & Hlast).
    change (join (l ++ 0x26 :: r) (p :: q :: ms))
      with (p ++ (l ++ 0x26 :: r) ++ join (l ++ 0x26 :: r) (q :: ms)) in *.
    destruct (split_go_piece p
                ((l ++ 0x26 :: r) ++ join (l ++ 0x26 :: r) (q :: ms)) prev [])
      as (prev1 & ->).
    + exact Hall.
    + eapply List.Forall_impl; [|exact Hc]. now intros c [Hc' _].
    + exact Hlast.
    + assert (Hq1 : plain_message q = true)
        by (cbn [forallb] in Hq; now apply andb_true_iff in Hq as [Hq _]).
      destruct (plain_message_parts q Hq1) as (Htq & _).
      destruct (split_go_separator l r (join (l ++ 0x26 :: r) (q :: ms))
                  prev1 (rev p ++ []) Hl Hr) as (prev2 & ->).
      * exact (has_and_suffix _ _ Hall).
      * now apply join_head.
      * rewrite app_nil_r, rev_involutive. f_equal.
        apply IH; [discriminate|exact Hq].
Qed.

Lemma join_no_variant (msgs : list str) :
  forallb plain_message msgs = true ->
  Forall (fun c => is_ampersand_variant c = false)
    (join (l ++ 0x26 :: r) msgs).
Proof.
  assert (Hsep : Forall (fun c => is_ampersand_variant c = false)
                   (l ++ 0x26 :: r)).
  { eapply List.Forall_impl; [|exact separator_neutral].
    intros c [Hc| ->]; [|reflexivity].
    unfold is_ampersand_variant.
    destruct (N.eqb_spec c 0xFE60) as [->|_]; [discriminate Hc|].
    destruct (N.eqb_spec c 0xFF06) as [->|_]; [discriminate Hc|].
    destruct (N.eqb_spec c 0x214B) as [->|_]; [discriminate Hc|].
    reflexivity. }
  induction msgs as [|p [|q ms] IH]; intros H; [constructor| |].
  - cbn [forallb join] in *. rewrite andb_true_r in H.
    destruct (plain_message_parts p H) as (_ & Hc & _).
    eapply List.Forall_impl; [|exact Hc]. now intros c [_ Hc'].
  - cbn [forallb] in H. apply andb_true_iff in H as [Hp Hq].
    destruct (plain_message_parts p Hp) as (_ & Hc & _).
    change (join (l ++ 0x26 :: r) (p :: q :: ms))
      with (p ++ (l ++ 0x26 :: r) ++ join (l ++ 0x26 :: r) (q :: ms)).
    apply Forall_app. split.
    + eapply List.Forall_impl; [|exact Hc]. now intros c [_ Hc'].
    + apply Forall_app. split; [exact Hsep|now apply IH].
Qed.

End Joined.

Lemma normalize_without_variant (s : str) :
  Forall (fun c => is_ampersand_variant c = false) s -> normalize s = s.
Proof.
  intros H. rewrite normalize_map.
  induction H as [|c s Hc _ IH]; [reflexivity|].
  cbn [List.map]. now rewrite Hc, IH.
Qed.

Lemma stripped_parts_plain (msgs : list str) :
  forallb plain_message msgs = true -> stripped_parts msgs = msgs.
Proof.
  unfold stripped_parts. induction msgs as [|p ms IH]; [reflexivity|].
  cbn [forallb]. intros H. apply andb_true_iff in H as [Hp H].
  destruct (plain_message_parts p Hp) as (Ht & _).
  cbn [List.filter]. rewrite (trimmed_strip p Ht).
  destruct (trimmed_ends p Ht) as ((x & t & -> & _) & _).
  cbn [truthy List.map]. rewrite (trimmed_strip _ Ht). f_equal. now apply IH.
Qed.

(** X27. Joining and splitting again.  Messages that hold nothing to cut
    at (each trimmed, without an ampersand of any kind and without the
    letters of "and" in a row), joined with [&] between any two runs of
    whitespace, are given back by [split_messages] as they were and in the
    same order. *)
Theorem joined_messages_split_back (l r : str) (msgs : list str) :
  forallb isspace l = true -> forallb isspace r = true ->
  forallb plain_message msgs = true ->
  split_messages U (join (l ++ 0x26 :: r) msgs) = msgs.
Proof.
  intros Hl Hr H. unfold split_messages, re_split.
  rewrite normalize_without_variant by now apply join_no_variant.
  destruct msgs as [|p ms]; [reflexivity|].
  rewrite (split_go_join l r Hl Hr) by first [discriminate | exact H].
  now apply stripped_parts_plain.
Qed.

End RoundTrip.

Lemma joined_messages_split_back_witness :
  split_messages ascii_tables
    (join (py " " ++ 0x26%N :: py " ")
       [py "hello world"; py "bye"; py "42"])
  = [py "hello world"; py "bye"; py "42"].
Proof.
  apply (joined_messages_split_back ascii_tables (py " ") (py " ")
           [py "hello world"; py "bye"; py "42"]); reflexivity.
Defined.
